(** * Jansarthi core: issue reports, assignment and lifecycle

    A shallow embedding of the report routes ([app/routes/reports.py]),
    the table models ([app/models/issue.py]), the response schemas
    ([app/schemas/issue.py]) and the phone normaliser
    ([app/services/twilio.py]), followed by the properties of the issue
    lifecycle and assignment engine.

    Conventions of the embedding:
    - a Python [int] is a [Z], a [float] is an IEEE binary64 [float],
      a [datetime] is a [Z] (a clock reading), [Optional[T]] is [option T];
    - a table is the collection of its committed rows; rows that are read
      by primary key only live in a [gmap], rows that are scanned in
      retrieval order live in a [list];
    - an endpoint is a function from the world before the call to the world
      after it and either an [HTTPException] or a response. *)

From Stdlib Require Import ZArith Floats DecimalString Strings.Byte.
From stdpp Require Import base option list gmap strings.

Local Open Scope Z_scope.

(** ** Python idioms *)

Module Py.

(** [str(n)] for an [int]. *)
Definition str_int (n : Z) : string := NilZero.string_of_int (Z.to_int n).

(** Truth value of a [str]: the empty string is falsy. *)
Definition truthy_str (s : string) : bool :=
  match s with EmptyString => false | _ => true end.

(** [x or default] for an [Optional[str]]. *)
Definition str_or (x : option string) (default : string) : string :=
  match x with
  | Some s => if truthy_str s then s else default
  | None => default
  end.

(** [x in xs] where [x] is an [Optional[str]] and [xs] a list of [str]. *)
Definition str_in (x : option string) (xs : list string) : bool :=
  match x with
  | Some s => existsb (String.eqb s) xs
  | None => false
  end.

(** [len(xs)]. *)
Definition len {A} (xs : list A) : Z := Z.of_nat (length xs).

End Py.

(** ** app/models/issue.py *)

Inductive IssueType := WATER | ELECTRICITY | ROAD | GARBAGE.

Inductive IssueStatus :=
| REPORTED
| ASSIGNED
| REPRESENTATIVE_ACKNOWLEDGED
| PWD_WORKING
| PWD_COMPLETED
| REPRESENTATIVE_REVIEWED.

Inductive UserRole := USER | REPRESENTATIVE | PWD_WORKER | ADMIN.

Inductive LocalityType := WARD | VILLAGE.

#[global] Instance IssueType_eq_dec : EqDecision IssueType.
Proof. solve_decision. Defined.
#[global] Instance IssueStatus_eq_dec : EqDecision IssueStatus.
Proof. solve_decision. Defined.
#[global] Instance UserRole_eq_dec : EqDecision UserRole.
Proof. solve_decision. Defined.
#[global] Instance LocalityType_eq_dec : EqDecision LocalityType.
Proof. solve_decision. Defined.

(** The [.value] of the [str]-valued enumerations. *)
Definition IssueStatus_value (s : IssueStatus) : string :=
  match s with
  | REPORTED => "reported"
  | ASSIGNED => "assigned"
  | REPRESENTATIVE_ACKNOWLEDGED => "representative_acknowledged"
  | PWD_WORKING => "pwd_working"
  | PWD_COMPLETED => "pwd_completed"
  | REPRESENTATIVE_REVIEWED => "representative_reviewed"
  end.

Definition LocalityType_value (t : LocalityType) : string :=
  match t with WARD => "ward" | VILLAGE => "village" end.

Module Locality.
Record t := mk {
  id : Z;
  name : string;
  type : LocalityType;
  is_active : bool;
  created_at : Z;
  updated_at : Z;
}.
End Locality.

Module Issue.
Record t := mk {
  id : Z;
  issue_type : IssueType;
  description : string;
  latitude : float;
  longitude : float;
  locality_id : option Z;
  status : IssueStatus;
  user_id : option Z;
  assigned_parshad_id : option Z;
  assignment_notes : option string;
  progress_notes : option string;
  completion_description : option string;
  completion_photo_url : option string;
  completed_at : option Z;
  completed_by_id : option Z;
  created_at : Z;
  updated_at : Z;
}.
End Issue.

Module IssuePhoto.
Record t := mk {
  id : Z;
  issue_id : Z;
  photo_url : string;
  filename : string;
  file_size : Z;
  content_type : string;
  created_at : Z;
}.
End IssuePhoto.

Module User.
Record t := mk {
  id : Z;
  name : string;
  mobile_number : string;
  role : UserRole;
  is_active : bool;
  is_verified : bool;
  locality_id : option Z;
  created_at : Z;
  updated_at : Z;
}.
End User.

(** The committed rows of the four tables the report routes touch, and the
    two primary-key sequences they draw from. *)
Record DB := mkDB {
  localities : gmap Z Locality.t;
  users : list User.t;
  issues : gmap Z Issue.t;
  issue_photos : list IssuePhoto.t;
  issues_id_seq : Z;
  issue_photos_id_seq : Z;
}.

(** ** app/schemas/issue.py *)

Module IssuePhotoResponse.
Record t := mk {
  id : Z;
  photo_url : string;
  filename : string;
  file_size : Z;
  content_type : string;
  created_at : Z;
}.
End IssuePhotoResponse.

Module IssueResponse.
Record t := mk {
  id : Z;
  issue_type : IssueType;
  description : string;
  latitude : float;
  longitude : float;
  locality_id : option Z;
  locality_name : option string;
  locality_type : option string;
  status : IssueStatus;
  user_id : option Z;
  assigned_parshad_id : option Z;
  assignment_message : option string;
  completion_description : option string;
  completion_photo_url : option string;
  completed_at : option Z;
  completed_by_id : option Z;
  created_at : Z;
  updated_at : Z;
  photos : list IssuePhotoResponse.t;
}.
End IssueResponse.

(** ** Collaborators of the report routes *)

(** The three limits [create_issue] reads from [settings]. *)
Record Settings := mkSettings {
  max_photos_per_issue : Z;
  allowed_image_types : list string;
  max_file_size : Z;
}.

(** An uploaded file of the multipart form: what [photo.filename],
    [photo.content_type] and [await photo.read()] give. *)
Record UploadFile := mkUploadFile {
  uf_filename : option string;
  uf_content_type : option string;
  uf_content : list byte;
}.

(** The blob store behind [get_storage_service()]. [Blob] is the state of
    the bucket; [upload_file] returns the new bucket and the object name,
    or [None] where the client raises. [get_file_url] is the presigned URL
    of an object as one request obtains it; the service signs it anew, with
    a time limit, for each request, so the URLs of two requests are not
    compared anywhere below. *)
Record StorageService (Blob : Type) := mkStorage {
  upload_file : Blob -> list byte -> string -> string -> Blob * option string;
  get_file_url : string -> string;
}.
Arguments mkStorage {Blob}.
Arguments upload_file {Blob}.
Arguments get_file_url {Blob}.

(** What [raise HTTPException(status_code=..., detail=...)] carries. The
    detail is kept as the message kind and the values formatted into it.
    Two replies are raised by no route but given by the framework:
    [InternalServerError], with status 500, to an exception that leaves a
    route uncaught, and [RequestValidationError], with status 422, to a
    request whose parameters are outside the bounds the route declares. *)
Inductive Detail :=
| MaximumPhotosAllowed (limit : Z)
| InvalidFileType (content_type : option string)
| FileExceedsMaximumSize (filename : option string)
| FailedToUploadPhoto
| IssueNotFound (issue_id : Z)
| LocalityNotFound
| InternalServerError
| RequestValidationError.

Record HTTPException := mkHTTPException {
  status_code : Z;
  detail : Detail;
}.

Definition HTTP_400_BAD_REQUEST : Z := 400.
Definition HTTP_404_NOT_FOUND : Z := 404.
Definition HTTP_422_UNPROCESSABLE_ENTITY : Z := 422.
Definition HTTP_500_INTERNAL_SERVER_ERROR : Z := 500.

(** Everything a request can change: the database and the bucket. *)
Record World (Blob : Type) := mkWorld {
  db : DB;
  bucket : Blob;
}.
Arguments mkWorld {Blob}.
Arguments db {Blob}.
Arguments bucket {Blob}.

(** ** app/routes/reports.py *)

(** An [IssuePhoto(...)] object added to the session and not yet flushed:
    its primary key and [created_at] are given by the database at commit. *)
Record PendingPhoto := mkPendingPhoto {
  pp_issue_id : Z;
  pp_photo_url : string;
  pp_filename : string;
  pp_file_size : Z;
  pp_content_type : string;
}.

(** The outcome of the [session.commit()] that inserts pending photo rows:
    the rows are stored, or the commit raises and its transaction is gone.
    An aborted transaction stores no row; [skipped] is the number of ids
    the database handed out to its inserts and does not take back (a
    sequence keeps them, a row counter does not). *)
Inductive CommitOutcome := Committed | Aborted (skipped : nat).

(** The [session] of one request, as far as a photo record can fail in it.
    [session_add] is [IssuePhoto(...)] followed by [session.add(...)],
    [false] where either raises; [session_commit] is the commit of the
    photo objects added until then. *)
Record Session := mkSession {
  session_add : PendingPhoto -> bool;
  session_commit : list PendingPhoto -> CommitOutcome;
}.

(** [session.commit()] of pending photo rows: each takes the next value of
    the sequence and the server's [now()]. *)
Fixpoint insert_photos (now seq : Z) (pending : list PendingPhoto)
  : list IssuePhoto.t * Z :=
  match pending with
  | [] => ([], seq)
  | p :: rest =>
      let row := IssuePhoto.mk seq (pp_issue_id p) (pp_photo_url p)
                   (pp_filename p) (pp_file_size p) (pp_content_type p) now in
      let '(rows, seq') := insert_photos now (seq + 1) rest in
      (row :: rows, seq')
  end.

Definition commit_photos (now : Z) (pending : list PendingPhoto) (d : DB) : DB :=
  let '(rows, seq') := insert_photos now (issue_photos_id_seq d) pending in
  mkDB (localities d) (users d) (issues d) (issue_photos d ++ rows)
       (issues_id_seq d) seq'.

(** The ids an aborted commit of photo rows leaves unused. *)
Definition skip_photo_ids (skipped : nat) (d : DB) : DB :=
  mkDB (localities d) (users d) (issues d) (issue_photos d)
       (issues_id_seq d) (issue_photos_id_seq d + Z.of_nat skipped).

(** [session.add(new_issue); session.commit()]: the row is stored under the
    next value of the sequence. *)
Definition commit_issue (issue : Issue.t) (d : DB) : DB :=
  mkDB (localities d) (users d) (<[Issue.id issue := issue]> (issues d))
       (issue_photos d) (issues_id_seq d + 1) (issue_photos_id_seq d).

(** The [photos] relationship of an issue. *)
Definition photos_of (d : DB) (issue_id : Z) : list IssuePhoto.t :=
  filter (λ p, IssuePhoto.issue_id p = issue_id) (issue_photos d).

(** [select(User).where(User.role == REPRESENTATIVE,
    User.locality_id == locality_id, User.is_active == True)]. *)
Definition is_active_representative_of (locality_id : Z) (u : User.t) : bool :=
  bool_decide (User.role u = REPRESENTATIVE)
  && bool_decide (User.locality_id u = Some locality_id)
  && User.is_active u.

Definition select_representatives (locality_id : Z) (d : DB) : list User.t :=
  List.filter (is_active_representative_of locality_id) (users d).

(** [.first()] of a result. *)
Definition first {A} (rows : list A) : option A := head rows.

Section Reports.

Context {Blob : Type}.
Variable settings : Settings.
Variable storage_service : StorageService Blob.
Variable session : Session.

Definition photo_response (photo : IssuePhoto.t) : IssuePhotoResponse.t :=
  IssuePhotoResponse.mk
    (IssuePhoto.id photo)
    (get_file_url storage_service (IssuePhoto.photo_url photo))
    (IssuePhoto.filename photo)
    (IssuePhoto.file_size photo)
    (IssuePhoto.content_type photo)
    (IssuePhoto.created_at photo).

Definition build_issue_response (issue : Issue.t) (d : DB) : IssueResponse.t :=
  let photos := map photo_response (photos_of d (Issue.id issue)) in
  let completion_photo_url :=
    match Issue.completion_photo_url issue with
    | Some url =>
        if Py.truthy_str url then Some (get_file_url storage_service url)
        else None
    | None => None
    end in
  let '(locality_name, locality_type) :=
    match Issue.locality_id issue with
    | Some lid =>
        if lid =? 0 then (None, None)
        else match localities d !! lid with
             | Some locality =>
                 (Some (Locality.name locality),
                  Some (LocalityType_value (Locality.type locality)))
             | None => (None, None)
             end
    | None => (None, None)
    end in
  IssueResponse.mk
    (Issue.id issue)
    (Issue.issue_type issue)
    (Issue.description issue)
    (Issue.latitude issue)
    (Issue.longitude issue)
    (Issue.locality_id issue)
    locality_name
    locality_type
    (Issue.status issue)
    (Issue.user_id issue)
    (Issue.assigned_parshad_id issue)
    None
    (Issue.completion_description issue)
    completion_photo_url
    (Issue.completed_at issue)
    (Issue.completed_by_id issue)
    (Issue.created_at issue)
    (Issue.updated_at issue)
    photos.

(** The first loop of [create_issue]: the first photo with a content type
    outside the whitelist or a content above the size limit raises. *)
Fixpoint validate_photos (photos : list UploadFile) : option HTTPException :=
  match photos with
  | [] => None
  | photo :: rest =>
      if negb (Py.str_in (uf_content_type photo) (allowed_image_types settings))
      then Some (mkHTTPException HTTP_400_BAD_REQUEST
                   (InvalidFileType (uf_content_type photo)))
      else if Py.len (uf_content photo) >? max_file_size settings
      then Some (mkHTTPException HTTP_400_BAD_REQUEST
                   (FileExceedsMaximumSize (uf_filename photo)))
      else validate_photos rest
  end.

(** The second loop of [create_issue], up to the [except] clause: [None]
    is the exception caught there, raised by the upload or by the creation
    of the photo object; [Some pending] are the photo objects added to the
    session when the loop ends normally. *)
Fixpoint upload_photos (issue_id : Z) (photos : list UploadFile) (b : Blob)
    (pending : list PendingPhoto) : Blob * option (list PendingPhoto) :=
  match photos with
  | [] => (b, Some pending)
  | photo :: rest =>
      let content := uf_content photo in
      let filename := Py.str_or (uf_filename photo) "image.jpg" in
      let content_type := Py.str_or (uf_content_type photo) "image/jpeg" in
      match upload_file storage_service b content filename content_type with
      | (b', Some object_name) =>
          let issue_photo :=
            mkPendingPhoto issue_id object_name filename (Py.len content)
              content_type in
          if session_add session issue_photo
          then upload_photos issue_id rest b' (pending ++ [issue_photo])
          else (b', None)
      | (b', None) => (b', None)
      end
  end.

(** The representative lookup and the three values it decides:
    [(assigned_parshad_id, assignment_message, initial_status)]. *)
Definition auto_assign (locality_id : option Z) (d : DB)
  : option Z * option string * IssueStatus :=
  match locality_id with
  | Some lid =>
      match first (select_representatives lid d) with
      | Some parshad =>
          (Some (User.id parshad),
           Some ("Auto-assigned to Parshad " +:+ User.name parshad
                 +:+ " of ward " +:+ Py.str_int lid),
           ASSIGNED)
      | None =>
          (None,
           Some ("No Parshad assigned to ward " +:+ Py.str_int lid
                 +:+ ". Issue is unassigned."),
           REPORTED)
      end
  | None => (None, None, REPORTED)
  end.

Definition create_issue
    (issue_type : IssueType) (description : string)
    (latitude longitude : float) (locality_id : option Z)
    (photos : list UploadFile) (current_user : User.t)
    (now : Z) (w : World Blob)
  : World Blob * (HTTPException + IssueResponse.t) :=
  if Py.len photos >? max_photos_per_issue settings then
    (w, inl (mkHTTPException HTTP_400_BAD_REQUEST
               (MaximumPhotosAllowed (max_photos_per_issue settings))))
  else
    match validate_photos photos with
    | Some e => (w, inl e)
    | None =>
        let '(assigned_parshad_id, assignment_message, initial_status) :=
          auto_assign locality_id (db w) in
        let new_issue :=
          Issue.mk (issues_id_seq (db w)) issue_type description
            latitude longitude locality_id initial_status
            (Some (User.id current_user)) assigned_parshad_id
            assignment_message None None None None None now now in
        let d1 := commit_issue new_issue (db w) in
        match upload_photos (Issue.id new_issue) photos (bucket w) [] with
        | (b', None) =>
            (* session.rollback(): the pending photos are dropped *)
            (mkWorld d1 b',
             inl (mkHTTPException HTTP_500_INTERNAL_SERVER_ERROR
                    FailedToUploadPhoto))
        | (b', Some pending) =>
            match session_commit session pending with
            | Aborted skipped =>
                (* the exception leaves the route; no photo row is stored *)
                (mkWorld (skip_photo_ids skipped d1) b',
                 inl (mkHTTPException HTTP_500_INTERNAL_SERVER_ERROR
                        InternalServerError))
            | Committed =>
                let d2 := commit_photos now pending d1 in
                (mkWorld d2 b',
                 inr (IssueResponse.mk
                        (Issue.id new_issue)
                        (Issue.issue_type new_issue)
                        (Issue.description new_issue)
                        (Issue.latitude new_issue)
                        (Issue.longitude new_issue)
                        (Issue.locality_id new_issue)
                        None
                        None
                        (Issue.status new_issue)
                        (Issue.user_id new_issue)
                        (Issue.assigned_parshad_id new_issue)
                        assignment_message
                        None None None None
                        (Issue.created_at new_issue)
                        (Issue.updated_at new_issue)
                        (map photo_response
                           (photos_of d2 (Issue.id new_issue)))))
            end
        end
    end.

Definition get_issue (issue_id : Z) (d : DB)
  : HTTPException + IssueResponse.t :=
  match issues d !! issue_id with
  | None => inl (mkHTTPException HTTP_404_NOT_FOUND (IssueNotFound issue_id))
  | Some issue => inr (build_issue_response issue d)
  end.

End Reports.

(** *** Localities (public) *)

Record RepresentativeInfo := mkRepresentativeInfo {
  ri_id : Z;
  ri_name : string;
}.

Module LocalityPublicResponse.
Record t := mk {
  id : Z;
  name : string;
  type : LocalityType;
  representatives : list RepresentativeInfo;
}.
End LocalityPublicResponse.

Definition get_locality_details (locality_id : Z) (d : DB)
  : HTTPException + LocalityPublicResponse.t :=
  match localities d !! locality_id with
  | None => inl (mkHTTPException HTTP_404_NOT_FOUND LocalityNotFound)
  | Some locality =>
      if negb (Locality.is_active locality) then
        inl (mkHTTPException HTTP_404_NOT_FOUND LocalityNotFound)
      else
        let reps := select_representatives (Locality.id locality) d in
        inr (LocalityPublicResponse.mk
               (Locality.id locality)
               (Locality.name locality)
               (Locality.type locality)
               (map (λ r, mkRepresentativeInfo (User.id r) (User.name r)) reps))
  end.

(** *** Map view *)

Section MapView.

(** The functions of the [math] module and the float power operator are
    the platform's; each returns [None] where Python raises. *)
Variables math_sin math_cos math_asin math_sqrt : float -> option float.
Variable float_pow : float -> float -> option float.

Local Open Scope float_scope.



(** The [where] clauses: a filter that is given is an equality test. *)
Definition matches_filters (issue_type : option IssueType)
    (status_filter : option IssueStatus) (issue : Issue.t) : bool :=
  match issue_type with
  | Some t => bool_decide (Issue.issue_type issue = t)
  | None => true
  end
  && match status_filter with
     | Some s => bool_decide (Issue.status issue = s)
     | None => true
     end.



End MapView.

(** ** app/services/twilio.py *)

Module Twilio.

(** A [str] as the sequence of its code points. *)
Definition str := list N.

Definition plus : N := 43.   (* '+' *)
Definition d1 : N := 49.     (* '1' *)
Definition d9 : N := 57.     (* '9' *)

Fixpoint startswith (prefix s : str) : bool :=
  match prefix, s with
  | [], _ => true
  | p :: prefix', c :: s' => (p =? c)%N && startswith prefix' s'
  | _ :: _, [] => false
  end.

Section Normalize.

(** Membership of a code point above the ASCII range in the Unicode
    category Nd, as the [re] module decides it. *)
Variable unicode_Nd : N -> bool.

(** The class [\d] of a [str] pattern. *)
Definition is_digit (c : N) : bool :=
  if (c <? 128)%N then (48 <=? c)%N && (c <=? 57)%N else unicode_Nd c.

(** [re.sub(r'\D', '', s)]. *)
Definition remove_non_digits (s : str) : str := List.filter is_digit s.

Definition normalize_phone_number (phone : str) : str :=
  if startswith [plus] phone then
    let country_code_part := [plus] in
    let phone := drop 1 phone in
    let phone := remove_non_digits phone in
    country_code_part ++ phone
  else
    let phone := remove_non_digits phone in
    let phone :=
      if negb (startswith [d9; d1] phone) || (Py.len phone =? 10)
      then [d9; d1] ++ phone
      else phone in
    [plus] ++ phone.

End Normalize.

End Twilio.

(** ** The transition engine *)

Module Lifecycle.

(** Modelled from the spec: the transition engine is not among the source
    files; this is the fixed ordering of the six states (section 4.2). *)
Definition lifecycle_order : list IssueStatus :=
  [REPORTED; ASSIGNED; REPRESENTATIVE_ACKNOWLEDGED; PWD_WORKING;
   PWD_COMPLETED; REPRESENTATIVE_REVIEWED].

(** Modelled from the spec: the stage number of a state in the ordering
    of section 4.2 (the engine itself is absent from the sources). *)
Definition stage (s : IssueStatus) : nat :=
  match s with
  | REPORTED => 1
  | ASSIGNED => 2
  | REPRESENTATIVE_ACKNOWLEDGED => 3
  | PWD_WORKING => 4
  | PWD_COMPLETED => 5
  | REPRESENTATIVE_REVIEWED => 6
  end%nat.

(** Modelled from the spec: the single "next legal states" lookup of the
    absent engine (section 9); strict forward order, no skipping, the
    last state is terminal. *)
Definition next_status (s : IssueStatus) : option IssueStatus :=
  match s with
  | REPORTED => Some ASSIGNED
  | ASSIGNED => Some REPRESENTATIVE_ACKNOWLEDGED
  | REPRESENTATIVE_ACKNOWLEDGED => Some PWD_WORKING
  | PWD_WORKING => Some PWD_COMPLETED
  | PWD_COMPLETED => Some REPRESENTATIVE_REVIEWED
  | REPRESENTATIVE_REVIEWED => None
  end.

(** Modelled from the spec: the source state of the transition that ends
    in a given state, for the absent engine's error report; [REPORTED] is
    entered by creation only. *)
Definition source_status (target : IssueStatus) : option IssueStatus :=
  match target with
  | REPORTED => None
  | ASSIGNED => Some REPORTED
  | REPRESENTATIVE_ACKNOWLEDGED => Some ASSIGNED
  | PWD_WORKING => Some REPRESENTATIVE_ACKNOWLEDGED
  | PWD_COMPLETED => Some PWD_WORKING
  | REPRESENTATIVE_REVIEWED => Some PWD_COMPLETED
  end.

(** Modelled from the spec: the caller named in parentheses in the
    transition table of section 4.2, whose engine is absent. *)
Inductive Caller := System | AssignedRepresentative | CrewWorker.

(** Modelled from the spec: the transition table of the absent engine,
    by source state: who may take the step out of it. *)
Definition required_caller (source : IssueStatus) : option Caller :=
  match source with
  | REPORTED => Some System
  | ASSIGNED => Some AssignedRepresentative
  | REPRESENTATIVE_ACKNOWLEDGED => Some CrewWorker
  | PWD_WORKING => Some CrewWorker
  | PWD_COMPLETED => Some AssignedRepresentative
  | REPRESENTATIVE_REVIEWED => None
  end.

(** Modelled from the spec: whether the acting user is the caller the
    absent engine's table asks for. The system step is taken at creation
    and by no user; a representative "must be the one assigned". *)
Definition caller_allowed (c : Caller) (acting_user : User.t)
    (issue : Issue.t) : bool :=
  match c with
  | System => false
  | AssignedRepresentative =>
      bool_decide (User.role acting_user = REPRESENTATIVE)
      && bool_decide (Issue.assigned_parshad_id issue
                      = Some (User.id acting_user))
  | CrewWorker => bool_decide (User.role acting_user = PWD_WORKER)
  end.

(** Modelled from the spec: the role check of the absent engine for the
    step out of the issue's stored status. *)
Definition may_take (acting_user : User.t) (issue : Issue.t) : bool :=
  match required_caller (Issue.status issue) with
  | Some c => caller_allowed c acting_user issue
  | None => false
  end.

(** Modelled from the spec: the payload of the absent [TransitionIssue]:
    a completion description and, optionally, a completion photo
    reference. *)
Record Payload := mkPayload {
  payload_description : string;
  payload_photo : option string;
}.

(** Modelled from the spec: the error kinds of section 7 that the absent
    engine reports; [InvalidTransition] carries the expected source state
    and the actual stored one. *)
Inductive CoreError :=
| NotFound
| ValidationError
| InvalidTransition (expected : option IssueStatus) (actual : IssueStatus).

(** Modelled from the spec: the absent engine's write of the changed
    row, under the key it was read from. *)
Definition store_issue (issue_id : Z) (issue : Issue.t) (d : DB) : DB :=
  mkDB (localities d) (users d) (<[issue_id := issue]> (issues d))
       (issue_photos d) (issues_id_seq d) (issue_photos_id_seq d).

(** Modelled from the spec: the status change of the absent engine; only
    the step into [PWD_COMPLETED] writes the completion fields, every
    step bumps [updated_at]. *)
Definition advance (now : Z) (acting_user : User.t) (target : IssueStatus)
    (payload : option Payload) (issue : Issue.t) : Issue.t :=
  let completing := bool_decide (target = PWD_COMPLETED) in
  Issue.mk
    (Issue.id issue)
    (Issue.issue_type issue)
    (Issue.description issue)
    (Issue.latitude issue)
    (Issue.longitude issue)
    (Issue.locality_id issue)
    target
    (Issue.user_id issue)
    (Issue.assigned_parshad_id issue)
    (Issue.assignment_notes issue)
    (Issue.progress_notes issue)
    (if completing then payload_description <$> payload
     else Issue.completion_description issue)
    (if completing then payload ≫= payload_photo
     else Issue.completion_photo_url issue)
    (if completing then Some now else Issue.completed_at issue)
    (if completing then Some (User.id acting_user)
     else Issue.completed_by_id issue)
    (Issue.created_at issue)
    now.

(** Modelled from the spec: [TransitionIssue(issue_id, acting_user,
    target_status, payload?)], which is not among the source files.
    The stored status must be the source of the requested step, the
    acting user must be the caller the table names, and the step into
    [PWD_COMPLETED] requires the completion description. A failure
    leaves the store as it was. *)
Definition TransitionIssue (now : Z) (issue_id : Z) (acting_user : User.t)
    (target_status : IssueStatus) (payload : option Payload) (d : DB)
  : DB * (CoreError + Issue.t) :=
  match issues d !! issue_id with
  | None => (d, inl NotFound)
  | Some issue =>
      let actual := Issue.status issue in
      if negb (bool_decide (next_status actual = Some target_status)) then
        (d, inl (InvalidTransition (source_status target_status) actual))
      else if negb (may_take acting_user issue) then
        (d, inl (InvalidTransition (source_status target_status) actual))
      else if bool_decide (target_status = PWD_COMPLETED)
              && bool_decide (payload = None :> option Payload) then
        (d, inl ValidationError)
      else
        let issue' := advance now acting_user target_status payload issue in
        (store_issue issue_id issue' d, inr issue')
  end.

End Lifecycle.

(** ** Vocabulary of the properties *)

(** A photo passes the two per-item checks of the configuration. *)
Definition photo_ok (settings : Settings) (photo : UploadFile) : Prop :=
  (∃ ct, uf_content_type photo = Some ct ∧ ct ∈ allowed_image_types settings)
  ∧ Py.len (uf_content photo) ≤ max_file_size settings.

(** A batch violates a pre-check: too many items, or an item with a content
    type outside the whitelist, or an item above the size limit. *)
Definition violates_prechecks (settings : Settings) (photos : list UploadFile)
  : Prop :=
  max_photos_per_issue settings < Py.len photos
  ∨ Exists (λ p, ¬ ∃ ct, uf_content_type p = Some ct
                          ∧ ct ∈ allowed_image_types settings) photos
  ∨ Exists (λ p, max_file_size settings < Py.len (uf_content p)) photos.

(** The directory holds an active user of role representative for the
    locality the report names. *)
Definition has_active_representative (d : DB) (locality_id : option Z) : Prop :=
  ∃ lid u, locality_id = Some lid
           ∧ u ∈ users d
           ∧ User.role u = REPRESENTATIVE
           ∧ User.locality_id u = Some lid
           ∧ User.is_active u = true.

(** The same world with another locality table. *)
Definition with_localities {Blob} (ls : gmap Z Locality.t) (w : World Blob)
  : World Blob :=
  mkWorld (mkDB ls (users (db w)) (issues (db w)) (issue_photos (db w))
                (issues_id_seq (db w)) (issue_photos_id_seq (db w)))
          (bucket w).

(** The four completion fields of an issue. *)
Definition completion_fields (issue : Issue.t)
  : option string * option string * option Z * option Z :=
  (Issue.completion_description issue, Issue.completion_photo_url issue,
   Issue.completed_at issue, Issue.completed_by_id issue).

Definition completion_all_null (issue : Issue.t) : Prop :=
  completion_fields issue = (None, None, None, None).


(** The answer of the blob store to the upload of a file as [create_issue]
    asks for it, from bucket [b]. *)
Definition upload_of {Blob} (storage_service : StorageService Blob)
    (photo : UploadFile) (b : Blob) : Blob * option string :=
  upload_file storage_service b (uf_content photo)
    (Py.str_or (uf_filename photo) "image.jpg")
    (Py.str_or (uf_content_type photo) "image/jpeg").

(** The photo record of a file that the blob store keeps as [object_name]. *)
Definition photo_record (issue_id : Z) (photo : UploadFile)
    (object_name : string) : PendingPhoto :=
  mkPendingPhoto issue_id object_name
    (Py.str_or (uf_filename photo) "image.jpg")
    (Py.len (uf_content photo))
    (Py.str_or (uf_content_type photo) "image/jpeg").

(** From bucket [b], every file of [photos] is uploaded and its photo record
    is taken by the session, in order; [pending] are these records and [b']
    is the bucket afterwards. *)
Inductive photos_attached {Blob} (storage_service : StorageService Blob)
    (session : Session) (issue_id : Z)
  : list UploadFile -> Blob -> list PendingPhoto -> Blob -> Prop :=
| attached_nil b :
    photos_attached storage_service session issue_id [] b [] b
| attached_cons photo rest b b1 object_name pending b' :
    upload_of storage_service photo b = (b1, Some object_name) ->
    session_add session (photo_record issue_id photo object_name) = true ->
    photos_attached storage_service session issue_id rest b1 pending b' ->
    photos_attached storage_service session issue_id (photo :: rest) b
      (photo_record issue_id photo object_name :: pending) b'.

(** The upload of a file raises, or the upload succeeds and its photo
    record cannot be created. *)
Definition photo_fails {Blob} (storage_service : StorageService Blob)
    (session : Session) (issue_id : Z) (photo : UploadFile) (b : Blob)
  : Prop :=
  (∃ b', upload_of storage_service photo b = (b', None))
  ∨ (∃ b' object_name,
       upload_of storage_service photo b = (b', Some object_name)
       ∧ session_add session (photo_record issue_id photo object_name)
         = false).

(** The attachment of the photos of a call fails: one of them fails after
    the files [done] before it were uploaded and recorded, or all of them
    are uploaded and recorded and the insert of their rows, at the final
    commit, raises. *)
Definition attachment_fails {Blob} (storage_service : StorageService Blob)
    (session : Session) (issue_id : Z) (b : Blob) (photos : list UploadFile)
  : Prop :=
  (∃ done photo rest pending b1,
     photos = done ++ photo :: rest
     ∧ photos_attached storage_service session issue_id done b pending b1
     ∧ photo_fails storage_service session issue_id photo b1)
  ∨ (∃ pending b1 skipped,
       photos_attached storage_service session issue_id photos b pending b1
       ∧ session_commit session pending = Aborted skipped).

(** ** A small deployment, for the concrete cases *)

Module Demo.

Definition cfg : Settings :=
  mkSettings 3 ["image/jpeg"; "image/png"; "image/webp"] 5242880.

(** A bucket that records object names and refuses one file name. *)
Definition store : StorageService (list string) :=
  mkStorage
    (λ b _ filename _,
       if String.eqb filename "broken.jpg" then (b, None)
       else (b ++ ["issues/" +:+ filename], Some ("issues/" +:+ filename)))
    (λ object_name, "https://files.example/" +:+ object_name).

(** A session in which every photo record is accepted, and one whose final
    commit is refused by the database after it numbered one row. *)
Definition session : Session := mkSession (λ _, true) (λ _, Committed).
Definition session_aborting : Session :=
  mkSession (λ _, true) (λ _, Aborted 1).

(** The same bucket at a later request: its URLs carry another signature. *)
Definition store_later : StorageService (list string) :=
  mkStorage (upload_file store)
    (λ object_name, "https://files.example/" +:+ object_name +:+ "?sig=2").

Definition ravi : User.t :=
  User.mk 7 "Ravi" "+919000000007" USER true true None 0 0.
Definition asha : User.t :=
  User.mk 42 "Asha" "+919000000042" REPRESENTATIVE true true (Some 5) 0 0.
Definition asha_deactivated : User.t :=
  User.mk 42 "Asha" "+919000000042" REPRESENTATIVE false true (Some 5) 0 0.
Definition mohan : User.t :=
  User.mk 9 "Mohan" "+919000000009" PWD_WORKER true true None 0 0.

(** Ward 5 is switched off; it still has its representative. *)
Definition ward5 : Locality.t := Locality.mk 5 "Ward 5" WARD false 0 0.

Definition db0 : DB := mkDB {[ 5 := ward5 ]} [ravi; asha; mohan] ∅ [] 1 1.
Definition db0' : DB :=
  mkDB {[ 5 := ward5 ]} [ravi; asha_deactivated; mohan] ∅ [] 1 1.

Definition w0 : World (list string) := mkWorld db0 [].
Definition w0' : World (list string) := mkWorld db0' [].

Definition jpeg (filename : string) : UploadFile :=
  mkUploadFile (Some filename) (Some "image/jpeg") [x00; x01; x02].
Definition pdf : UploadFile :=
  mkUploadFile (Some "form.pdf") (Some "application/pdf") [x00].

Definition report (locality_id : option Z) (photos : list UploadFile)
    (w : World (list string)) :=
  create_issue cfg store session ROAD "Pothole near the school gate"
    0%float 0%float locality_id photos ravi 100 w.

(** The world after Ravi's report for ward 5 with one photo. *)
Definition w1 : World (list string) := (report (Some 5) [jpeg "a.jpg"] w0).1.

(** Two more reports by Ravi, without photos, at later times. *)
Definition w1_three_reports : World (list string) :=
  (create_issue cfg store session ROAD "Street light broken near the park"
     0%float 0%float (Some 5) [] ravi 300
     (create_issue cfg store session WATER "No water since Monday morning"
        0%float 0%float None [] ravi 200 w1).1).1.

(** A report whose second upload is refused by the bucket. *)
Definition failed_report :=
  report (Some 5) [jpeg "a.jpg"; jpeg "broken.jpg"] w0.

(** A report with a document among the photos. *)
Definition rejected_report := report (Some 5) [jpeg "a.jpg"; pdf] w0.

End Demo.

(** ** A map, for the concrete case *)

Module MapDemo.



Definition issue_at (id : Z) (latitude longitude : float) : Issue.t :=
  Issue.mk id ROAD "Pothole near the school gate" latitude longitude None
    REPORTED (Some 7) None None None None None None None 100 100.

(** An issue some 157 m from (0, 0) and one some 157 km from it. *)
Definition near : Issue.t :=
  issue_at 1 0x1.0624dd2f1a9fcp-10 0x1.0624dd2f1a9fcp-10.
Definition far : Issue.t := issue_at 2 1 1.

Definition db0 : DB := mkDB ∅ [] {[ 1 := near; 2 := far ]} [] 3 1.

End MapDemo.

(** ** app/routes/reports.py, the list routes *)

(** All rows of the issue table, in retrieval order. *)
Definition issue_rows (d : DB) : list Issue.t := map snd (map_to_list (issues d)).

(** All rows of the locality table, in retrieval order. *)
Definition locality_rows (d : DB) : list Locality.t :=
  map snd (map_to_list (localities d)).

Module IssueListResponse.
Record t := mk {
  items : list IssueResponse.t;
  total : Z;
  page : Z;
  page_size : Z;
  total_pages : Z;
}.
End IssueListResponse.

Module LocalityListPublicResponse.
Record t := mk {
  items : list LocalityPublicResponse.t;
  total : Z;
}.
End LocalityListPublicResponse.

(** One answer to [ORDER BY created_at DESC]: insertion into a list kept
    newest first, where rows with the same [created_at] stay in retrieval
    order. The database may order such rows otherwise, and differently
    from one query to the next. *)
Fixpoint insert_newest_first (issue : Issue.t) (sorted : list Issue.t)
  : list Issue.t :=
  match sorted with
  | [] => [issue]
  | x :: rest =>
      if Issue.created_at x <? Issue.created_at issue
      then issue :: x :: rest
      else x :: insert_newest_first issue rest
  end.

Definition order_by_created_at_desc (rows : list Issue.t) : list Issue.t :=
  foldr insert_newest_first [] rows.

(** The [where] clauses of [get_issues]: the reporter, and the two optional
    equality filters. *)
Definition owned_and_matching (user_id : Z) (issue_type : option IssueType)
    (status_filter : option IssueStatus) (issue : Issue.t) : bool :=
  bool_decide (Issue.user_id issue = Some user_id)
  && matches_filters issue_type status_filter issue.

Section ListRoutes.

Context {Blob : Type}.
Variable storage_service : StorageService Blob.

(** [math.ceil(total / page_size)] on two [int]s: a float division and its
    ceiling, as the platform computes them. *)
Variable math_ceil_div : Z -> Z -> Z.

(** The rows of the query of this request as [ORDER BY created_at DESC]
    returns them, before [OFFSET] and [LIMIT]. *)
Variable order_by : list Issue.t -> list Issue.t.

Definition get_issues (page page_size : Z) (issue_type : option IssueType)
    (status_filter : option IssueStatus) (current_user : User.t) (d : DB)
  : HTTPException + IssueListResponse.t :=
  (* page: Query(1, ge=1); page_size: Query(10, ge=1, le=100) *)
  if (page <? 1) || (page_size <? 1) || (100 <? page_size) then
    inl (mkHTTPException HTTP_422_UNPROCESSABLE_ENTITY RequestValidationError)
  else
    let matching :=
      List.filter
        (owned_and_matching (User.id current_user) issue_type status_filter)
        (issue_rows d) in
    let total := Py.len matching in
    let offset := (page - 1) * page_size in
    let issues :=
      take (Z.to_nat page_size) (drop (Z.to_nat offset) (order_by matching)) in
    let issue_responses :=
      map (λ issue, build_issue_response storage_service issue d) issues in
    let total_pages :=
      if total >? 0 then math_ceil_div total page_size else 1 in
    inr (IssueListResponse.mk issue_responses total page page_size
           total_pages).

End ListRoutes.

Section PublicLocalities.

(** [Locality.name.contains(search)] and [ORDER BY name], as the database
    evaluates them (pattern matching and collation are its own). *)
Variable name_contains : string -> string -> bool.
Variable order_by_name : list Locality.t -> list Locality.t.

Definition public_locality (d : DB) (loc : Locality.t)
  : LocalityPublicResponse.t :=
  let reps := select_representatives (Locality.id loc) d in
  LocalityPublicResponse.mk
    (Locality.id loc)
    (Locality.name loc)
    (Locality.type loc)
    (map (λ r, mkRepresentativeInfo (User.id r) (User.name r)) reps).

Definition listed_locality (locality_type : option LocalityType)
    (search : option string) (loc : Locality.t) : bool :=
  Locality.is_active loc
  && match locality_type with
     | Some t => bool_decide (Locality.type loc = t)
     | None => true
     end
  && match search with
     | Some s => if Py.truthy_str s then name_contains (Locality.name loc) s
                 else true
     | None => true
     end.

Definition get_all_localities (locality_type : option LocalityType)
    (search : option string) (d : DB) : LocalityListPublicResponse.t :=
  let localities' :=
    order_by_name
      (List.filter (listed_locality locality_type search) (locality_rows d)) in
  let items := map (public_locality d) localities' in
  LocalityListPublicResponse.mk items (Py.len items).

End PublicLocalities.

(** ** Text of a mobile number *)

Module PyText.

(** A [string] holds characters with code points below 256; none of them
    beyond ASCII is a decimal digit. *)
Definition codepoints (s : string) : Twilio.str :=
  map Ascii.N_of_ascii (String.list_ascii_of_string s).

Definition text (cs : Twilio.str) : string :=
  String.string_of_list_ascii (map Ascii.ascii_of_N cs).

(** [normalize_phone_number] on such a text. *)
Definition normalize_phone_number (phone : string) : string :=
  text (Twilio.normalize_phone_number (λ _, false) (codepoints phone)).

End PyText.

(** ** app/routes/admin.py *)

Module Admin.

(** [HTTPException] with the text of its detail. *)
Record ApiError := mkApiError {
  api_status : Z;
  api_detail : string;
}.

Definition HTTP_403_FORBIDDEN : Z := 403.

Module CreateLocalityRequest.
Record t := mk {
  name : string;
  type : LocalityType;
}.
End CreateLocalityRequest.

Module UpdateLocalityRequest.
Record t := mk {
  name : option string;
  is_active : option bool;
}.
End UpdateLocalityRequest.

Module LocalityResponse.
Record t := mk {
  id : Z;
  name : string;
  type : LocalityType;
  is_active : bool;
  created_at : Z;
  updated_at : Z;
  representative_count : Z;
  issue_count : Z;
}.
End LocalityResponse.

Module CreateUserRequest.
Record t := mk {
  name : string;
  mobile_number : string;
  role : UserRole;
  locality_id : option Z;
}.
End CreateUserRequest.

Module UpdateUserRequest.
Record t := mk {
  name : option string;
  role : option UserRole;
  is_active : option bool;
  locality_id : option Z;
}.
End UpdateUserRequest.

Module AdminUserResponse.
Record t := mk {
  id : Z;
  name : string;
  mobile_number : string;
  role : UserRole;
  is_active : bool;
  is_verified : bool;
  locality_id : option Z;
  locality_name : option string;
  locality_type : option LocalityType;
  created_at : Z;
  updated_at : Z;
  total_reports : Z;
  assigned_issues : Z;
}.
End AdminUserResponse.

Definition UserRole_value (r : UserRole) : string :=
  match r with
  | USER => "user"
  | REPRESENTATIVE => "representative"
  | PWD_WORKER => "pwd_worker"
  | ADMIN => "admin"
  end.

(** The same database with another locality table, or another user table. *)
Definition set_localities (ls : gmap Z Locality.t) (d : DB) : DB :=
  mkDB ls (users d) (issues d) (issue_photos d) (issues_id_seq d)
       (issue_photos_id_seq d).

Definition set_users (us : list User.t) (d : DB) : DB :=
  mkDB (localities d) us (issues d) (issue_photos d) (issues_id_seq d)
       (issue_photos_id_seq d).

(** [session.get(User, user_id)]. *)
Definition get_user_row (user_id : Z) (d : DB) : option User.t :=
  List.find (λ u, bool_decide (User.id u = user_id)) (users d).

(** The commit of a changed user object: the row with its primary key is
    replaced. *)
Definition replace_user (u' : User.t) (us : list User.t) : list User.t :=
  map (λ u, if bool_decide (User.id u = User.id u') then u' else u) us.

(** [select(func.count(User.id)).where(User.locality_id == ...,
    User.role == REPRESENTATIVE)]. *)
Definition representative_count (locality_id : Z) (d : DB) : Z :=
  Py.len (List.filter
            (λ u, bool_decide (User.locality_id u = Some locality_id)
                  && bool_decide (User.role u = REPRESENTATIVE))
            (users d)).

(** [select(func.count(Issue.id)).where(Issue.locality_id == ...)]. *)
Definition issue_count (locality_id : Z) (d : DB) : Z :=
  Py.len (List.filter
            (λ i, bool_decide (Issue.locality_id i = Some locality_id))
            (issue_rows d)).

(** [select(func.count(User.id)).where(User.locality_id == ...)]. *)
Definition user_count (locality_id : Z) (d : DB) : Z :=
  Py.len (List.filter
            (λ u, bool_decide (User.locality_id u = Some locality_id))
            (users d)).

Definition locality_response (locality : Locality.t) (rep_count issues_n : Z)
  : LocalityResponse.t :=
  LocalityResponse.mk
    (Locality.id locality)
    (Locality.name locality)
    (Locality.type locality)
    (Locality.is_active locality)
    (Locality.created_at locality)
    (Locality.updated_at locality)
    rep_count
    issues_n.

Definition get_admin_user (current_user : User.t) : ApiError + User.t :=
  if negb (bool_decide (User.role current_user = ADMIN)) then
    inl (mkApiError HTTP_403_FORBIDDEN "Administrator privileges required")
  else inr current_user.

(** *** Locality management. [new_id] is the primary key the database gives
    the inserted row, [now] its clock. *)

Definition create_locality (locality_data : CreateLocalityRequest.t)
    (admin_user : User.t) (new_id now : Z) (d : DB)
  : DB * (ApiError + LocalityResponse.t) :=
  let existing :=
    first (List.filter
             (λ l, bool_decide
                     (Locality.name l = CreateLocalityRequest.name locality_data)
                   && bool_decide
                        (Locality.type l
                         = CreateLocalityRequest.type locality_data))
             (locality_rows d)) in
  match existing with
  | Some _ =>
      (d, inl (mkApiError HTTP_400_BAD_REQUEST
                 ("A " +:+ LocalityType_value
                             (CreateLocalityRequest.type locality_data)
                  +:+ " with this name already exists")))
  | None =>
      let new_locality :=
        Locality.mk new_id (CreateLocalityRequest.name locality_data)
          (CreateLocalityRequest.type locality_data) true now now in
      (set_localities (<[new_id := new_locality]> (localities d)) d,
       inr (locality_response new_locality 0 0))
  end.

Definition get_locality (locality_id : Z) (admin_user : User.t) (d : DB)
  : ApiError + LocalityResponse.t :=
  match localities d !! locality_id with
  | None => inl (mkApiError HTTP_404_NOT_FOUND "Locality not found")
  | Some locality =>
      inr (locality_response locality
             (representative_count (Locality.id locality) d)
             (issue_count (Locality.id locality) d))
  end.

(** The row an [UPDATE] leaves: [updated_at] moves only when a column
    changed, since an unchanged object is not written. *)
Definition touch_locality (now : Z) (old new : Locality.t) : Locality.t :=
  if bool_decide (Locality.name new = Locality.name old)
     && bool_decide (Locality.is_active new = Locality.is_active old)
  then old
  else Locality.mk (Locality.id new) (Locality.name new) (Locality.type new)
         (Locality.is_active new) (Locality.created_at new) now.

Definition update_locality (locality_id : Z)
    (update_data : UpdateLocalityRequest.t) (admin_user : User.t) (now : Z)
    (d : DB) : DB * (ApiError + LocalityResponse.t) :=
  match localities d !! locality_id with
  | None => (d, inl (mkApiError HTTP_404_NOT_FOUND "Locality not found"))
  | Some locality =>
      let existing :=
        match UpdateLocalityRequest.name update_data with
        | Some name' =>
            first (List.filter
                     (λ l, bool_decide (Locality.name l = name')
                           && bool_decide (Locality.type l
                                           = Locality.type locality)
                           && negb (bool_decide (Locality.id l = locality_id)))
                     (locality_rows d))
        | None => None
        end in
      match existing with
      | Some _ =>
          (d, inl (mkApiError HTTP_400_BAD_REQUEST
                     ("A " +:+ LocalityType_value (Locality.type locality)
                      +:+ " with this name already exists")))
      | None =>
          let name' :=
            default (Locality.name locality)
              (UpdateLocalityRequest.name update_data) in
          let is_active' :=
            default (Locality.is_active locality)
              (UpdateLocalityRequest.is_active update_data) in
          let locality' :=
            touch_locality now locality
              (Locality.mk (Locality.id locality) name'
                 (Locality.type locality) is_active'
                 (Locality.created_at locality)
                 (Locality.updated_at locality)) in
          let d' :=
            set_localities (<[locality_id := locality']> (localities d)) d in
          (d', inr (locality_response locality'
                      (representative_count (Locality.id locality') d')
                      (issue_count (Locality.id locality') d')))
      end
  end.

Definition delete_locality (locality_id : Z) (admin_user : User.t) (d : DB)
  : DB * (ApiError + unit) :=
  match localities d !! locality_id with
  | None => (d, inl (mkApiError HTTP_404_NOT_FOUND "Locality not found"))
  | Some locality =>
      let issues_n := issue_count locality_id d in
      if issues_n >? 0 then
        (d, inl (mkApiError HTTP_400_BAD_REQUEST
                   ("Cannot delete locality with " +:+ Py.str_int issues_n
                    +:+ " issues. Deactivate it instead.")))
      else
        let users_n := user_count locality_id d in
        if users_n >? 0 then
          (d, inl (mkApiError HTTP_400_BAD_REQUEST
                     ("Cannot delete locality with " +:+ Py.str_int users_n
                      +:+ " assigned users. Reassign them first.")))
        else
          (set_localities (delete locality_id (localities d)) d, inr tt)
  end.

(** *** User management *)

Definition _build_user_response (user : User.t) (d : DB)
  : AdminUserResponse.t :=
  let '(locality_name, locality_type) :=
    match User.locality_id user with
    | Some lid =>
        if lid =? 0 then (None, None)
        else match localities d !! lid with
             | Some locality =>
                 (Some (Locality.name locality), Some (Locality.type locality))
             | None => (None, None)
             end
    | None => (None, None)
    end in
  let report_count :=
    Py.len (List.filter
              (λ i, bool_decide (Issue.user_id i = Some (User.id user)))
              (issue_rows d)) in
  let assigned_count :=
    if bool_decide (User.role user = REPRESENTATIVE) then
      Py.len (List.filter
                (λ i, bool_decide
                        (Issue.assigned_parshad_id i = Some (User.id user)))
                (issue_rows d))
    else 0 in
  AdminUserResponse.mk
    (User.id user)
    (User.name user)
    (User.mobile_number user)
    (User.role user)
    (User.is_active user)
    (User.is_verified user)
    (User.locality_id user)
    locality_name
    locality_type
    (User.created_at user)
    (User.updated_at user)
    report_count
    assigned_count.

(** The row an [UPDATE] of a user leaves (see [touch_locality]). *)
Definition touch_user (now : Z) (old new : User.t) : User.t :=
  if bool_decide (User.name new = User.name old)
     && bool_decide (User.role new = User.role old)
     && bool_decide (User.is_active new = User.is_active old)
     && bool_decide (User.is_verified new = User.is_verified old)
     && bool_decide (User.locality_id new = User.locality_id old)
  then old
  else User.mk (User.id new) (User.name new) (User.mobile_number new)
         (User.role new) (User.is_active new) (User.is_verified new)
         (User.locality_id new) (User.created_at new) now.

Definition create_user (user_data : CreateUserRequest.t) (admin_user : User.t)
    (new_id now : Z) (d : DB) : DB * (ApiError + AdminUserResponse.t) :=
  let role := CreateUserRequest.role user_data in
  let locality_id := CreateUserRequest.locality_id user_data in
  if bool_decide (role = USER) then
    (d, inl (mkApiError HTTP_400_BAD_REQUEST
               "Regular users register themselves. Use this API for representatives, PWD workers, or admins."))
  else if bool_decide (role = REPRESENTATIVE)
          && bool_decide (locality_id = None) then
    (d, inl (mkApiError HTTP_400_BAD_REQUEST
               "Representatives must be assigned to a locality"))
  else
    let locality_error :=
      match locality_id with
      | Some lid =>
          match localities d !! lid with
          | None => Some (mkApiError HTTP_404_NOT_FOUND "Locality not found")
          | Some locality =>
              if negb (Locality.is_active locality) then
                Some (mkApiError HTTP_400_BAD_REQUEST
                        "Cannot assign user to inactive locality")
              else None
          end
      | None => None
      end in
    match locality_error with
    | Some e => (d, inl e)
    | None =>
        let normalized_number :=
          PyText.normalize_phone_number
            (CreateUserRequest.mobile_number user_data) in
        let existing_user :=
          first (List.filter
                   (λ u, bool_decide (User.mobile_number u = normalized_number))
                   (users d)) in
        match existing_user with
        | Some existing_user =>
            if bool_decide (User.role existing_user = role) then
              (d, inl (mkApiError HTTP_400_BAD_REQUEST
                         ("A " +:+ UserRole_value role
                          +:+ " with this mobile number already exists")))
            else
              let upgraded :=
                touch_user now existing_user
                  (User.mk (User.id existing_user) (User.name existing_user)
                     (User.mobile_number existing_user) role
                     (User.is_active existing_user) true
                     (default (User.locality_id existing_user)
                        (Some <$> locality_id))
                     (User.created_at existing_user)
                     (User.updated_at existing_user)) in
              let d' := set_users (replace_user upgraded (users d)) d in
              (d', inr (_build_user_response upgraded d'))
        | None =>
            let new_user :=
              User.mk new_id (CreateUserRequest.name user_data)
                normalized_number role true true locality_id now now in
            let d' := set_users (users d ++ [new_user]) d in
            (d', inr (_build_user_response new_user d'))
        end
    end.

Definition get_user (user_id : Z) (admin_user : User.t) (d : DB)
  : ApiError + AdminUserResponse.t :=
  match get_user_row user_id d with
  | None => inl (mkApiError HTTP_404_NOT_FOUND "User not found")
  | Some user => inr (_build_user_response user d)
  end.

Definition update_user (user_id : Z) (update_data : UpdateUserRequest.t)
    (admin_user : User.t) (now : Z) (d : DB)
  : DB * (ApiError + AdminUserResponse.t) :=
  match get_user_row user_id d with
  | None => (d, inl (mkApiError HTTP_404_NOT_FOUND "User not found"))
  | Some user =>
      if bool_decide (User.id user = User.id admin_user)
         && match UpdateUserRequest.role update_data with
            | Some r => negb (bool_decide (r = ADMIN))
            | None => false
            end
      then
        (d, inl (mkApiError HTTP_400_BAD_REQUEST "Cannot change your own role"))
      else
        let locality_missing :=
          match UpdateUserRequest.locality_id update_data with
          | Some lid => bool_decide (localities d !! lid = None)
          | None => false
          end in
        if locality_missing then
          (d, inl (mkApiError HTTP_404_NOT_FOUND "Locality not found"))
        else
          let user' :=
            touch_user now user
              (User.mk (User.id user)
                 (default (User.name user) (UpdateUserRequest.name update_data))
                 (User.mobile_number user)
                 (default (User.role user) (UpdateUserRequest.role update_data))
                 (default (User.is_active user)
                    (UpdateUserRequest.is_active update_data))
                 (User.is_verified user)
                 (default (User.locality_id user)
                    (Some <$> UpdateUserRequest.locality_id update_data))
                 (User.created_at user)
                 (User.updated_at user)) in
          let d' := set_users (replace_user user' (users d)) d in
          (d', inr (_build_user_response user' d'))
  end.

Definition deactivate_user (user_id : Z) (admin_user : User.t) (now : Z)
    (d : DB) : DB * (ApiError + unit) :=
  match get_user_row user_id d with
  | None => (d, inl (mkApiError HTTP_404_NOT_FOUND "User not found"))
  | Some user =>
      if bool_decide (User.id user = User.id admin_user) then
        (d, inl (mkApiError HTTP_400_BAD_REQUEST "Cannot deactivate yourself"))
      else
        let user' :=
          touch_user now user
            (User.mk (User.id user) (User.name user) (User.mobile_number user)
               (User.role user) false (User.is_verified user)
               (User.locality_id user) (User.created_at user)
               (User.updated_at user)) in
        (set_users (replace_user user' (users d)) d, inr tt)
  end.

End Admin.

(** ** Vocabulary of the further properties *)

(** The photo row that [create_issue] stores for an uploaded file. *)
Definition photo_row_of (issue_id : Z) (photo : UploadFile)
    (row : IssuePhoto.t) : Prop :=
  IssuePhoto.issue_id row = issue_id
  ∧ IssuePhoto.filename row = Py.str_or (uf_filename photo) "image.jpg"
  ∧ IssuePhoto.content_type row
    = Py.str_or (uf_content_type photo) "image/jpeg"
  ∧ IssuePhoto.file_size row = Py.len (uf_content photo).

(** Issue rows sit under their own id, below the issue sequence; photo rows
    have distinct ids below the photo sequence and belong to a stored
    issue. *)
Definition store_ok (d : DB) : Prop :=
  (∀ id issue,
     issues d !! id = Some issue →
     Issue.id issue = id ∧ id < issues_id_seq d)
  ∧ Forall (λ p, IssuePhoto.id p < issue_photos_id_seq d
                 ∧ is_Some (issues d !! IssuePhoto.issue_id p))
      (issue_photos d)
  ∧ NoDup (IssuePhoto.id <$> issue_photos d).

(** A list of issues is newest first. *)
Fixpoint newest_first (l : list Issue.t) : Prop :=
  match l with
  | [] => True
  | x :: rest =>
      Forall (λ y, Issue.created_at y ≤ Issue.created_at x) rest
      ∧ newest_first rest
  end.

(** An answer to [ORDER BY created_at DESC]: the same rows, newest first. *)
Definition orders_newest_first (order_by : list Issue.t → list Issue.t)
  : Prop :=
  ∀ rows, order_by rows ≡ₚ rows ∧ newest_first (order_by rows).

(** Locality rows sit under their own id, and no two of them share a name
    within a type. *)
Definition locality_table_ok (d : DB) : Prop :=
  (∀ id l, localities d !! id = Some l → Locality.id l = id)
  ∧ (∀ id1 id2 l1 l2,
       localities d !! id1 = Some l1 →
       localities d !! id2 = Some l2 →
       Locality.name l1 = Locality.name l2 →
       Locality.type l1 = Locality.type l2 →
       id1 = id2).

(** Every locality a user or an issue names is in the locality table. *)
Definition refs_ok (d : DB) : Prop :=
  (∀ u lid,
     u ∈ users d → User.locality_id u = Some lid →
     is_Some (localities d !! lid))
  ∧ (∀ id issue lid,
       issues d !! id = Some issue → Issue.locality_id issue = Some lid →
       is_Some (localities d !! lid)).

(** User rows have distinct ids and distinct mobile numbers. *)
Definition users_ok (d : DB) : Prop :=
  NoDup (User.id <$> users d) ∧ NoDup (User.mobile_number <$> users d).

(** A photo of a response, without its URL: the URL is signed for the
    request that asks for it, the other fields are those of the row. *)
Definition photo_entry (p : IssuePhotoResponse.t)
  : Z * string * Z * string * Z :=
  (IssuePhotoResponse.id p, IssuePhotoResponse.filename p,
   IssuePhotoResponse.file_size p, IssuePhotoResponse.content_type p,
   IssuePhotoResponse.created_at p).

(** The pending photo object that the upload loop adds for a file. *)
Definition pending_of (issue_id : Z) (photo : UploadFile) (p : PendingPhoto)
  : Prop :=
  pp_issue_id p = issue_id
  ∧ pp_filename p = Py.str_or (uf_filename photo) "image.jpg"
  ∧ pp_content_type p = Py.str_or (uf_content_type photo) "image/jpeg"
  ∧ pp_file_size p = Py.len (uf_content photo).

(** The committed row of a pending photo object. *)
Definition row_of_pending (now : Z) (p : PendingPhoto) (row : IssuePhoto.t)
  : Prop :=
  IssuePhoto.issue_id row = pp_issue_id p
  ∧ IssuePhoto.photo_url row = pp_photo_url p
  ∧ IssuePhoto.filename row = pp_filename p
  ∧ IssuePhoto.file_size row = pp_file_size p
  ∧ IssuePhoto.content_type row = pp_content_type p
  ∧ IssuePhoto.created_at row = now.

(** ** A small administration, for the concrete cases *)

Module AdminDemo.

Definition meera : User.t :=
  User.mk 1 "Meera" "+919000000001" ADMIN true true None 0 0.

Definition rajpur : Locality.t := Locality.mk 6 "Rajpur" VILLAGE true 0 0.

Definition db0 : DB := mkDB {[ 6 := rajpur ]} [meera; Demo.ravi] ∅ [] 1 1.

(** Kiran becomes the representative of Rajpur, as user 2. *)
Definition new_rep : Admin.CreateUserRequest.t :=
  Admin.CreateUserRequest.mk "Kiran" "98765 43210" REPRESENTATIVE (Some 6).

Definition kiran : User.t :=
  User.mk 2 "Kiran" "+919876543210" REPRESENTATIVE true true (Some 6) 50 50.

Definition db1 : DB := (Admin.create_user new_rep meera 2 50 db0).1.
Definition w1 : World (list string) := mkWorld db1 [].

(** The same request again, with the number written differently. *)
Definition new_rep_again : Admin.CreateUserRequest.t :=
  Admin.CreateUserRequest.mk "Kiran K" "+91 9876543210" REPRESENTATIVE (Some 6).

(** Kiran is deactivated. *)
Definition db2 : DB := (Admin.deactivate_user 2 meera 60 db1).1.
Definition w2 : World (list string) := mkWorld db2 [].

Definition ward9 : Admin.CreateLocalityRequest.t :=
  Admin.CreateLocalityRequest.mk "Ward 9" WARD.

Definition close_rajpur : Admin.UpdateLocalityRequest.t :=
  Admin.UpdateLocalityRequest.mk None (Some false).


(** Page arithmetic on integers, for [math.ceil(total / page_size)]. *)
Definition ceil_div (a b : Z) : Z := (a + b - 1) / b.

End AdminDemo.

(** ** Properties of the report routes *)

Lemma str_in_spec (x : option string) (xs : list string) :
  Py.str_in x xs = true ↔ ∃ s, x = Some s ∧ s ∈ xs.
Proof.
  destruct x as [s|]; simpl.
  - rewrite existsb_exists. split.
    + intros (y & Hin & Heq). apply String.eqb_eq in Heq. subst y.
      exists s. split; [reflexivity | by apply list_elem_of_In].
    + intros (y & Hy & Hin). injection Hy as <-.
      exists s. split; [by apply list_elem_of_In | apply String.eqb_refl].
  - split; [discriminate | intros (s & Hs & _); discriminate].
Qed.

Lemma select_representatives_spec (lid : Z) (d : DB) (u : User.t) :
  u ∈ select_representatives lid d
  ↔ u ∈ users d ∧ User.role u = REPRESENTATIVE
    ∧ User.locality_id u = Some lid ∧ User.is_active u = true.
Proof.
  unfold select_representatives, is_active_representative_of.
  rewrite !list_elem_of_In, filter_In, !andb_true_iff, !bool_decide_eq_true.
  tauto.
Qed.

Section ReportProperties.

Context {Blob : Type}.
Variable settings : Settings.
Variable storage_service : StorageService Blob.
Variable session : Session.

Lemma validate_photos_None (photos : list UploadFile) :
  validate_photos settings photos = None → Forall (photo_ok settings) photos.
Proof.
  induction photos as [|p rest IH]; simpl; [constructor|].
  destruct (Py.str_in _ _) eqn:Hin; simpl; [|discriminate].
  destruct (_ >? _) eqn:Hsz; [discriminate|].
  intros H. constructor; [|auto].
  split; [by apply str_in_spec | lia].
Qed.

Lemma validate_photos_Some (photos : list UploadFile) (e : HTTPException) :
  validate_photos settings photos = Some e →
  status_code e = HTTP_400_BAD_REQUEST ∧ ¬ Forall (photo_ok settings) photos.
Proof.
  induction photos as [|p rest IH]; simpl; [discriminate|].
  destruct (Py.str_in _ _) eqn:Hin; simpl.
  - destruct (_ >? _) eqn:Hsz.
    + intros [= <-]. split; [reflexivity|].
      intros Hall. inversion Hall as [|? ? [_ Hle] _]; subst. lia.
    + intros He. destruct (IH He) as [Hc Hn]. split; [exact Hc|].
      intros Hall. inversion Hall; subst. auto.
  - intros [= <-]. split; [reflexivity|].
    intros Hall. inversion Hall as [|? ? [Hct _] _]; subst.
    apply str_in_spec in Hct. congruence.
Qed.

Lemma violates_prechecks_not_ok (photos : list UploadFile) :
  violates_prechecks settings photos →
  max_photos_per_issue settings < Py.len photos
  ∨ ¬ Forall (photo_ok settings) photos.
Proof.
  intros [Hn | [Hex | Hex]]; [by left | right | right];
    intros Hall; apply Exists_exists in Hex as (p & Hp & Hbad);
    rewrite Forall_forall in Hall; destruct (Hall p Hp) as [Hct Hsz];
    [auto | lia].
Qed.

Lemma ok_not_violates_prechecks (photos : list UploadFile) :
  Py.len photos ≤ max_photos_per_issue settings →
  Forall (photo_ok settings) photos →
  ¬ violates_prechecks settings photos.
Proof.
  intros Hn Hall Hv. apply violates_prechecks_not_ok in Hv as [?|?]; [lia | auto].
Qed.

(** What the pre-checks of [create_issue] decide. *)
Lemma prechecks_pass (photos : list UploadFile) :
  ¬ violates_prechecks settings photos →
  (Py.len photos >? max_photos_per_issue settings) = false
  ∧ validate_photos settings photos = None.
Proof.
  intros Hv. split.
  - destruct (_ >? _) eqn:Hn; [|reflexivity].
    exfalso. apply Hv. left. lia.
  - destruct (validate_photos settings photos) as [e|] eqn:He; [|reflexivity].
    exfalso. apply Hv. clear Hv. right.
    revert e He. induction photos as [|p rest IH]; simpl; [discriminate|].
    destruct (Py.str_in _ _) eqn:Hin; simpl.
    + destruct (_ >? _) eqn:Hsz.
      * intros _ _. right. apply Exists_cons_hd. lia.
      * intros e He. destruct (IH e He) as [Hex|Hex];
          [left | right]; by apply Exists_cons_tl.
    + intros _ _. left. apply Exists_cons_hd.
      intros Hct. apply str_in_spec in Hct. congruence.
Qed.

Lemma commit_photos_tables (now : Z) (pending : list PendingPhoto) (d : DB) :
  localities (commit_photos now pending d) = localities d
  ∧ users (commit_photos now pending d) = users d
  ∧ issues (commit_photos now pending d) = issues d
  ∧ issues_id_seq (commit_photos now pending d) = issues_id_seq d.
Proof.
  unfold commit_photos. destruct (insert_photos _ _ _). simpl. auto.
Qed.

(** The representative lookup, against the directory. *)
Lemma auto_assign_representative (d : DB) (locality_id : option Z) :
  has_active_representative d locality_id →
  ∃ u msg, auto_assign locality_id d = (Some (User.id u), Some msg, ASSIGNED).
Proof.
  intros (lid & u & -> & Hu). apply select_representatives_spec in Hu.
  unfold auto_assign.
  destruct (select_representatives lid d) as [|v l]; simpl.
  - by apply elem_of_nil in Hu.
  - eauto.
Qed.

Lemma auto_assign_unassigned (d : DB) (locality_id : option Z) :
  ¬ has_active_representative d locality_id →
  ∃ msg, auto_assign locality_id d = (None, msg, REPORTED).
Proof.
  intros Hno. unfold auto_assign. destruct locality_id as [lid|]; [|eauto].
  destruct (select_representatives lid d) as [|v l] eqn:Hsel; simpl; [eauto|].
  exfalso. apply Hno. exists lid, v. split; [reflexivity|].
  apply select_representatives_spec. rewrite Hsel. apply list_elem_of_here.
Qed.

(** The upload loop against the collaborators' answers: the files that
    are attached are passed over, with their records added to the session. *)
Lemma upload_photos_app issue_id done b pending b1 :
  photos_attached storage_service session issue_id done b pending b1 →
  ∀ rest acc,
    upload_photos storage_service session issue_id (done ++ rest) b acc
    = upload_photos storage_service session issue_id rest b1 (acc ++ pending).
Proof.
  induction 1 as [b | photo done b b1 object_name pending b' Hup Hadd _ IH];
    intros rest acc; simpl.
  - by rewrite app_nil_r.
  - unfold upload_of in Hup. rewrite Hup.
    unfold photo_record in Hadd. rewrite Hadd.
    rewrite IH, <- app_assoc. reflexivity.
Qed.

Lemma upload_photos_Some issue_id photos b acc b' pending :
  upload_photos storage_service session issue_id photos b acc
  = (b', Some pending)
  ↔ ∃ new, pending = acc ++ new
           ∧ photos_attached storage_service session issue_id photos b new b'.
Proof.
  split.
  - revert b acc. induction photos as [|photo rest IH]; simpl; intros b acc.
    + intros [= <- <-]. exists []. split; [by rewrite app_nil_r | constructor].
    + destruct (upload_file _ _ _ _ _) as [b1 [object_name|]] eqn:Hup;
        [|discriminate].
      destruct (session_add _ _) eqn:Hadd; [|discriminate].
      intros Hrest. apply IH in Hrest as (new & -> & Hnew).
      eexists. split; [by rewrite <- app_assoc|].
      by apply (attached_cons _ _ _ photo rest b b1 object_name).
  - intros (new & -> & Hnew).
    rewrite <- (app_nil_r photos), (upload_photos_app _ _ _ _ _ Hnew).
    reflexivity.
Qed.

Lemma upload_photos_None issue_id photos b acc :
  (∃ b', upload_photos storage_service session issue_id photos b acc
         = (b', None))
  ↔ ∃ done photo rest pending b1,
      photos = done ++ photo :: rest
      ∧ photos_attached storage_service session issue_id done b pending b1
      ∧ photo_fails storage_service session issue_id photo b1.
Proof.
  split.
  - revert b acc. induction photos as [|photo rest IH]; simpl; intros b acc.
    + intros (b' & Hb'). discriminate.
    + destruct (upload_file _ _ _ _ _) as [b1 [object_name|]] eqn:Hup.
      * destruct (session_add _ _) eqn:Hadd.
        -- intros Hrest.
           apply IH in Hrest as (done & p & rest' & pending & b2 & -> & Hd &
                                   Hf).
           exists (photo :: done), p, rest', 
             (photo_record issue_id photo object_name :: pending), b2.
           split; [reflexivity|]. split; [|exact Hf].
           by apply (attached_cons _ _ _ photo done b b1 object_name).
        -- intros _. exists [], photo, rest, [], b.
           split; [reflexivity|]. split; [constructor|].
           right. exists b1, object_name. split; assumption.
      * intros _. exists [], photo, rest, [], b.
        split; [reflexivity|]. split; [constructor|].
        left. exists b1. exact Hup.
  - intros (done & photo & rest & pending & b1 & -> & Hd & Hf).
    rewrite (upload_photos_app _ _ _ _ _ Hd). simpl.
    destruct Hf as [(b' & Hup) | (b' & object_name & Hup & Hadd)];
      unfold upload_of in Hup; rewrite Hup; [eauto|].
    unfold photo_record in Hadd. rewrite Hadd. eauto.
Qed.

(** The representative that the lookup binds is a user of the directory:
    an active representative of the locality, the first one retrieved. *)
Lemma auto_assign_selected (d : DB) (lid : Z) :
  has_active_representative d (Some lid) →
  ∃ u,
    first (select_representatives lid d) = Some u
    ∧ u ∈ users d
    ∧ User.role u = REPRESENTATIVE
    ∧ User.locality_id u = Some lid
    ∧ User.is_active u = true
    ∧ auto_assign (Some lid) d
      = (Some (User.id u),
         Some ("Auto-assigned to Parshad " +:+ User.name u
               +:+ " of ward " +:+ Py.str_int lid),
         ASSIGNED).
Proof.
  intros (lid' & v & [= <-] & Hv). apply select_representatives_spec in Hv.
  unfold auto_assign.
  destruct (select_representatives lid d) as [|u l] eqn:Hsel;
    [by apply elem_of_nil in Hv|].
  assert (Hu : u ∈ select_representatives lid d)
    by (rewrite Hsel; apply list_elem_of_here).
  apply select_representatives_spec in Hu as (? & ? & ? & ?).
  exists u. simpl. by repeat split.
Qed.

(** What a call that passes the pre-checks leaves behind and returns. *)
Lemma create_issue_accepted issue_type description latitude longitude
    locality_id photos current_user now (w : World Blob) :
  (Py.len photos >? max_photos_per_issue settings) = false →
  validate_photos settings photos = None →
  ∃ issue,
    let out := create_issue settings storage_service session issue_type
                 description latitude longitude locality_id photos
                 current_user now w in
    issues (db out.1) = <[issues_id_seq (db w) := issue]> (issues (db w))
    ∧ localities (db out.1) = localities (db w)
    ∧ users (db out.1) = users (db w)
    ∧ issues_id_seq (db out.1) = issues_id_seq (db w) + 1
    ∧ Issue.id issue = issues_id_seq (db w)
    ∧ Issue.locality_id issue = locality_id
    ∧ (Issue.assigned_parshad_id issue, Issue.assignment_notes issue,
       Issue.status issue) = auto_assign locality_id (db w)
    ∧ completion_all_null issue
    ∧ match out.2 with
      | inl e =>
          issue_photos (db out.1) = issue_photos (db w)
          ∧ ((e = mkHTTPException HTTP_500_INTERNAL_SERVER_ERROR
                    FailedToUploadPhoto
              ∧ issue_photos_id_seq (db out.1) = issue_photos_id_seq (db w))
             ∨ (e = mkHTTPException HTTP_500_INTERNAL_SERVER_ERROR
                      InternalServerError
                ∧ ∃ skipped : nat,
                    issue_photos_id_seq (db out.1)
                    = issue_photos_id_seq (db w) + Z.of_nat skipped))
      | inr resp =>
          IssueResponse.id resp = issues_id_seq (db w)
          ∧ IssueResponse.status resp = Issue.status issue
          ∧ IssueResponse.assigned_parshad_id resp
            = Issue.assigned_parshad_id issue
          ∧ IssueResponse.assignment_message resp
            = Issue.assignment_notes issue
      end.
Proof.
  intros Hn Hv. unfold create_issue. rewrite Hn, Hv.
  destruct (auto_assign locality_id (db w)) as [[pid msg] st].
  simpl.
  destruct (upload_photos _ _ _ _ _ _) as [b' [pending|]] eqn:Hup;
    [destruct (session_commit session pending) as [|skipped] eqn:Hc|];
    simpl; eexists; simpl;
    repeat match goal with
           | |- context [commit_photos ?n ?p ?d] =>
               destruct (commit_photos_tables n p d) as (-> & -> & -> & ->)
           end;
    simpl; repeat (split; [reflexivity|]).
  - reflexivity.
  - right. split; [reflexivity|]. by exists skipped.
  - left. split; reflexivity.
Qed.

(** The answer of a call that passes the pre-checks, by the outcome of the
    upload loop and of the final commit. *)
Lemma create_issue_answer issue_type description latitude longitude
    locality_id photos current_user now (w : World Blob) :
  (Py.len photos >? max_photos_per_issue settings) = false →
  validate_photos settings photos = None →
  match upload_photos storage_service session (issues_id_seq (db w)) photos
          (bucket w) [] with
  | (_, None) =>
      (create_issue settings storage_service session issue_type description
         latitude longitude locality_id photos current_user now w).2
      = inl (mkHTTPException HTTP_500_INTERNAL_SERVER_ERROR
               FailedToUploadPhoto)
  | (_, Some pending) =>
      match session_commit session pending with
      | Aborted _ =>
          (create_issue settings storage_service session issue_type
             description latitude longitude locality_id photos current_user
             now w).2
          = inl (mkHTTPException HTTP_500_INTERNAL_SERVER_ERROR
                   InternalServerError)
      | Committed =>
          ∃ resp,
            (create_issue settings storage_service session issue_type
               description latitude longitude locality_id photos
               current_user now w).2 = inr resp
      end
  end.
Proof.
  intros Hn Hv. unfold create_issue. rewrite Hn, Hv.
  destruct (auto_assign locality_id (db w)) as [[pid msg] st].
  simpl.
  destruct (upload_photos _ _ _ _ _ _) as [b' [pending|]]; [|reflexivity].
  destruct (session_commit session pending); [eauto | reflexivity].
Qed.

(** A failed attachment, read off the upload loop and the commit. *)
Lemma attachment_fails_spec issue_id (b : Blob) photos :
  attachment_fails storage_service session issue_id b photos
  ↔ match upload_photos storage_service session issue_id photos b [] with
    | (_, None) => True
    | (_, Some pending) =>
        ∃ skipped, session_commit session pending = Aborted skipped
    end.
Proof.
  split.
  - intros [Hloop | (pending & b1 & k & Hatt & Hab)].
    + apply (upload_photos_None issue_id photos b []) in Hloop as (b' & ->).
      exact I.
    + assert (Hsome : upload_photos storage_service session issue_id photos
                        b [] = (b1, Some pending))
        by (apply upload_photos_Some; exists pending; split;
            [reflexivity | exact Hatt]).
      rewrite Hsome. eauto.
  - destruct (upload_photos _ _ _ _ _ _) as [b' [pending|]] eqn:Hup.
    + intros (k & Hab). right.
      apply upload_photos_Some in Hup as (new & -> & Hnew).
      exists new, b', k. split; [exact Hnew | exact Hab].
    + intros _. left. apply (upload_photos_None issue_id photos b []). eauto.
Qed.

(** Either the pre-checks pass, or the call ends there with a 400 and the
    world it started from. *)
Lemma create_issue_prechecks_cases issue_type description latitude longitude
    locality_id photos current_user now (w : World Blob) :
  ((Py.len photos >? max_photos_per_issue settings) = false
   ∧ validate_photos settings photos = None)
  ∨ ∃ e, create_issue settings storage_service session issue_type description
           latitude longitude locality_id photos current_user now w
         = (w, inl e)
         ∧ status_code e = HTTP_400_BAD_REQUEST.
Proof.
  unfold create_issue.
  destruct (_ >? _) eqn:Hn; [right; eexists; split; reflexivity|].
  destruct (validate_photos settings photos) as [e|] eqn:He; [|by left].
  right. exists e. split; [reflexivity | by apply validate_photos_Some in He as [? _]].
Qed.

End ReportProperties.

Section ReportClaims.

Context {Blob : Type}.
Variable settings : Settings.
Variable storage_service : StorageService Blob.
Variable session : Session.

(** C1: a report that passes the pre-checks is persisted under the next
    issue id; when the directory holds an active representative for the
    report's locality the stored issue has status ASSIGNED and a non-null
    [assigned_parshad_id], and when the locality is null or has no active
    representative it has status REPORTED and a null [assigned_parshad_id]. *)
Theorem create_issue_initial_assignment issue_type description latitude
    longitude locality_id photos current_user now (w : World Blob) :
  ¬ violates_prechecks settings photos →
  ∃ issue,
    issues (db (create_issue settings storage_service session issue_type
                  description
                  latitude longitude locality_id photos current_user now w).1)
      !! issues_id_seq (db w) = Some issue
    ∧ Issue.locality_id issue = locality_id
    ∧ (has_active_representative (db w) locality_id →
       Issue.status issue = ASSIGNED
       ∧ is_Some (Issue.assigned_parshad_id issue))
    ∧ (¬ has_active_representative (db w) locality_id →
       Issue.status issue = REPORTED
       ∧ Issue.assigned_parshad_id issue = None).
Proof.
  intros Hv. apply prechecks_pass in Hv as [Hn Hval].
  destruct (create_issue_accepted settings storage_service session issue_type
              description latitude longitude locality_id photos current_user
              now w Hn Hval)
    as (issue & Hiss & _ & _ & _ & _ & Hloc & Hauto & _).
  cbv zeta in Hiss. exists issue. rewrite Hiss, lookup_insert_eq.
  split; [reflexivity|]. split; [exact Hloc|]. split.
  - intros Hrep. apply auto_assign_representative in Hrep as (u & msg & Hu).
    rewrite Hu in Hauto. injection Hauto as Hp _ Hs. rewrite Hp, Hs. eauto.
  - intros Hno. apply auto_assign_unassigned in Hno as (msg & Hu).
    rewrite Hu in Hauto. injection Hauto as Hp _ Hs. auto.
Qed.

(** C3 (as the code has it): in a call that passes the pre-checks, when a
    photo upload or the creation of a photo record fails, after any number
    of photos of the call were uploaded and recorded, or when the insert of
    the photo rows fails at the final commit, the caller gets a single
    error with status 500, no photo record of the call is stored (the photo
    table is as before the call, and so is its id sequence when the failure
    is caught in the loop), the directory is untouched, and the only change
    to the tables is the issue row committed before the uploads began,
    which has no photo of this call attached. When nothing of this fails
    the call answers with the created issue. *)
Theorem create_issue_upload_failure issue_type description latitude
    longitude locality_id photos current_user now (w : World Blob) :
  ¬ violates_prechecks settings photos →
  let out := create_issue settings storage_service session issue_type
               description latitude longitude locality_id photos
               current_user now w in
  let w' := out.1 in
  (attachment_fails storage_service session (issues_id_seq (db w))
     (bucket w) photos →
   ∃ e,
     out.2 = inl e
     ∧ status_code e = HTTP_500_INTERNAL_SERVER_ERROR
     ∧ ((detail e = FailedToUploadPhoto
         ∧ issue_photos_id_seq (db w') = issue_photos_id_seq (db w))
        ∨ (detail e = InternalServerError
           ∧ issue_photos_id_seq (db w) ≤ issue_photos_id_seq (db w')))
     ∧ issue_photos (db w') = issue_photos (db w)
     ∧ localities (db w') = localities (db w)
     ∧ users (db w') = users (db w)
     ∧ ∃ issue,
         issues (db w') = <[issues_id_seq (db w) := issue]> (issues (db w))
         ∧ Issue.id issue = issues_id_seq (db w)
         ∧ photos_of (db w') (Issue.id issue)
           = photos_of (db w) (Issue.id issue))
  ∧ (¬ attachment_fails storage_service session (issues_id_seq (db w))
         (bucket w) photos →
     ∃ resp, out.2 = inr resp).
Proof.
  intros Hv. apply prechecks_pass in Hv as [Hn Hval].
  destruct (create_issue_accepted settings storage_service session
              issue_type description latitude longitude locality_id photos
              current_user now w Hn Hval)
    as (issue & Hiss & Hls & Hus & _ & Hid & _ & _ & _ & Hout).
  pose proof (create_issue_answer settings storage_service session
                issue_type description latitude longitude locality_id photos
                current_user now w Hn Hval) as Hans.
  cbv zeta in *.
  rewrite (attachment_fails_spec storage_service session).
  destruct (upload_photos _ _ _ _ _ _) as [b' [pending|]];
    [destruct (session_commit session pending) as [|skipped]|].
  - destruct Hans as (resp & Hres). split; [|eauto].
    intros (k & Hk). discriminate.
  - split; [intros _ | intros Hnot; exfalso; eauto].
    rewrite Hans in Hout |- *. destruct Hout as (Hph & Hkind).
    eexists. split; [reflexivity|]. split; [reflexivity|]. split.
    { right. split; [reflexivity|].
      destruct Hkind as [[[=] _] | (_ & k & ->)]. lia. }
    repeat (split; [assumption|]).
    exists issue. split; [exact Hiss|]. split; [exact Hid|].
    unfold photos_of. by rewrite Hph.
  - split; [intros _ | intros Hnot; exfalso; auto].
    rewrite Hans in Hout |- *. destruct Hout as (Hph & Hkind).
    eexists. split; [reflexivity|]. split; [reflexivity|]. split.
    { left. split; [reflexivity|].
      destruct Hkind as [(_ & Hseq) | ([=] & _)]. exact Hseq. }
    repeat (split; [assumption|]).
    exists issue. split; [exact Hiss|]. split; [exact Hid|].
    unfold photos_of. by rewrite Hph.
Qed.

(** C4: a batch that violates a pre-check (too many photos, a content type
    outside the whitelist, a content above the size limit) is rejected with
    a 400 and the world is the one before the call: no upload, no issue row,
    no photo row. *)
Theorem create_issue_prechecks_fail_fast issue_type description latitude
    longitude locality_id photos current_user now (w : World Blob) :
  violates_prechecks settings photos →
  ∃ e, create_issue settings storage_service session issue_type description
         latitude longitude locality_id photos current_user now w
       = (w, inl e)
       ∧ status_code e = HTTP_400_BAD_REQUEST.
Proof.
  intros Hv.
  destruct (create_issue_prechecks_cases settings storage_service session
              issue_type
              description latitude longitude locality_id photos current_user
              now w) as [[Hn Hval] | Hrej]; [|exact Hrej].
  exfalso. apply validate_photos_None in Hval.
  apply violates_prechecks_not_ok in Hv as [?|?]; [lia | auto].
Qed.

(** C7: the representative lookup selects exactly the users with role
    representative, the given locality id and the active flag; the locality
    table plays no part in [create_issue], so with an active representative
    the stored issue is ASSIGNED whatever the locality table says about the
    locality (inactive, or absent). *)
Theorem representative_lookup_ignores_locality_table issue_type description
    latitude longitude locality_id photos current_user now (w : World Blob) :
  (∀ lid u,
     u ∈ select_representatives lid (db w)
     ↔ u ∈ users (db w) ∧ User.role u = REPRESENTATIVE
       ∧ User.locality_id u = Some lid ∧ User.is_active u = true)
  ∧ (∀ ls,
       create_issue settings storage_service session issue_type description
           latitude
         longitude locality_id photos current_user now (with_localities ls w)
       = (with_localities ls
            (create_issue settings storage_service session issue_type
               description
               latitude longitude locality_id photos current_user now w).1,
          (create_issue settings storage_service session issue_type description
             latitude longitude locality_id photos current_user now w).2))
  ∧ (∀ ls,
       ¬ violates_prechecks settings photos →
       has_active_representative (db w) locality_id →
       ∃ issue,
         issues (db (create_issue settings storage_service session issue_type
                       description latitude longitude locality_id photos
                       current_user now (with_localities ls w)).1)
           !! issues_id_seq (db w) = Some issue
         ∧ Issue.status issue = ASSIGNED
         ∧ is_Some (Issue.assigned_parshad_id issue)).
Proof.
  split; [intros lid u; apply select_representatives_spec|].
  split.
  - intros ls. destruct w as [[ls0 us iss ps s1 s2] b].
    unfold create_issue, with_localities, auto_assign, select_representatives.
    simpl.
    destruct (_ >? _); [reflexivity|].
    destruct (validate_photos settings photos); [reflexivity|].
    destruct (match locality_id with Some _ => _ | None => _ end)
      as [[pid msg] st].
    destruct (upload_photos _ _ _ _ _ _) as [b' [pending|]]; [|reflexivity].
    destruct (session_commit session pending); [|reflexivity].
    unfold commit_photos, commit_issue, photos_of. simpl.
    destruct (insert_photos _ _ _). reflexivity.
  - intros ls Hv Hrep. apply prechecks_pass in Hv as [Hn Hval].
    destruct (create_issue_accepted settings storage_service session issue_type
                description latitude longitude locality_id photos
                current_user now (with_localities ls w) Hn Hval)
      as (issue & Hiss & _ & _ & _ & _ & _ & Hauto & _).
    cbv zeta in Hiss. exists issue. rewrite Hiss. simpl.
    rewrite lookup_insert_eq. split; [reflexivity|].
    assert (Hrep' : has_active_representative (db (with_localities ls w))
                      locality_id) by exact Hrep.
    apply auto_assign_representative in Hrep' as (u & msg & Hu).
    rewrite Hu in Hauto. injection Hauto as Hp _ Hs. rewrite Hp, Hs. eauto.
Qed.

(** C9: the response [build_issue_response] builds, and so the one
    [get_issue] returns, has [assignment_message] equal to [None] for every
    issue; the response of a successful [create_issue] carries the message
    that is stored in the issue's [assignment_notes], and reading that same
    issue back gives [None]. *)
Theorem assignment_message_only_in_create_response issue_type description
    latitude longitude locality_id photos current_user now (w : World Blob) :
  (∀ issue d,
     IssueResponse.assignment_message
       (build_issue_response storage_service issue d) = None)
  ∧ (∀ issue_id d r,
       get_issue storage_service issue_id d = inr r →
       IssueResponse.assignment_message r = None)
  ∧ (∀ resp,
       (create_issue settings storage_service session issue_type description
          latitude longitude locality_id photos current_user now w).2
       = inr resp →
       let w' := (create_issue settings storage_service session issue_type
                    description latitude longitude locality_id photos
                    current_user now w).1 in
       ∃ issue r,
         issues (db w') !! IssueResponse.id resp = Some issue
         ∧ Issue.assignment_notes issue = IssueResponse.assignment_message resp
         ∧ (is_Some locality_id →
            is_Some (IssueResponse.assignment_message resp))
         ∧ get_issue storage_service (IssueResponse.id resp) (db w') = inr r
         ∧ IssueResponse.assignment_message r = None).
Proof.
  assert (Hbuild : ∀ issue d,
            IssueResponse.assignment_message
              (build_issue_response storage_service issue d) = None).
  { intros issue d. unfold build_issue_response.
    destruct (match Issue.locality_id issue with Some _ => _ | None => _ end).
    reflexivity. }
  split; [exact Hbuild|]. split.
  - intros issue_id d r. unfold get_issue.
    destruct (issues d !! issue_id); [|discriminate].
    intros [= <-]. apply Hbuild.
  - intros resp Hres.
    destruct (create_issue_prechecks_cases settings storage_service session
                issue_type description latitude longitude locality_id photos
                current_user now w) as [[Hn Hval] | (e' & Hrej & _)];
      [|rewrite Hrej in Hres; discriminate].
    destruct (create_issue_accepted settings storage_service session issue_type
                description latitude longitude locality_id photos
                current_user now w Hn Hval)
      as (issue & Hiss & _ & _ & _ & _ & _ & Hauto & _ & Hout).
    cbv zeta in *. rewrite Hres in Hout.
    destruct Hout as (Hid & _ & _ & Hmsg).
    exists issue, (build_issue_response storage_service issue
                     (db (create_issue settings storage_service session
                            issue_type
                            description latitude longitude locality_id photos
                            current_user now w).1)).
    assert (Hlook : issues (db (create_issue settings storage_service session
                      issue_type description latitude longitude locality_id
                      photos current_user now w).1)
                    !! IssueResponse.id resp = Some issue).
    { rewrite Hiss, Hid. apply lookup_insert_eq. }
    split; [exact Hlook|]. split; [by rewrite Hmsg|]. split.
    + intros [lid ->]. rewrite Hmsg. unfold auto_assign in Hauto.
      destruct (first _); injection Hauto as _ -> _; eauto.
    + split; [|apply Hbuild]. unfold get_issue. by rewrite Hlook.
Qed.

End ReportClaims.


(** ** Properties of the map view *)

Section MapViewProperties.

Variables math_sin math_cos math_asin math_sqrt : float -> option float.
Variable float_pow : float -> float -> option float.






End MapViewProperties.

(** ** Properties of the phone normaliser *)

Section NormalizeProperties.

Variable unicode_Nd : N -> bool.

Lemma remove_non_digits_all_digits (s : Twilio.str) :
  Forall (λ c, Twilio.is_digit unicode_Nd c = true)
    (Twilio.remove_non_digits unicode_Nd s).
Proof.
  unfold Twilio.remove_non_digits. apply Forall_forall. intros c Hc.
  apply list_elem_of_In, filter_In in Hc. tauto.
Qed.

Lemma remove_non_digits_fixed (s : Twilio.str) :
  Forall (λ c, Twilio.is_digit unicode_Nd c = true) s →
  Twilio.remove_non_digits unicode_Nd s = s.
Proof.
  unfold Twilio.remove_non_digits.
  induction 1 as [|c s Hc _ IH]; simpl; [reflexivity|].
  by rewrite Hc, IH.
Qed.

(** The output in the two branches: the sign, then digits only. *)
Lemma normalize_phone_number_shape (phone : Twilio.str) :
  ∃ digits,
    Twilio.normalize_phone_number unicode_Nd phone = Twilio.plus :: digits
    ∧ Forall (λ c, Twilio.is_digit unicode_Nd c = true) digits.
Proof.
  unfold Twilio.normalize_phone_number.
  destruct (Twilio.startswith [Twilio.plus] phone).
  - eexists. split; [reflexivity | apply remove_non_digits_all_digits].
  - destruct (negb _ || _); eexists; (split; [reflexivity|]).
    + repeat (apply Forall_cons; split; [reflexivity|]).
      apply remove_non_digits_all_digits.
    + apply remove_non_digits_all_digits.
Qed.

(** C8: for every input, [normalize_phone_number] returns '+' followed only
    by characters of the digit class, and normalising its output gives that
    output back. *)
Theorem normalize_phone_number_idempotent (phone : Twilio.str) :
  (∃ digits,
     Twilio.normalize_phone_number unicode_Nd phone = Twilio.plus :: digits
     ∧ Forall (λ c, Twilio.is_digit unicode_Nd c = true) digits)
  ∧ Twilio.normalize_phone_number unicode_Nd
      (Twilio.normalize_phone_number unicode_Nd phone)
    = Twilio.normalize_phone_number unicode_Nd phone.
Proof.
  split; [apply normalize_phone_number_shape|].
  destruct (normalize_phone_number_shape phone) as (digits & -> & Hd).
  unfold Twilio.normalize_phone_number at 1. simpl.
  by rewrite remove_non_digits_fixed.
Qed.

End NormalizeProperties.

(** ** Properties of the transition engine *)

Import Lifecycle.

(** A call either fails and returns the store it was given, or it found the
    issue in the source state of the requested step, with an allowed caller,
    and stored the advanced row. *)
Lemma TransitionIssue_cases now issue_id acting_user target payload (d : DB) :
  (∃ e, TransitionIssue now issue_id acting_user target payload d = (d, inl e))
  ∨ (∃ issue,
       issues d !! issue_id = Some issue
       ∧ next_status (Issue.status issue) = Some target
       ∧ may_take acting_user issue = true
       ∧ (target = PWD_COMPLETED → is_Some payload)
       ∧ TransitionIssue now issue_id acting_user target payload d
         = (store_issue issue_id
              (advance now acting_user target payload issue) d,
            inr (advance now acting_user target payload issue))).
Proof.
  unfold TransitionIssue.
  destruct (issues d !! issue_id) as [issue|]; [|left; eauto].
  case_bool_decide as Hnext; simpl; [|left; eauto].
  destruct (may_take acting_user issue) eqn:Hmay; simpl; [|left; eauto].
  case_bool_decide as Htarget; simpl.
  - case_bool_decide as Hpay; simpl; [left; eauto|].
    right. exists issue. split; [done|]. split; [done|]. split; [done|].
    split; [|done]. intros _. by destruct payload.
  - right. exists issue. split; [done|]. split; [done|]. split; [done|].
    split; [|done]. intros ?. contradiction.
Qed.

(** [next_status] is the immediate successor in the fixed ordering. *)
Lemma next_status_in_order (s t : IssueStatus) :
  next_status s = Some t
  ↔ ∃ i : nat, lifecycle_order !! i = Some s ∧ lifecycle_order !! S i = Some t.
Proof.
  split.
  - intros Hnext. exists (pred (stage s)).
    destruct s; try discriminate; injection Hnext as <-; split; reflexivity.
  - intros (i & Hs & Ht).
    do 6 (destruct i as [|i];
          [simpl in Hs, Ht; try discriminate;
           injection Hs as <-; injection Ht as <-; reflexivity|]).
    simpl in Hs. discriminate.
Qed.

(** C2 (against the transition table): a call on a stored issue succeeds
    exactly when the target is the immediate successor of the stored
    status, the acting user is the caller the table names for that step,
    and the completion payload is there for the step into PWD_COMPLETED; a
    success stores the target status; a target that is not the immediate
    successor fails with InvalidTransition; every failure returns the store
    unchanged, and the same call on it fails in the same way again. *)
Theorem transition_only_to_successor now issue_id acting_user target payload
    (d : DB) (issue : Issue.t) :
  issues d !! issue_id = Some issue →
  ((∃ issue',
      (TransitionIssue now issue_id acting_user target payload d).2
      = inr issue')
   ↔ next_status (Issue.status issue) = Some target
     ∧ may_take acting_user issue = true
     ∧ (target = PWD_COMPLETED → is_Some payload))
  ∧ (∀ issue',
       (TransitionIssue now issue_id acting_user target payload d).2
       = inr issue' →
       next_status (Issue.status issue) = Some target
       ∧ Issue.status issue' = target
       ∧ issues (TransitionIssue now issue_id acting_user target payload d).1
           !! issue_id = Some issue')
  ∧ (next_status (Issue.status issue) ≠ Some target →
     TransitionIssue now issue_id acting_user target payload d
     = (d, inl (InvalidTransition (source_status target)
                  (Issue.status issue))))
  ∧ (∀ e,
       (TransitionIssue now issue_id acting_user target payload d).2 = inl e →
       (TransitionIssue now issue_id acting_user target payload d).1 = d
       ∧ TransitionIssue now issue_id acting_user target payload
           (TransitionIssue now issue_id acting_user target payload d).1
         = (d, inl e)).
Proof.
  intros Hl.
  destruct (TransitionIssue_cases now issue_id acting_user target payload d)
    as [(e & He) | (old & Hold & Hnext & Hmay & Hpay & Hok)].
  - rewrite He. simpl. split; [|split; [|split]].
    + split; [intros [? ?]; discriminate|].
      intros (Hnext & Hmay & Hpay). exfalso.
      revert He. unfold TransitionIssue. rewrite Hl, Hmay.
      rewrite bool_decide_eq_true_2 by exact Hnext. simpl.
      case_bool_decide as Ht; simpl; [|discriminate].
      destruct (Hpay Ht) as [p ->]. simpl. discriminate.
    + discriminate.
    + intros Hnot. revert He. unfold TransitionIssue. rewrite Hl.
      rewrite bool_decide_eq_false_2 by exact Hnot. simpl. by intros [= <-].
    + intros e' [= <-]. split; [reflexivity | exact He].
  - rewrite Hl in Hold. injection Hold as <-. rewrite Hok. simpl.
    split; [|split; [|split]].
    + split; [auto | eauto].
    + intros issue' [= <-]. split; [exact Hnext|].
      split; [reflexivity | apply lookup_insert_eq].
    + contradiction.
    + discriminate.
Qed.

(** ** The concrete cases *)

Lemma demo_batch_ok (names : list string) :
  (length names ≤ 3)%nat →
  ¬ violates_prechecks Demo.cfg (map Demo.jpeg names).
Proof.
  intros Hn. apply ok_not_violates_prechecks.
  - unfold Py.len. rewrite length_map. simpl. lia.
  - apply Forall_forall. intros p Hp. apply list_elem_of_fmap in Hp as (n & -> & _).
    split; [|vm_compute; discriminate].
    exists "image/jpeg". split; [reflexivity | apply list_elem_of_here].
Qed.

Lemma demo_asha_is_active_representative :
  has_active_representative (db Demo.w0) (Some 5).
Proof.
  exists 5, Demo.asha. split; [reflexivity|]. split; [|by repeat split].
  apply list_elem_of_further, list_elem_of_here.
Qed.

Lemma demo_no_representative_after_deactivation :
  ¬ has_active_representative (db Demo.w0') (Some 5).
Proof.
  intros (lid & u & _ & Hu & Hrole & _ & Hact).
  repeat (apply elem_of_cons in Hu as [-> | Hu]; [discriminate|]).
  by apply elem_of_nil in Hu.
Qed.

(** C1 at the deployment: Ravi's report for ward 5 with one photo is stored
    as issue 1, ASSIGNED, with a representative bound. *)
Lemma create_issue_initial_assignment_witness :
  ∃ issue,
    issues (db (Demo.report (Some 5) [Demo.jpeg "a.jpg"] Demo.w0).1) !! 1
    = Some issue
    ∧ Issue.status issue = ASSIGNED
    ∧ is_Some (Issue.assigned_parshad_id issue).
Proof.
  destruct (create_issue_initial_assignment Demo.cfg Demo.store Demo.session
              ROAD "Pothole near the school gate" 0%float 0%float (Some 5)
              [Demo.jpeg "a.jpg"] Demo.ravi 100 Demo.w0
              (demo_batch_ok ["a.jpg"] ltac:(simpl; lia)))
    as (issue & Hl & _ & Hassigned & _).
  exists issue. split; [exact Hl|].
  exact (Hassigned demo_asha_is_active_representative).
Defined.

(** C3, counterexample to the claim as stated: the second upload of the
    report fails; the caller gets the single 500 error and no photo row is
    left, but issue 1, which was not there before the call, is. *)
Lemma upload_failure_leaves_issue_row :
  Demo.failed_report.2
  = inl (mkHTTPException HTTP_500_INTERNAL_SERVER_ERROR FailedToUploadPhoto)
  ∧ issue_photos (db Demo.failed_report.1) = issue_photos (db Demo.w0)
  ∧ issues (db Demo.w0) !! 1 = None
  ∧ is_Some (issues (db Demo.failed_report.1) !! 1)
  ∧ db Demo.failed_report.1 ≠ db Demo.w0.
Proof.
  split; [vm_compute; reflexivity|].
  split; [vm_compute; reflexivity|].
  split; [vm_compute; reflexivity|].
  split; [vm_compute; eauto|].
  intros Heq. apply (f_equal (λ d, issues d !! 1)) in Heq.
  vm_compute in Heq. discriminate.
Qed.

(** C3 as amended, at the deployment: the failed report above, whose
    second upload is refused after the first photo was uploaded and
    recorded; and Ravi's report with one photo in a session whose final
    commit is refused. *)
Lemma create_issue_upload_failure_witness :
  (∃ e,
     Demo.failed_report.2 = inl e
     ∧ status_code e = HTTP_500_INTERNAL_SERVER_ERROR
     ∧ issue_photos (db Demo.failed_report.1) = issue_photos (db Demo.w0)
     ∧ ∃ issue,
         issues (db Demo.failed_report.1)
         = <[1 := issue]> (issues (db Demo.w0))
         ∧ Issue.id issue = 1)
  ∧ (∃ e,
       (create_issue Demo.cfg Demo.store Demo.session_aborting ROAD
          "Pothole near the school gate" 0%float 0%float (Some 5)
          [Demo.jpeg "a.jpg"] Demo.ravi 100 Demo.w0).2 = inl e
       ∧ status_code e = HTTP_500_INTERNAL_SERVER_ERROR
       ∧ issue_photos
           (db (create_issue Demo.cfg Demo.store Demo.session_aborting ROAD
                  "Pothole near the school gate" 0%float 0%float (Some 5)
                  [Demo.jpeg "a.jpg"] Demo.ravi 100 Demo.w0).1)
         = issue_photos (db Demo.w0)).
Proof.
  split.
  - destruct (create_issue_upload_failure Demo.cfg Demo.store Demo.session
                ROAD "Pothole near the school gate" 0%float 0%float (Some 5)
                [Demo.jpeg "a.jpg"; Demo.jpeg "broken.jpg"] Demo.ravi 100
                Demo.w0
                (demo_batch_ok ["a.jpg"; "broken.jpg"] ltac:(simpl; lia)))
      as [Hfail _].
    destruct Hfail
      as (e & He & Hcode & _ & Hphotos & _ & _ & issue & Hissues & Hid & _).
    { left.
      exists [Demo.jpeg "a.jpg"], (Demo.jpeg "broken.jpg"), [],
        [photo_record 1 (Demo.jpeg "a.jpg") "issues/a.jpg"],
        ["issues/a.jpg"].
      split; [reflexivity|]. split.
      - apply (attached_cons Demo.store Demo.session 1 (Demo.jpeg "a.jpg") []
                 [] ["issues/a.jpg"] "issues/a.jpg" [] ["issues/a.jpg"]);
          [reflexivity | reflexivity | constructor].
      - left. exists ["issues/a.jpg"]. reflexivity. }
    exists e. split; [exact He|]. split; [exact Hcode|].
    split; [exact Hphotos|]. exists issue. split; [exact Hissues | exact Hid].
  - destruct (create_issue_upload_failure Demo.cfg Demo.store
                Demo.session_aborting ROAD "Pothole near the school gate"
                0%float 0%float (Some 5) [Demo.jpeg "a.jpg"] Demo.ravi 100
                Demo.w0 (demo_batch_ok ["a.jpg"] ltac:(simpl; lia)))
      as [Hfail _].
    destruct Hfail as (e & He & Hcode & _ & Hphotos & _).
    { right.
      exists [photo_record 1 (Demo.jpeg "a.jpg") "issues/a.jpg"],
        ["issues/a.jpg"], 1%nat.
      split; [|reflexivity].
      apply (attached_cons Demo.store Demo.session_aborting 1
               (Demo.jpeg "a.jpg") [] [] ["issues/a.jpg"] "issues/a.jpg" []
               ["issues/a.jpg"]);
        [reflexivity | reflexivity | constructor]. }
    exists e. split; [exact He|]. split; [exact Hcode | exact Hphotos].
Defined.

(** C4 at the deployment: a document among the photos. *)
Lemma create_issue_prechecks_fail_fast_witness :
  ∃ e, Demo.rejected_report = (Demo.w0, inl e)
       ∧ status_code e = HTTP_400_BAD_REQUEST.
Proof.
  apply (create_issue_prechecks_fail_fast Demo.cfg Demo.store Demo.session).
  right. left. apply Exists_cons_tl, Exists_cons_hd.
  intros (ct & Hct & Hin). simpl in Hct. injection Hct as <-.
  repeat (apply elem_of_cons in Hin as [Hin | Hin]; [discriminate|]).
  by apply elem_of_nil in Hin.
Defined.

(** C7 at the deployment: ward 5 is inactive, Asha is active, the issue is
    ASSIGNED. *)
Lemma representative_lookup_ignores_locality_table_witness :
  (Locality.is_active <$> localities (db Demo.w0) !! 5) = Some false
  ∧ ∃ issue,
      issues (db (Demo.report (Some 5) [Demo.jpeg "a.jpg"] Demo.w0).1) !! 1
      = Some issue
      ∧ Issue.status issue = ASSIGNED
      ∧ is_Some (Issue.assigned_parshad_id issue).
Proof.
  split; [vm_compute; reflexivity|].
  destruct (representative_lookup_ignores_locality_table Demo.cfg Demo.store
              Demo.session
              ROAD "Pothole near the school gate" 0%float 0%float (Some 5)
              [Demo.jpeg "a.jpg"] Demo.ravi 100 Demo.w0)
    as (_ & _ & Hassigned).
  exact (Hassigned (localities (db Demo.w0))
           (demo_batch_ok ["a.jpg"] ltac:(simpl; lia))
           demo_asha_is_active_representative).
Defined.

(** C9 at the deployment: the message of the create response is stored in
    [assignment_notes] and is not in the response read back. *)
Lemma assignment_message_only_in_create_response_witness :
  ∃ resp issue r,
    (Demo.report (Some 5) [Demo.jpeg "a.jpg"] Demo.w0).2 = inr resp
    ∧ IssueResponse.assignment_message resp
      = Some "Auto-assigned to Parshad Asha of ward 5"
    ∧ issues (db Demo.w1) !! IssueResponse.id resp = Some issue
    ∧ Issue.assignment_notes issue = IssueResponse.assignment_message resp
    ∧ get_issue Demo.store (IssueResponse.id resp) (db Demo.w1) = inr r
    ∧ IssueResponse.assignment_message r = None.
Proof.
  destruct (Demo.report (Some 5) [Demo.jpeg "a.jpg"] Demo.w0).2
    as [e|resp] eqn:Hres; [vm_compute in Hres; discriminate|].
  destruct (assignment_message_only_in_create_response Demo.cfg Demo.store
              Demo.session
              ROAD "Pothole near the school gate" 0%float 0%float (Some 5)
              [Demo.jpeg "a.jpg"] Demo.ravi 100 Demo.w0)
    as (_ & _ & Hcreate).
  destruct (Hcreate resp Hres) as (issue & r & Hl & Hnotes & _ & Hget & Hnone).
  exists resp, issue, r. split; [reflexivity|].
  split; [vm_compute in Hres; injection Hres as <-; reflexivity|].
  split; [exact Hl|]. split; [exact Hnotes|]. split; [exact Hget | exact Hnone].
Defined.


(** C8 on the examples of the docstring, with "+91 98765 43210" and
    "9876543210" spelled as code points. *)
Lemma normalize_phone_number_idempotent_witness :
  Twilio.normalize_phone_number (λ _, false)
    [43; 57; 49; 32; 57; 56; 55; 54; 53; 32; 52; 51; 50; 49; 48]%N
  = [43; 57; 49; 57; 56; 55; 54; 53; 52; 51; 50; 49; 48]%N
  ∧ Twilio.normalize_phone_number (λ _, false)
      [57; 56; 55; 54; 53; 52; 51; 50; 49; 48]%N
    = [43; 57; 49; 57; 56; 55; 54; 53; 52; 51; 50; 49; 48]%N
  ∧ Twilio.normalize_phone_number (λ _, false)
      (Twilio.normalize_phone_number (λ _, false)
         [57; 56; 55; 54; 53; 52; 51; 50; 49; 48]%N)
    = Twilio.normalize_phone_number (λ _, false)
        [57; 56; 55; 54; 53; 52; 51; 50; 49; 48]%N.
Proof.
  split; [reflexivity|]. split; [reflexivity|].
  apply (normalize_phone_number_idempotent (λ _, false)).
Defined.


(** C2, counterexample to the claim as stated: issue 1 is ASSIGNED and the
    target is its immediate successor, yet the call by the citizen Ravi
    fails with InvalidTransition and the store is unchanged. *)
Lemma successor_target_refused_to_citizen :
  (Issue.status <$> issues (db Demo.w1) !! 1) = Some ASSIGNED
  ∧ next_status ASSIGNED = Some REPRESENTATIVE_ACKNOWLEDGED
  ∧ TransitionIssue 110 1 Demo.ravi REPRESENTATIVE_ACKNOWLEDGED None
      (db Demo.w1)
    = (db Demo.w1, inl (InvalidTransition (Some ASSIGNED) ASSIGNED)).
Proof.
  split; [vm_compute; reflexivity|]. split; [reflexivity|].
  vm_compute. reflexivity.
Qed.

(** C2 as amended, at the deployment: Asha's acknowledgement of issue 1
    succeeds and a skip to PWD_WORKING is refused. *)
Lemma transition_only_to_successor_witness :
  (∃ issue',
     (TransitionIssue 110 1 Demo.asha REPRESENTATIVE_ACKNOWLEDGED None
        (db Demo.w1)).2 = inr issue')
  ∧ TransitionIssue 110 1 Demo.asha PWD_WORKING None (db Demo.w1)
    = (db Demo.w1,
       inl (InvalidTransition (Some REPRESENTATIVE_ACKNOWLEDGED) ASSIGNED)).
Proof.
  destruct (issues (db Demo.w1) !! 1) as [issue|] eqn:Hl;
    [|vm_compute in Hl; discriminate].
  assert (Hs : Issue.status issue = ASSIGNED
               ∧ Issue.assigned_parshad_id issue = Some 42)
    by (vm_compute in Hl; injection Hl as <-; split; reflexivity).
  destruct Hs as [Hs Ha]. split.
  - destruct (transition_only_to_successor 110 1 Demo.asha
                REPRESENTATIVE_ACKNOWLEDGED None (db Demo.w1) issue Hl)
      as ([_ Hif] & _).
    apply Hif. unfold may_take. rewrite Hs. simpl. rewrite Ha.
    split; [reflexivity|]. split; [reflexivity | discriminate].
  - destruct (transition_only_to_successor 110 1 Demo.asha PWD_WORKING None
                (db Demo.w1) issue Hl) as (_ & _ & Hskip & _).
    rewrite Hs in Hskip. apply Hskip. discriminate.
Defined.

(** ** Further properties of [create_issue] *)

Section CreateIssueRows.

Context {Blob : Type}.
Variable settings : Settings.
Variable storage_service : StorageService Blob.
Variable session : Session.

Lemma upload_photos_pending (issue_id : Z) (photos : list UploadFile)
    (b b' : Blob) (acc pending : list PendingPhoto) :
  upload_photos storage_service session issue_id photos b acc = (b', Some
                                                                   pending) →
  ∃ new, pending = acc ++ new ∧ Forall2 (pending_of issue_id) photos new.
Proof.
  revert b acc. induction photos as [|photo rest IH]; simpl; intros b acc.
  - intros [= _ <-]. exists []. split; [by rewrite app_nil_r | constructor].
  - destruct (upload_file _ _ _ _ _) as [b1 [object_name|]]; [|discriminate].
    destruct (session_add _ _); [|discriminate].
    intros Hrest. apply IH in Hrest as (new & -> & Hnew).
    eexists (_ :: new). split; [by rewrite <- app_assoc|].
    constructor; [|exact Hnew]. by repeat split.
Qed.

Lemma insert_photos_rows (now seq : Z) (pending : list PendingPhoto) :
  ∃ rows,
    insert_photos now seq pending = (rows, seq + Py.len pending)
    ∧ IssuePhoto.id <$> rows = seqZ seq (Py.len pending)
    ∧ Forall2 (row_of_pending now) pending rows.
Proof.
  revert seq. induction pending as [|p rest IH]; intros seq.
  - exists []. simpl. split; [f_equal; unfold Py.len; simpl; lia|].
    split; [reflexivity | constructor].
  - simpl. destruct (IH (seq + 1)) as (rows & -> & Hids & Hrows).
    eexists (_ :: rows). split; [f_equal; unfold Py.len; simpl length; lia|].
    split.
    + unfold Py.len. simpl length. rewrite Nat2Z.inj_succ, seqZ_cons by lia.
      rewrite fmap_cons, Hids. simpl. f_equal. f_equal; unfold Py.len; lia.
    + constructor; [by repeat split | exact Hrows].
Qed.

(** What a successful call stores and returns. *)
Lemma create_issue_success issue_type description latitude longitude
    locality_id photos current_user now (w : World Blob)
    (resp : IssueResponse.t) :
  (create_issue settings storage_service session issue_type description latitude
     longitude locality_id photos current_user now w).2 = inr resp →
  let w' := (create_issue settings storage_service session issue_type
               description
               latitude longitude locality_id photos current_user now w).1 in
  ∃ issue rows,
    issues (db w') = <[issues_id_seq (db w) := issue]> (issues (db w))
    ∧ Issue.id issue = issues_id_seq (db w)
    ∧ Issue.user_id issue = Some (User.id current_user)
    ∧ Issue.created_at issue = now
    ∧ issues_id_seq (db w') = issues_id_seq (db w) + 1
    ∧ issue_photos (db w') = issue_photos (db w) ++ rows
    ∧ issue_photos_id_seq (db w')
      = issue_photos_id_seq (db w) + Py.len photos
    ∧ IssuePhoto.id <$> rows
      = seqZ (issue_photos_id_seq (db w)) (Py.len photos)
    ∧ Forall2 (photo_row_of (issues_id_seq (db w))) photos rows
    ∧ resp = IssueResponse.mk
               (Issue.id issue) (Issue.issue_type issue)
               (Issue.description issue) (Issue.latitude issue)
               (Issue.longitude issue) (Issue.locality_id issue) None None
               (Issue.status issue) (Issue.user_id issue)
               (Issue.assigned_parshad_id issue) (Issue.assignment_notes issue)
               None None None None
               (Issue.created_at issue) (Issue.updated_at issue)
               (map (photo_response storage_service)
                  (photos_of (db w') (issues_id_seq (db w)))).
Proof.
  unfold create_issue.
  destruct (_ >? _); [discriminate|].
  destruct (validate_photos settings photos); [discriminate|].
  destruct (auto_assign locality_id (db w)) as [[pid msg] st].
  destruct (upload_photos _ _ _ _ _ _) as [b' [pending|]] eqn:Hup;
    [|discriminate].
  destruct (session_commit session pending); [|discriminate].
  simpl. intros [= <-].
  apply upload_photos_pending in Hup as (new & Hpending & Hnew).
  simpl in Hpending. subst new.
  unfold commit_photos. simpl.
  destruct (insert_photos_rows now (issue_photos_id_seq (db w)) pending)
    as (rows & -> & Hids & Hrows).
  assert (Hlen : Py.len pending = Py.len photos).
  { unfold Py.len. f_equal. symmetry. by eapply Forall2_length. }
  simpl. eexists _, rows. rewrite <- Hlen.
  repeat (split; [reflexivity || assumption|]).
  split; [|reflexivity].
  simpl in Hnew. clear -Hnew Hrows. revert rows Hrows.
  induction Hnew as [|photo p photos' pending' Hp _ IH]; intros rows Hrows;
    inversion Hrows as [|? row ? rows' Hrow Hrows']; subst; constructor.
  - destruct Hp as (? & ? & ? & ?), Hrow as (? & ? & ? & ? & ? & ?).
    unfold photo_row_of. split; [congruence|]. split; [congruence|].
    split; congruence.
  - by apply IH.
Qed.

End CreateIssueRows.

Lemma lookup_insert_keeps_is_Some {A} (m : gmap Z A) (i k : Z) (x : A) :
  is_Some (m !! k) → is_Some (<[i := x]> m !! k).
Proof.
  intros Hk. destruct (decide (i = k)) as [->|Hne].
  - rewrite lookup_insert_eq. eauto.
  - by rewrite lookup_insert_ne.
Qed.

Section CreateIssueExtras.

Context {Blob : Type}.
Variable settings : Settings.
Variable storage_service : StorageService Blob.
Variable session : Session.

(** X1: whatever the outcome, [create_issue] leaves the user and locality
    tables as they were, keeps every existing photo row (new rows are
    appended), and changes no issue row other than the one under the next
    issue id. *)
Theorem create_issue_touches_only_its_rows issue_type description latitude
    longitude locality_id photos current_user now (w : World Blob) :
  users (db (create_issue settings storage_service session issue_type
               description
               latitude longitude locality_id photos current_user now w).1)
  = users (db w)
  ∧ localities
      (db (create_issue settings storage_service session issue_type description
             latitude longitude locality_id photos current_user now w).1)
    = localities (db w)
  ∧ (∃ rows,
       issue_photos
         (db (create_issue settings storage_service session issue_type
                description
                latitude longitude locality_id photos current_user now w).1)
       = issue_photos (db w) ++ rows)
  ∧ (∀ id,
       id ≠ issues_id_seq (db w) →
       issues
         (db (create_issue settings storage_service session issue_type
                description
                latitude longitude locality_id photos current_user now w).1)
         !! id
       = issues (db w) !! id).
Proof.
  destruct (create_issue_prechecks_cases settings storage_service session
              issue_type
              description latitude longitude locality_id photos current_user
              now w) as [[Hn Hval] | (e & -> & _)].
  - destruct (create_issue_accepted settings storage_service session issue_type
                description latitude longitude locality_id photos
                current_user now w Hn Hval)
      as (issue & Hiss & Hls & Hus & _ & _ & _ & _ & _ & Hout).
    cbv zeta in *. split; [exact Hus|]. split; [exact Hls|]. split.
    + destruct (create_issue _ _ _ _ _ _ _ _ _ _ _ w).2 as [e|resp] eqn:Hres.
      * destruct Hout as (-> & _). exists []. by rewrite app_nil_r.
      * destruct (create_issue_success settings storage_service session
                    issue_type description latitude longitude locality_id photos
                    current_user now w resp Hres)
          as (_ & rows & _ & _ & _ & _ & _ & Hph & _).
        eauto.
    + intros id Hid. rewrite Hiss. by rewrite lookup_insert_ne.
  - simpl. split; [reflexivity|]. split; [reflexivity|].
    split; [exists []; by rewrite app_nil_r | reflexivity].
Qed.

(** X2: a successful [create_issue] appends one photo row per uploaded file,
    in order, each for the new issue with the file's name, content type and
    byte length; the rows take consecutive ids from the photo sequence,
    which advances by their number; and when no older photo row names the
    new issue id, the response lists exactly these rows, with the storage
    key replaced by its URL. *)
Theorem create_issue_stores_one_row_per_photo issue_type description latitude
    longitude locality_id photos current_user now (w : World Blob)
    (resp : IssueResponse.t) :
  (create_issue settings storage_service session issue_type description latitude
     longitude locality_id photos current_user now w).2 = inr resp →
  ∃ rows,
    issue_photos
      (db (create_issue settings storage_service session issue_type description
             latitude longitude locality_id photos current_user now w).1)
    = issue_photos (db w) ++ rows
    ∧ Forall2 (photo_row_of (issues_id_seq (db w))) photos rows
    ∧ IssuePhoto.id <$> rows
      = seqZ (issue_photos_id_seq (db w)) (Py.len photos)
    ∧ issue_photos_id_seq
        (db (create_issue settings storage_service session issue_type
               description
               latitude longitude locality_id photos current_user now w).1)
      = issue_photos_id_seq (db w) + Py.len photos
    ∧ (Forall (λ p, IssuePhoto.issue_id p ≠ issues_id_seq (db w))
         (issue_photos (db w)) →
       IssueResponse.photos resp = map (photo_response storage_service) rows
       ∧ length (IssueResponse.photos resp) = length photos).
Proof.
  intros Hres.
  destruct (create_issue_success settings storage_service session issue_type
              description latitude longitude locality_id photos current_user
              now w resp Hres)
    as (issue & rows & _ & _ & _ & _ & _ & Hph & Hseq & Hids & Hrows & ->).
  cbv zeta in *. exists rows. repeat (split; [assumption|]).
  intros Hold. simpl. unfold photos_of. rewrite Hph, filter_app.
  assert (Hnone : filter
                    (λ p, IssuePhoto.issue_id p = issues_id_seq (db w))
                    (issue_photos (db w)) = []).
  { clear -Hold. induction Hold as [|p l Hp _ IH]; [reflexivity|].
    rewrite filter_cons_False by exact Hp. exact IH. }
  assert (Hall : filter
                   (λ p, IssuePhoto.issue_id p = issues_id_seq (db w)) rows
                 = rows).
  { clear -Hrows. induction Hrows as [|photo row ps rs [Hid _] _ IH];
      [reflexivity|].
    rewrite filter_cons_True by exact Hid. by rewrite IH. }
  rewrite Hnone, Hall. simpl. split; [reflexivity|].
  rewrite length_map. symmetry. by eapply Forall2_length.
Qed.

(** X3: [create_issue] keeps the store well formed (issue rows under their
    own id below the issue sequence; photo rows with distinct ids below the
    photo sequence, each belonging to a stored issue), and in a well-formed
    store the id it writes to was free: no issue is overwritten. *)
Theorem create_issue_keeps_store_ok issue_type description latitude
    longitude locality_id photos current_user now (w : World Blob) :
  store_ok (db w) →
  store_ok
    (db (create_issue settings storage_service session issue_type description
           latitude longitude locality_id photos current_user now w).1)
  ∧ issues (db w) !! issues_id_seq (db w) = None.
Proof.
  intros (Hissues & Hphotos & Hnodup).
  assert (Hfree : issues (db w) !! issues_id_seq (db w) = None).
  { destruct (issues (db w) !! issues_id_seq (db w)) as [i|] eqn:Hi;
      [|reflexivity].
    apply Hissues in Hi as [_ Hlt]. lia. }
  split; [|exact Hfree].
  destruct (create_issue_prechecks_cases settings storage_service session
              issue_type
              description latitude longitude locality_id photos current_user
              now w) as [[Hn Hval] | (e & -> & _)];
    [|simpl; exact (conj Hissues (conj Hphotos Hnodup))].
  destruct (create_issue_accepted settings storage_service session issue_type
              description latitude longitude locality_id photos current_user
              now w Hn Hval)
    as (issue & Hiss & _ & _ & Hseq & Hid & _ & _ & _ & Hout).
  cbv zeta in *.
  assert (Hissues' :
    ∀ id i,
      issues (db (create_issue settings storage_service session issue_type
                    description latitude longitude locality_id photos
                    current_user now w).1) !! id = Some i →
      Issue.id i = id
      ∧ id < issues_id_seq
               (db (create_issue settings storage_service session issue_type
                      description latitude longitude locality_id photos
                      current_user now w).1)).
  { intros id i. rewrite Hiss, Hseq, lookup_insert. case_decide as Hk.
    - intros [= <-]. subst id. split; [exact Hid | lia].
    - intros Hi. apply Hissues in Hi as [? ?]. split; [assumption | lia]. }
  split; [exact Hissues'|].
  destruct (create_issue _ _ _ _ _ _ _ _ _ _ _ w).2 as [e|resp] eqn:Hres.
  - destruct Hout as (Hph & Hkind). rewrite Hph, Hiss.
    split; [|exact Hnodup].
    eapply Forall_impl; [exact Hphotos|]. simpl. intros p [Hlt Hsome].
    split; [|by apply lookup_insert_keeps_is_Some].
    destruct Hkind as [(_ & ->) | (_ & skipped & ->)]; lia.
  - destruct (create_issue_success settings storage_service session issue_type
                description latitude longitude locality_id photos
                current_user now w resp Hres)
      as (_ & rows & _ & _ & _ & _ & _ & Hph & Hpseq & Hids & Hrows & _).
    cbv zeta in *. rewrite Hph, Hpseq, Hiss.
    assert (Hnew : Forall (λ p, issue_photos_id_seq (db w) ≤ IssuePhoto.id p
                                < issue_photos_id_seq (db w) + Py.len photos)
                     rows).
    { apply Forall_forall. intros p Hp.
      assert (Hin : IssuePhoto.id p ∈ IssuePhoto.id <$> rows)
        by (apply list_elem_of_fmap; eauto).
      rewrite Hids in Hin. apply elem_of_seqZ in Hin. lia. }
    split.
    + apply Forall_app. split.
      * eapply Forall_impl; [exact Hphotos|]. simpl. intros p [Hlt Hsome].
        split; [unfold Py.len; lia | by apply lookup_insert_keeps_is_Some].
      * apply Forall_forall. intros p Hp. split.
        -- rewrite Forall_forall in Hnew. apply Hnew in Hp. lia.
        -- assert (Hpid : IssuePhoto.issue_id p = issues_id_seq (db w)).
           { clear -Hrows Hp. induction Hrows as [|? ? ? ? [Hid _] _ IH];
               [by apply elem_of_nil in Hp|].
             apply elem_of_cons in Hp as [-> | Hp]; auto. }
           rewrite Hpid, lookup_insert_eq. eauto.
    + rewrite fmap_app. apply NoDup_app. split; [exact Hnodup|]. split.
      * intros x Hold Hnew'. rewrite Hids in Hnew'.
        apply elem_of_seqZ in Hnew'.
        apply list_elem_of_fmap in Hold as (p & -> & Hp).
        rewrite Forall_forall in Hphotos. apply Hphotos in Hp as [Hlt _]. lia.
      * rewrite Hids. apply NoDup_seqZ.
Qed.

(** X4: reading back the issue a successful [create_issue] answered with,
    in a later request with its own view of the storage service:
    [get_issue] finds it and returns the same id, type, description,
    locality, status, reporter, assignee and timestamps, no completion
    data, and the same photos in the same order (id, file name, size,
    content type and creation time; the URLs are signed per request and
    are not compared). *)
Theorem get_issue_after_create issue_type description latitude longitude
    locality_id photos current_user now (w : World Blob)
    (resp : IssueResponse.t) (reader : StorageService Blob) :
  (create_issue settings storage_service session issue_type description
     latitude longitude locality_id photos current_user now w).2
  = inr resp →
  ∃ r,
    get_issue reader (IssueResponse.id resp)
      (db (create_issue settings storage_service session issue_type
             description latitude longitude locality_id photos current_user
             now w).1)
    = inr r
    ∧ IssueResponse.id r = IssueResponse.id resp
    ∧ IssueResponse.issue_type r = IssueResponse.issue_type resp
    ∧ IssueResponse.description r = IssueResponse.description resp
    ∧ IssueResponse.locality_id r = IssueResponse.locality_id resp
    ∧ IssueResponse.status r = IssueResponse.status resp
    ∧ IssueResponse.user_id r = Some (User.id current_user)
    ∧ IssueResponse.assigned_parshad_id r
      = IssueResponse.assigned_parshad_id resp
    ∧ IssueResponse.created_at r = IssueResponse.created_at resp
    ∧ IssueResponse.updated_at r = IssueResponse.updated_at resp
    ∧ map photo_entry (IssueResponse.photos r)
      = map photo_entry (IssueResponse.photos resp)
    ∧ IssueResponse.completion_description r = None
    ∧ IssueResponse.completion_photo_url r = None
    ∧ IssueResponse.completed_at r = None
    ∧ IssueResponse.completed_by_id r = None.
Proof.
  intros Hres.
  destruct (create_issue_prechecks_cases settings storage_service session
              issue_type description latitude longitude locality_id photos
              current_user now w) as [[Hn Hval] | (e' & Hrej & _)];
    [|rewrite Hrej in Hres; discriminate].
  destruct (create_issue_accepted settings storage_service session
              issue_type description latitude longitude locality_id photos
              current_user now w Hn Hval)
    as (issue0 & Hiss0 & _ & _ & _ & _ & _ & _ & Hnull & _).
  destruct (create_issue_success settings storage_service session issue_type
              description latitude longitude locality_id photos current_user
              now w resp Hres)
    as (issue & rows & Hiss & Hid & Huser & _ & _ & _ & _ & _ & _ & ->).
  cbv zeta in *.
  assert (issue0 = issue) as ->.
  { apply (f_equal (λ m, m !! issues_id_seq (db w))) in Hiss0.
    rewrite Hiss, !lookup_insert_eq in Hiss0. congruence. }
  unfold completion_all_null, completion_fields in Hnull.
  injection Hnull as Hd Hu Ha Hb.
  simpl. unfold get_issue. rewrite Hid, Hiss, lookup_insert_eq.
  eexists. split; [reflexivity|]. unfold build_issue_response.
  destruct (match Issue.locality_id issue with Some _ => _ | None => _ end).
  simpl. rewrite Hid, Hd, Hu, Ha, Hb, Huser.
  repeat (split; [reflexivity|]). split; [|by repeat split].
  rewrite !map_map. reflexivity.
Qed.

End CreateIssueExtras.

(** ** Properties of the paginated list *)

Lemma insert_newest_first_perm (issue : Issue.t) (l : list Issue.t) :
  insert_newest_first issue l ≡ₚ issue :: l.
Proof.
  induction l as [|x rest IH]; simpl; [reflexivity|].
  destruct (_ <? _); [reflexivity|].
  rewrite IH. apply Permutation_swap.
Qed.

Lemma order_by_created_at_desc_perm (rows : list Issue.t) :
  order_by_created_at_desc rows ≡ₚ rows.
Proof.
  induction rows as [|x rest IH]; simpl; [reflexivity|].
  rewrite insert_newest_first_perm. by rewrite IH.
Qed.

Lemma insert_newest_first_sorted (issue : Issue.t) (l : list Issue.t) :
  newest_first l → newest_first (insert_newest_first issue l).
Proof.
  induction l as [|x rest IH]; simpl; [by split|].
  intros [Hx Hrest]. destruct (_ <? _) eqn:Hlt; simpl.
  - split; [|by split]. constructor; [lia|].
    eapply Forall_impl; [exact Hx|]. simpl. intros y Hy. lia.
  - split; [|auto]. rewrite insert_newest_first_perm.
    constructor; [lia | exact Hx].
Qed.

Lemma order_by_created_at_desc_sorted (rows : list Issue.t) :
  newest_first (order_by_created_at_desc rows).
Proof.
  induction rows as [|x rest IH]; simpl; [exact I|].
  by apply insert_newest_first_sorted.
Qed.

Lemma newest_first_drop (n : nat) (l : list Issue.t) :
  newest_first l → newest_first (drop n l).
Proof.
  revert l. induction n as [|n IH]; intros [|x rest]; simpl; auto.
  intros [_ Hrest]. auto.
Qed.

Lemma newest_first_take (n : nat) (l : list Issue.t) :
  newest_first l → newest_first (take n l).
Proof.
  revert l. induction n as [|n IH]; intros [|x rest]; simpl; auto.
  intros [Hx Hrest]. split; [|auto].
  apply Forall_forall. intros y Hy. rewrite Forall_forall in Hx.
  apply Hx. by eapply subseteq_take.
Qed.

(** Consecutive chunks of a list make up its prefix. *)
Lemma concat_chunks {A} (m n : nat) (l : list A) :
  concat (map (λ k, take m (drop (k * m) l)) (seq 0 n)) = take (n * m) l.
Proof.
  induction n as [|n IH]; [reflexivity|].
  rewrite seq_S, map_app, concat_app, IH. simpl. rewrite app_nil_r.
  rewrite take_take_drop. f_equal. lia.
Qed.

Lemma issue_rows_spec (d : DB) (issue : Issue.t) :
  issue ∈ issue_rows d ↔ ∃ issue_id, issues d !! issue_id = Some issue.
Proof.
  unfold issue_rows. rewrite list_elem_of_fmap. split.
  - intros ([k v] & -> & Hkv). apply elem_of_map_to_list in Hkv. eauto.
  - intros (k & Hk). exists (k, issue). split; [reflexivity|].
    by apply elem_of_map_to_list.
Qed.

(** With distinct creation times there is one way to put rows newest
    first. *)
Lemma newest_first_unique (l1 l2 : list Issue.t) :
  l1 ≡ₚ l2 →
  newest_first l1 →
  newest_first l2 →
  NoDup (Issue.created_at <$> l1) →
  l1 = l2.
Proof.
  revert l2. induction l1 as [|x l1 IH]; intros l2 Hperm H1 H2 Hnodup.
  - by apply Permutation_nil in Hperm.
  - destruct l2 as [|y l2];
      [symmetry in Hperm; by apply Permutation_nil_cons in Hperm|].
    rewrite fmap_cons in Hnodup. apply NoDup_cons in Hnodup as [Hx Hnodup].
    destruct H1 as [Hx1 H1], H2 as [Hy2 H2].
    assert (Hxy : x = y).
    { assert (Hy : y ∈ x :: l1)
        by (rewrite Hperm; apply list_elem_of_here).
      assert (Hx' : x ∈ y :: l2)
        by (rewrite <- Hperm; apply list_elem_of_here).
      apply elem_of_cons in Hy as [-> | Hy]; [reflexivity|].
      apply elem_of_cons in Hx' as [-> | Hx']; [reflexivity|].
      exfalso. apply Hx.
      rewrite Forall_forall in Hx1, Hy2.
      assert (Heq : Issue.created_at x = Issue.created_at y)
        by (pose proof (Hx1 y Hy); pose proof (Hy2 x Hx'); lia).
      rewrite Heq. apply list_elem_of_fmap. eauto. }
    subst y. f_equal. apply Permutation_cons_inv in Hperm. by apply IH.
Qed.

Lemma order_by_created_at_desc_orders :
  orders_newest_first order_by_created_at_desc.
Proof.
  intros rows.
  split; [apply order_by_created_at_desc_perm
         | apply order_by_created_at_desc_sorted].
Qed.

Section ListRouteProperties.

Context {Blob : Type}.
Variable storage_service : StorageService Blob.
Variable math_ceil_div : Z -> Z -> Z.

(** Within the declared bounds the body of [get_issues] runs. *)
Lemma get_issues_in_bounds order_by (page page_size : Z) issue_type
    status_filter (current_user : User.t) (d : DB) :
  1 ≤ page →
  1 ≤ page_size ≤ 100 →
  let matching :=
    List.filter
      (owned_and_matching (User.id current_user) issue_type status_filter)
      (issue_rows d) in
  get_issues storage_service math_ceil_div order_by page page_size
    issue_type status_filter current_user d
  = inr (IssueListResponse.mk
           (map (λ issue, build_issue_response storage_service issue d)
              (take (Z.to_nat page_size)
                 (drop (Z.to_nat ((page - 1) * page_size))
                    (order_by matching))))
           (Py.len matching) page page_size
           (if Py.len matching >? 0
            then math_ceil_div (Py.len matching) page_size else 1)).
Proof.
  intros Hpage Hsize. unfold get_issues.
  replace (page <? 1) with false by lia.
  replace (page_size <? 1) with false by lia.
  replace (100 <? page_size) with false by lia.
  reflexivity.
Qed.

(** X5: a request outside the bounds the route declares (page at least 1,
    page size from 1 to 100) is refused with status 422. Within them,
    whichever way the database orders rows of equal creation time,
    [get_issues] answers with a page: the total is the number of stored
    issues that the caller reported and that pass the given type and
    status filters, whatever the page; the page holds page_size items, or
    what is left of the total after the pages before it, or nothing; its
    items are the responses of such issues, newest first. *)
Theorem get_issues_page (order_by : list Issue.t → list Issue.t)
    (page page_size : Z) issue_type status_filter (current_user : User.t)
    (d : DB) :
  orders_newest_first order_by →
  (page < 1 ∨ page_size < 1 ∨ 100 < page_size →
   get_issues storage_service math_ceil_div order_by page page_size
     issue_type status_filter current_user d
   = inl (mkHTTPException HTTP_422_UNPROCESSABLE_ENTITY
            RequestValidationError))
  ∧ (1 ≤ page →
     1 ≤ page_size ≤ 100 →
     ∃ r,
       get_issues storage_service math_ceil_div order_by page page_size
         issue_type status_filter current_user d = inr r
       ∧ IssueListResponse.total r
         = Py.len (List.filter
                     (owned_and_matching (User.id current_user) issue_type
                        status_filter)
                     (issue_rows d))
       ∧ IssueListResponse.page r = page
       ∧ IssueListResponse.page_size r = page_size
       ∧ Py.len (IssueListResponse.items r)
         = Z.max 0 (Z.min page_size
                      (IssueListResponse.total r - (page - 1) * page_size))
       ∧ ∃ issues_page,
           IssueListResponse.items r
           = map (λ issue, build_issue_response storage_service issue d)
               issues_page
           ∧ newest_first issues_page
           ∧ ∀ issue,
               issue ∈ issues_page →
               (∃ issue_id, issues d !! issue_id = Some issue)
               ∧ Issue.user_id issue = Some (User.id current_user)
               ∧ from_option (λ t, Issue.issue_type issue = t) True
                   issue_type
               ∧ from_option (λ s, Issue.status issue = s) True
                   status_filter).
Proof.
  intros Horder. split.
  - intros Hout. unfold get_issues.
    destruct ((page <? 1) || (page_size <? 1) || (100 <? page_size))
      eqn:Hb; [reflexivity|].
    rewrite !orb_false_iff in Hb. lia.
  - intros Hpage Hsize.
    rewrite (get_issues_in_bounds order_by page page_size issue_type
               status_filter current_user d Hpage Hsize).
    set (matching := List.filter _ (issue_rows d)).
    destruct (Horder matching) as [Hperm Hsorted].
    eexists. split; [reflexivity|]. simpl.
    split; [reflexivity|]. split; [reflexivity|]. split; [reflexivity|].
    split.
    + unfold Py.len. rewrite length_map, length_take, length_drop, Hperm.
      nia.
    + eexists. split; [reflexivity|]. split.
      * by apply newest_first_take, newest_first_drop.
      * intros issue Hin. apply subseteq_take, subseteq_drop in Hin.
        rewrite Hperm in Hin. unfold matching in Hin.
        apply list_elem_of_In, filter_In in Hin as [Hrow Hmatch].
        apply list_elem_of_In, issue_rows_spec in Hrow.
        unfold owned_and_matching, matches_filters in Hmatch.
        rewrite !andb_true_iff, bool_decide_eq_true in Hmatch.
        destruct Hmatch as (Huser & Htype & Hstatus).
        split; [exact Hrow|]. split; [exact Huser|].
        destruct issue_type, status_filter; simpl;
          rewrite ?bool_decide_eq_true in *; auto.
Qed.

(** X6: when the matching issues (those of the caller that pass the
    filters) have pairwise distinct creation times, the first [n] pages of
    [get_issues], each asked for in a query of its own that the database
    orders as it likes among its newest-first answers, are all answered,
    and laid end to end they are the responses of all matching issues,
    newest first and each exactly once, as soon as [n] pages are enough to
    hold the total. *)
Theorem get_issues_pages_cover (n : nat)
    (order_by : nat → list Issue.t → list Issue.t) (page_size : Z)
    issue_type status_filter (current_user : User.t) (d : DB) :
  (∀ k, orders_newest_first (order_by k)) →
  1 ≤ page_size ≤ 100 →
  NoDup (Issue.created_at
           <$> List.filter
                 (owned_and_matching (User.id current_user) issue_type
                    status_filter)
                 (issue_rows d)) →
  Py.len (List.filter
            (owned_and_matching (User.id current_user) issue_type
               status_filter)
            (issue_rows d)) ≤ Z.of_nat n * page_size →
  ∃ pages all_issues,
    Forall2
      (λ k r,
         get_issues storage_service math_ceil_div (order_by k)
           (Z.of_nat k + 1) page_size issue_type status_filter current_user
           d = inr r)
      (seq 0 n) pages
    ∧ concat (IssueListResponse.items <$> pages)
      = map (λ issue, build_issue_response storage_service issue d)
          all_issues
    ∧ newest_first all_issues
    ∧ all_issues
      ≡ₚ List.filter
           (owned_and_matching (User.id current_user) issue_type
              status_filter)
           (issue_rows d).
Proof.
  intros Horder Hsize Hnodup Htotal.
  set (matching := List.filter _ (issue_rows d)) in *.
  set (sorted := order_by_created_at_desc matching).
  assert (Hsame : ∀ k, order_by k matching = sorted).
  { intros k. destruct (Horder k matching) as [Hperm Hsorted].
    apply newest_first_unique.
    - rewrite Hperm. unfold sorted.
      by rewrite order_by_created_at_desc_perm.
    - exact Hsorted.
    - apply order_by_created_at_desc_sorted.
    - by rewrite Hperm. }
  exists (map (λ k : nat,
                 IssueListResponse.mk
                   (map (λ issue, build_issue_response storage_service issue d)
                      (take (Z.to_nat page_size)
                         (drop (k * Z.to_nat page_size) sorted)))
                   (Py.len matching) (Z.of_nat k + 1) page_size
                   (if Py.len matching >? 0
                    then math_ceil_div (Py.len matching) page_size else 1))
            (seq 0 n)), sorted.
  split; [|split; [|split]].
  - apply Forall2_fmap_r, Forall_Forall2_diag, Forall_forall.
    intros k _.
    rewrite (get_issues_in_bounds (order_by k) (Z.of_nat k + 1) page_size
               issue_type status_filter current_user d ltac:(lia) Hsize).
    cbv zeta. fold matching. rewrite Hsame. do 5 f_equal. nia.
  - rewrite <- list_fmap_compose.
    transitivity
      (map (λ issue, build_issue_response storage_service issue d)
         (concat (map (λ k, take (Z.to_nat page_size)
                              (drop (k * Z.to_nat page_size) sorted))
                    (seq 0 n)))).
    + rewrite concat_map, map_map. reflexivity.
    + rewrite concat_chunks, take_ge; [reflexivity|].
      unfold sorted. rewrite order_by_created_at_desc_perm.
      unfold Py.len in Htotal. nia.
  - apply order_by_created_at_desc_sorted.
  - apply order_by_created_at_desc_perm.
Qed.

End ListRouteProperties.

(** ** Properties of the locality routes *)

Lemma first_filter_None {A} (f : A → bool) (l : list A) :
  first (List.filter f l) = None ↔ Forall (λ x, f x = false) l.
Proof.
  unfold first. induction l as [|x l IH]; simpl.
  - split; [constructor | reflexivity].
  - destruct (f x) eqn:Hx; simpl.
    + split; [discriminate|]. intros Hall. inversion Hall; congruence.
    + rewrite IH. split; [by constructor | by inversion 1].
Qed.

Lemma first_filter_Some {A} (f : A → bool) (l : list A) (x : A) :
  first (List.filter f l) = Some x → x ∈ l ∧ f x = true.
Proof.
  unfold first. intros Hx.
  assert (Hin : In x (List.filter f l)).
  { destruct (List.filter f l); [discriminate|].
    injection Hx as ->. by left. }
  apply filter_In in Hin as [Hin Hf]. split; [by apply list_elem_of_In | exact Hf].
Qed.

Lemma filter_len_zero {A} (f : A → bool) (l : list A) :
  (Py.len (List.filter f l) >? 0) = false ↔ Forall (λ x, f x = false) l.
Proof.
  unfold Py.len. induction l as [|x l IH]; cbn [List.filter].
  - split; [constructor | reflexivity].
  - destruct (f x) eqn:Hx.
    + split; [|intros Hall; inversion Hall; congruence].
      simpl length. rewrite Nat2Z.inj_succ, Z.gtb_ltb, Z.ltb_ge. lia.
    + rewrite IH. split; [by constructor | by inversion 1].
Qed.

Lemma locality_rows_spec (d : DB) (l : Locality.t) :
  l ∈ locality_rows d ↔ ∃ id, localities d !! id = Some l.
Proof.
  unfold locality_rows. rewrite list_elem_of_fmap. split.
  - intros ([k v] & -> & Hkv). apply elem_of_map_to_list in Hkv. eauto.
  - intros (k & Hk). exists (k, l). split; [reflexivity|].
    by apply elem_of_map_to_list.
Qed.

Lemma get_locality_details_active (d : DB) (id : Z) (loc : Locality.t) :
  localities d !! id = Some loc →
  Locality.is_active loc = true →
  get_locality_details id d = inr (public_locality d loc).
Proof.
  intros Hl Ha. unfold get_locality_details. by rewrite Hl, Ha.
Qed.

Lemma get_locality_details_inr (d : DB) (id : Z)
    (r : LocalityPublicResponse.t) :
  get_locality_details id d = inr r →
  ∃ loc, localities d !! id = Some loc ∧ Locality.is_active loc = true
         ∧ r = public_locality d loc.
Proof.
  unfold get_locality_details.
  destruct (localities d !! id) as [loc|]; [|discriminate].
  destruct (Locality.is_active loc) eqn:Ha; simpl; [|discriminate].
  intros [= <-]. eauto.
Qed.

Section PublicLocalityProperties.

Variable name_contains : string -> string -> bool.
Variable order_by_name : list Locality.t -> list Locality.t.

(** X7: when the ordering of the database only reorders rows and locality
    rows sit under their own id, the unfiltered public list holds exactly
    the answers of the public detail route: a locality is listed if and
    only if its detail page exists, with the same content (so an inactive
    locality is in neither); a filtered list holds only such answers; and
    [total] is the number of items. *)
Theorem public_list_agrees_with_details (d : DB) :
  (∀ rows, order_by_name rows ≡ₚ rows) →
  (∀ id loc, localities d !! id = Some loc → Locality.id loc = id) →
  (∀ r,
     r ∈ LocalityListPublicResponse.items
           (get_all_localities name_contains order_by_name None None d)
     ↔ ∃ id, get_locality_details id d = inr r)
  ∧ (∀ locality_type search r,
       r ∈ LocalityListPublicResponse.items
             (get_all_localities name_contains order_by_name locality_type
                search d) →
       get_locality_details (LocalityPublicResponse.id r) d = inr r
       ∧ from_option (λ t, LocalityPublicResponse.type r = t) True
           locality_type)
  ∧ (∀ locality_type search,
       LocalityListPublicResponse.total
         (get_all_localities name_contains order_by_name locality_type
            search d)
       = Py.len (LocalityListPublicResponse.items
                   (get_all_localities name_contains order_by_name
                      locality_type search d))).
Proof.
  intros Horder Hkeys.
  assert (Hlisted : ∀ locality_type search r,
            r ∈ LocalityListPublicResponse.items
                  (get_all_localities name_contains order_by_name
                     locality_type search d)
            ↔ ∃ id loc, localities d !! id = Some loc
                        ∧ listed_locality name_contains locality_type search
                            loc = true
                        ∧ r = public_locality d loc).
  { intros locality_type search r. unfold get_all_localities. simpl.
    rewrite list_elem_of_fmap. setoid_rewrite Horder.
    setoid_rewrite list_elem_of_In. setoid_rewrite filter_In.
    setoid_rewrite <- list_elem_of_In. setoid_rewrite locality_rows_spec.
    split.
    - intros (loc & -> & (id & Hid) & Hl). eauto.
    - intros (id & loc & Hid & Hl & ->). eauto 6. }
  split; [|split; [|reflexivity]].
  - intros r. rewrite Hlisted. split.
    + intros (id & loc & Hid & Hl & ->). exists id.
      unfold listed_locality in Hl. rewrite !andb_true_r in Hl.
      by apply get_locality_details_active.
    + intros (id & Hr). apply get_locality_details_inr in Hr
        as (loc & Hid & Ha & ->).
      exists id, loc. split; [exact Hid|]. split; [|reflexivity].
      unfold listed_locality. by rewrite Ha.
  - intros locality_type search r Hr. apply Hlisted in Hr
      as (id & loc & Hid & Hl & ->).
    unfold listed_locality in Hl. rewrite !andb_true_iff in Hl.
    destruct Hl as [[Ha Ht] _]. simpl. rewrite (Hkeys _ _ Hid). split.
    + by apply get_locality_details_active.
    + destruct locality_type; simpl; [|exact I].
      by apply bool_decide_eq_true in Ht.
Qed.

End PublicLocalityProperties.

(** ** Properties of the administrator's locality routes *)

Import Admin.

Lemma touch_locality_fields (now : Z) (old new : Locality.t) :
  Locality.id new = Locality.id old →
  Locality.type new = Locality.type old →
  Locality.created_at new = Locality.created_at old →
  Locality.updated_at new = Locality.updated_at old →
  let l := touch_locality now old new in
  Locality.id l = Locality.id old
  ∧ Locality.type l = Locality.type old
  ∧ Locality.created_at l = Locality.created_at old
  ∧ Locality.name l = Locality.name new
  ∧ Locality.is_active l = Locality.is_active new
  ∧ (l = old ∨ Locality.updated_at l = now)
  ∧ (Locality.name new = Locality.name old →
     Locality.is_active new = Locality.is_active old → l = old).
Proof.
  intros Hid Hty Hc Hu. unfold touch_locality. simpl.
  destruct (bool_decide (Locality.name new = Locality.name old)) eqn:Hn;
    [destruct (bool_decide (Locality.is_active new = Locality.is_active old))
       eqn:Ha|]; simpl;
    rewrite ?bool_decide_eq_true, ?bool_decide_eq_false in *;
    repeat split; auto; try congruence; intros; contradiction.
Qed.

(** What a successful [update_locality] did. *)
Lemma update_locality_success (locality_id : Z)
    (update_data : UpdateLocalityRequest.t) (admin_user : User.t) (now : Z)
    (d d' : DB) (resp : LocalityResponse.t) :
  update_locality locality_id update_data admin_user now d = (d', inr resp) →
  ∃ old new,
    localities d !! locality_id = Some old
    ∧ d' = set_localities (<[locality_id := new]> (localities d)) d
    ∧ Locality.id new = Locality.id old
    ∧ Locality.type new = Locality.type old
    ∧ Locality.created_at new = Locality.created_at old
    ∧ Locality.name new
      = default (Locality.name old) (UpdateLocalityRequest.name update_data)
    ∧ Locality.is_active new
      = default (Locality.is_active old)
          (UpdateLocalityRequest.is_active update_data)
    ∧ (new = old ∨ Locality.updated_at new = now)
    ∧ (Locality.name new = Locality.name old →
       Locality.is_active new = Locality.is_active old → new = old)
    ∧ (∀ name', UpdateLocalityRequest.name update_data = Some name' →
         Forall (λ l, Locality.name l = name' →
                      Locality.type l = Locality.type old →
                      Locality.id l = locality_id)
           (locality_rows d))
    ∧ resp = locality_response new
               (representative_count (Locality.id new) d')
               (issue_count (Locality.id new) d').
Proof.
  unfold update_locality.
  destruct (localities d !! locality_id) as [old|]; [|discriminate].
  destruct (match UpdateLocalityRequest.name update_data with
            | Some _ => _ | None => _ end) as [dup|] eqn:Hdup; [discriminate|].
  intros [= <- <-].
  destruct (touch_locality_fields now old
              (Locality.mk (Locality.id old)
                 (default (Locality.name old)
                    (UpdateLocalityRequest.name update_data))
                 (Locality.type old)
                 (default (Locality.is_active old)
                    (UpdateLocalityRequest.is_active update_data))
                 (Locality.created_at old) (Locality.updated_at old))
              eq_refl eq_refl eq_refl eq_refl)
    as (Hid & Hty & Hc & Hn & Ha & Hu & Hsame).
  simpl in Hn, Ha, Hsame.
  eexists old, _. split; [reflexivity|]. split; [reflexivity|].
  split; [exact Hid|]. split; [exact Hty|]. split; [exact Hc|].
  split; [exact Hn|]. split; [exact Ha|]. split; [exact Hu|].
  split; [by rewrite Hn, Ha|]. split; [|reflexivity].
  intros name' Hname. rewrite Hname in Hdup.
  apply first_filter_None in Hdup.
  eapply Forall_impl; [exact Hdup|]. simpl. intros l Hl Hln Hlt.
  rewrite !andb_false_iff, !bool_decide_eq_false, negb_false_iff,
    bool_decide_eq_true in Hl.
  destruct Hl as [[?|?]|?]; [contradiction | contradiction | assumption].
Qed.

Lemma update_locality_failure (locality_id : Z)
    (update_data : UpdateLocalityRequest.t) (admin_user : User.t) (now : Z)
    (d d' : DB) (e : ApiError) :
  update_locality locality_id update_data admin_user now d = (d', inl e) →
  d' = d.
Proof.
  unfold update_locality.
  destruct (localities d !! locality_id); [|by intros [= <-]].
  destruct (match UpdateLocalityRequest.name update_data with
            | Some _ => _ | None => _ end); [|discriminate].
  by intros [= <-].
Qed.

(** When [delete_locality] deletes. *)
Lemma delete_locality_cases (locality_id : Z) (admin_user : User.t) (d : DB) :
  (∃ e, delete_locality locality_id admin_user d = (d, inl e))
  ∨ (is_Some (localities d !! locality_id)
     ∧ Forall (λ i, Issue.locality_id i ≠ Some locality_id) (issue_rows d)
     ∧ Forall (λ u, User.locality_id u ≠ Some locality_id) (users d)
     ∧ delete_locality locality_id admin_user d
       = (set_localities (delete locality_id (localities d)) d, inr tt)).
Proof.
  unfold delete_locality.
  destruct (localities d !! locality_id) as [loc|]; [|left; eauto].
  unfold issue_count, user_count.
  destruct (_ >? 0) eqn:Hi; [left; eauto|].
  destruct (Py.len (List.filter _ (users d)) >? 0) eqn:Hu; [left; eauto|].
  right. apply filter_len_zero in Hi, Hu. split; [eauto|].
  split; [|split; [|reflexivity]].
  - eapply Forall_impl; [exact Hi|]. simpl. intros i.
    by rewrite bool_decide_eq_false.
  - eapply Forall_impl; [exact Hu|]. simpl. intros u.
    by rewrite bool_decide_eq_false.
Qed.

(** X8: the locality writes keep the locality table well formed (rows under
    their own id, no two rows with the same name within a type):
    [create_locality] when the id the database hands out is free,
    [update_locality] and [delete_locality] always. *)
Theorem locality_writes_keep_table_ok (d : DB) :
  locality_table_ok d →
  (∀ locality_data admin_user new_id now,
     localities d !! new_id = None →
     locality_table_ok
       (create_locality locality_data admin_user new_id now d).1)
  ∧ (∀ locality_id update_data admin_user now,
       locality_table_ok
         (update_locality locality_id update_data admin_user now d).1)
  ∧ (∀ locality_id admin_user,
       locality_table_ok (delete_locality locality_id admin_user d).1).
Proof.
  intros [Hkeys Huniq]. split; [|split].
  - intros data admin_user new_id now Hfree. unfold create_locality.
    destruct (first _) as [dup|] eqn:Hdup; [by split|].
    apply first_filter_None in Hdup. rewrite Forall_forall in Hdup.
    assert (Hnew : ∀ id l, localities d !! id = Some l →
                     ¬ (Locality.name l = CreateLocalityRequest.name data
                        ∧ Locality.type l = CreateLocalityRequest.type data)).
    { intros id l Hl [Hn Ht].
      assert (Hin : l ∈ locality_rows d) by (apply locality_rows_spec; eauto).
      apply Hdup in Hin. rewrite andb_false_iff, !bool_decide_eq_false in Hin.
      tauto. }
    unfold locality_table_ok. simpl. split.
    + intros id l. rewrite lookup_insert. case_decide.
      * intros [= <-]. simpl. congruence.
      * apply Hkeys.
    + intros id1 id2 l1 l2. rewrite !lookup_insert.
      repeat case_decide; subst.
      * congruence.
      * intros [= <-] Hl2 Hn Ht. simpl in *. exfalso.
        eapply Hnew; eauto.
      * intros Hl1 [= <-] Hn Ht. simpl in *. exfalso.
        eapply Hnew; eauto.
      * apply Huniq.
  - intros locality_id update_data admin_user now.
    destruct (update_locality locality_id update_data admin_user now d)
      as [d' [e|resp]] eqn:Hup.
    + apply update_locality_failure in Hup as ->. by split.
    + apply update_locality_success in Hup
        as (old & new & Hold & -> & Hid & Hty & _ & Hname & _ & _ & _
            & Hdup & _).
      unfold locality_table_ok. simpl. split.
      * intros id l. rewrite lookup_insert. case_decide.
        -- intros [= <-]. subst id. rewrite Hid. by apply Hkeys.
        -- apply Hkeys.
      * assert (Hother : ∀ id l,
                  localities d !! id = Some l → id ≠ locality_id →
                  Locality.name l = Locality.name new →
                  Locality.type l = Locality.type new → False).
        { intros id l Hl Hne Hn Ht. rewrite Hname in Hn. rewrite Hty in Ht.
          destruct (UpdateLocalityRequest.name update_data) as [name'|];
            simpl in Hn.
          - specialize (Hdup name' eq_refl). rewrite Forall_forall in Hdup.
            assert (Hin : l ∈ locality_rows d)
              by (apply locality_rows_spec; eauto).
            specialize (Hdup l Hin Hn Ht). rewrite (Hkeys _ _ Hl) in Hdup.
            contradiction.
          - apply Hne. by eapply Huniq. }
        intros id1 id2 l1 l2. rewrite !lookup_insert.
        repeat case_decide; subst.
        -- congruence.
        -- intros [= <-] Hl2 Hn Ht. exfalso. eapply (Hother id2); eauto.
        -- intros Hl1 [= <-] Hn Ht. exfalso. eapply (Hother id1); eauto.
        -- apply Huniq.
  - intros locality_id admin_user.
    destruct (delete_locality_cases locality_id admin_user d)
      as [(e & ->) | (_ & _ & _ & ->)]; [by split|].
    unfold locality_table_ok. simpl. split.
    + intros id l Hl. apply lookup_delete_Some in Hl as [_ Hl]. eauto.
    + intros id1 id2 l1 l2 Hl1 Hl2.
      apply lookup_delete_Some in Hl1 as [_ Hl1].
      apply lookup_delete_Some in Hl2 as [_ Hl2]. eauto.
Qed.

(** ** Properties of the administrator's user routes *)

Lemma get_user_row_Some (user_id : Z) (d : DB) (u : User.t) :
  get_user_row user_id d = Some u → u ∈ users d ∧ User.id u = user_id.
Proof.
  unfold get_user_row. intros Hf. apply find_some in Hf as [Hin Hid].
  split; [by apply list_elem_of_In | by apply bool_decide_eq_true in Hid].
Qed.

Lemma get_user_row_None (user_id : Z) (d : DB) :
  get_user_row user_id d = None → Forall (λ u, User.id u ≠ user_id) (users d).
Proof.
  unfold get_user_row. intros Hf. apply Forall_forall. intros u Hu Hid.
  apply list_elem_of_In in Hu.
  pose proof (find_none _ _ Hf u Hu) as Hn. simpl in Hn.
  by apply bool_decide_eq_false in Hn.
Qed.

Lemma elem_of_replace_user (u' x : User.t) (us : list User.t) :
  x ∈ replace_user u' us
  ↔ (x = u' ∧ ∃ u, u ∈ us ∧ User.id u = User.id u')
    ∨ (x ∈ us ∧ User.id x ≠ User.id u').
Proof.
  unfold replace_user. rewrite list_elem_of_fmap. split.
  - intros (u & -> & Hu). case_bool_decide; [left | right]; eauto.
  - intros [[-> (u & Hu & Hid)] | [Hx Hne]].
    + exists u. split; [|exact Hu]. by rewrite bool_decide_eq_true_2.
    + exists x. split; [|exact Hx]. by rewrite bool_decide_eq_false_2.
Qed.

Lemma replace_user_ids (u' : User.t) (us : list User.t) :
  User.id <$> replace_user u' us = User.id <$> us.
Proof.
  unfold replace_user. induction us as [|u us IH]; [reflexivity|].
  cbn [map]. rewrite !fmap_cons, IH. f_equal. by case_bool_decide.
Qed.

Lemma replace_user_mobiles (u' old : User.t) (us : list User.t) :
  NoDup (User.id <$> us) →
  old ∈ us →
  User.id u' = User.id old →
  User.mobile_number u' = User.mobile_number old →
  User.mobile_number <$> replace_user u' us = User.mobile_number <$> us.
Proof.
  intros Hnd Hold Hid Hm. unfold replace_user.
  induction us as [|u us IH]; [reflexivity|].
  rewrite fmap_cons in Hnd. apply NoDup_cons in Hnd as [Hnotin Hnd].
  cbn [map]. rewrite !fmap_cons.
  apply elem_of_cons in Hold as [<- | Hold].
  - rewrite bool_decide_eq_true_2 by (symmetry; exact Hid).
    f_equal; [exact Hm|].
    clear IH. induction us as [|v us IH]; [reflexivity|].
    rewrite fmap_cons, not_elem_of_cons in Hnotin.
    destruct Hnotin as [Hne Hnotin].
    rewrite fmap_cons in Hnd. apply NoDup_cons in Hnd as [_ Hnd].
    cbn [map]. rewrite !fmap_cons.
    rewrite bool_decide_eq_false_2 by congruence. f_equal. by apply IH.
  - rewrite bool_decide_eq_false_2.
    + f_equal. by apply IH.
    + intros Heq. apply Hnotin. rewrite Heq, Hid.
      apply list_elem_of_fmap. eauto.
Qed.

Lemma touch_user_fields (now : Z) (old new : User.t) :
  User.id new = User.id old →
  User.mobile_number new = User.mobile_number old →
  User.created_at new = User.created_at old →
  let u := touch_user now old new in
  User.id u = User.id old
  ∧ User.mobile_number u = User.mobile_number old
  ∧ User.created_at u = User.created_at old
  ∧ User.name u = User.name new
  ∧ User.role u = User.role new
  ∧ User.is_active u = User.is_active new
  ∧ User.is_verified u = User.is_verified new
  ∧ User.locality_id u = User.locality_id new
  ∧ (u = old ∨ User.updated_at u = now)
  ∧ (User.name new = User.name old → User.role new = User.role old →
     User.is_active new = User.is_active old →
     User.is_verified new = User.is_verified old →
     User.locality_id new = User.locality_id old → u = old).
Proof.
  intros Hid Hm Hc. unfold touch_user. simpl.
  destruct (bool_decide (User.name new = User.name old)
            && bool_decide (User.role new = User.role old)
            && bool_decide (User.is_active new = User.is_active old)
            && bool_decide (User.is_verified new = User.is_verified old)
            && bool_decide (User.locality_id new = User.locality_id old))
    eqn:Hsame.
  - rewrite !andb_true_iff, !bool_decide_eq_true in Hsame.
    destruct Hsame as ((((? & ?) & ?) & ?) & ?).
    repeat split; auto.
  - simpl. repeat split; auto.
    intros. exfalso. revert Hsame.
    rewrite !bool_decide_eq_true_2 by assumption. discriminate.
Qed.

(** The outcome of [create_user]. *)
Lemma create_user_cases (user_data : CreateUserRequest.t)
    (admin_user : User.t) (new_id now : Z) (d : DB) :
  (∃ e, create_user user_data admin_user new_id now d = (d, inl e)
        ∧ (api_status e = HTTP_400_BAD_REQUEST
           ∨ api_status e = HTTP_404_NOT_FOUND))
  ∨ (CreateUserRequest.role user_data ≠ USER
     ∧ (CreateUserRequest.role user_data = REPRESENTATIVE →
        is_Some (CreateUserRequest.locality_id user_data))
     ∧ (∀ lid, CreateUserRequest.locality_id user_data = Some lid →
          ∃ loc, localities d !! lid = Some loc
                 ∧ Locality.is_active loc = true)
     ∧ ∃ u,
         User.role u = CreateUserRequest.role user_data
         ∧ User.is_verified u = true
         ∧ User.mobile_number u
           = PyText.normalize_phone_number
               (CreateUserRequest.mobile_number user_data)
         ∧ ((User.id u = new_id
             ∧ User.name u = CreateUserRequest.name user_data
             ∧ User.is_active u = true
             ∧ User.locality_id u = CreateUserRequest.locality_id user_data
             ∧ Forall (λ v, User.mobile_number v ≠ User.mobile_number u)
                 (users d)
             ∧ create_user user_data admin_user new_id now d
               = (set_users (users d ++ [u]) d,
                  inr (_build_user_response u
                         (set_users (users d ++ [u]) d))))
            ∨ (∃ old,
                 old ∈ users d
                 ∧ User.role old ≠ CreateUserRequest.role user_data
                 ∧ User.id u = User.id old
                 ∧ User.mobile_number u = User.mobile_number old
                 ∧ User.name u = User.name old
                 ∧ User.is_active u = User.is_active old
                 ∧ User.locality_id u
                   = default (User.locality_id old)
                       (Some <$> CreateUserRequest.locality_id user_data)
                 ∧ create_user user_data admin_user new_id now d
                   = (set_users (replace_user u (users d)) d,
                      inr (_build_user_response u
                             (set_users (replace_user u (users d)) d)))))).
Proof.
  unfold create_user.
  case_bool_decide as Hrole; [left; eexists; split; [reflexivity | by left]|].
  destruct (bool_decide (CreateUserRequest.role user_data = REPRESENTATIVE)
            && bool_decide (CreateUserRequest.locality_id user_data = None))
    eqn:Hrep; [left; eexists; split; [reflexivity | by left]|].
  assert (Hrep' : CreateUserRequest.role user_data = REPRESENTATIVE →
                  is_Some (CreateUserRequest.locality_id user_data)).
  { intros Hr. rewrite andb_false_iff, !bool_decide_eq_false in Hrep.
    destruct Hrep as [?|Hl]; [contradiction|].
    by destruct (CreateUserRequest.locality_id user_data). }
  destruct (match CreateUserRequest.locality_id user_data with
            | Some _ => _ | None => _ end) as [e|] eqn:Hloc.
  { left. exists e. split; [reflexivity|].
    destruct (CreateUserRequest.locality_id user_data) as [lid|];
      [|discriminate].
    destruct (localities d !! lid) as [loc|];
      [destruct (Locality.is_active loc); simpl in Hloc|];
      try discriminate; injection Hloc as <-; auto. }
  assert (Hloc' : ∀ lid, CreateUserRequest.locality_id user_data = Some lid →
                    ∃ loc, localities d !! lid = Some loc
                           ∧ Locality.is_active loc = true).
  { intros lid Hlid. rewrite Hlid in Hloc.
    destruct (localities d !! lid) as [loc|]; [|discriminate].
    destruct (Locality.is_active loc) eqn:Ha; [eauto | discriminate]. }
  clear Hloc Hrep.
  destruct (first _) as [old|] eqn:Hfirst.
  - apply first_filter_Some in Hfirst as [Hold Hmob].
    apply bool_decide_eq_true in Hmob.
    case_bool_decide as Hsame;
      [left; eexists; split; [reflexivity | by left]|].
    right. split; [exact Hrole|]. split; [exact Hrep'|]. split; [exact Hloc'|].
    match goal with
    | |- context [touch_user now old ?n] =>
        destruct (touch_user_fields now old n eq_refl eq_refl eq_refl)
          as (Hid & Hm & _ & Hn & Hr & Ha & Hv & Hl & _)
    end.
    cbv zeta in *. simpl in Hn, Hr, Ha, Hv, Hl.
    eexists. split; [exact Hr|]. split; [exact Hv|].
    split; [by rewrite Hm|]. right. exists old.
    split; [exact Hold|]. split; [exact Hsame|]. split; [exact Hid|].
    split; [exact Hm|]. split; [exact Hn|]. split; [exact Ha|].
    split; [exact Hl | reflexivity].
  - apply first_filter_None in Hfirst.
    right. split; [exact Hrole|]. split; [exact Hrep'|]. split; [exact Hloc'|].
    exists (User.mk new_id (CreateUserRequest.name user_data)
              (PyText.normalize_phone_number
                 (CreateUserRequest.mobile_number user_data))
              (CreateUserRequest.role user_data) true true
              (CreateUserRequest.locality_id user_data) now now).
    split; [reflexivity|]. split; [reflexivity|].
    split; [reflexivity|]. left.
    split; [reflexivity|]. split; [reflexivity|]. split; [reflexivity|].
    split; [reflexivity|]. split; [|reflexivity].
    eapply Forall_impl; [exact Hfirst|]. simpl. intros v.
    by rewrite bool_decide_eq_false.
Qed.

(** The outcome of [update_user]. *)
Lemma update_user_cases (user_id : Z) (update_data : UpdateUserRequest.t)
    (admin_user : User.t) (now : Z) (d : DB) :
  (∃ e, update_user user_id update_data admin_user now d = (d, inl e))
  ∨ ∃ old u,
      get_user_row user_id d = Some old
      ∧ (User.id old = User.id admin_user →
         UpdateUserRequest.role update_data = None
         ∨ UpdateUserRequest.role update_data = Some ADMIN)
      ∧ (∀ lid, UpdateUserRequest.locality_id update_data = Some lid →
           is_Some (localities d !! lid))
      ∧ User.id u = User.id old
      ∧ User.mobile_number u = User.mobile_number old
      ∧ User.created_at u = User.created_at old
      ∧ User.is_verified u = User.is_verified old
      ∧ User.name u
        = default (User.name old) (UpdateUserRequest.name update_data)
      ∧ User.role u
        = default (User.role old) (UpdateUserRequest.role update_data)
      ∧ User.is_active u
        = default (User.is_active old)
            (UpdateUserRequest.is_active update_data)
      ∧ User.locality_id u
        = default (User.locality_id old)
            (Some <$> UpdateUserRequest.locality_id update_data)
      ∧ update_user user_id update_data admin_user now d
        = (set_users (replace_user u (users d)) d,
           inr (_build_user_response u
                  (set_users (replace_user u (users d)) d))).
Proof.
  unfold update_user.
  destruct (get_user_row user_id d) as [old|]; [|left; eauto].
  destruct (bool_decide (User.id old = User.id admin_user) && _) eqn:Hself;
    [left; eauto|].
  destruct (match UpdateUserRequest.locality_id update_data with
            | Some _ => _ | None => _ end) eqn:Hloc; [left; eauto|].
  right.
  match goal with
  | |- context [touch_user now old ?n] =>
      destruct (touch_user_fields now old n eq_refl eq_refl eq_refl)
        as (Hid & Hm & Hc & Hn & Hr & Ha & Hv & Hl & _)
  end.
  cbv zeta in *. simpl in Hn, Hr, Ha, Hv, Hl.
  eexists old, _. split; [reflexivity|]. split.
  { intros Hme. rewrite bool_decide_eq_true_2 in Hself by exact Hme.
    simpl in Hself.
    destruct (UpdateUserRequest.role update_data) as [r|]; [|by left].
    right. apply negb_false_iff, bool_decide_eq_true in Hself. by subst. }
  split.
  { intros lid Hlid. rewrite Hlid in Hloc.
    apply bool_decide_eq_false in Hloc.
    by destruct (localities d !! lid). }
  split; [exact Hid|]. split; [exact Hm|]. split; [exact Hc|].
  split; [exact Hv|]. split; [exact Hn|]. split; [exact Hr|].
  split; [exact Ha|]. split; [exact Hl | reflexivity].
Qed.

(** The outcome of [deactivate_user]. *)
Lemma deactivate_user_cases (user_id : Z) (admin_user : User.t) (now : Z)
    (d : DB) :
  (∃ e, deactivate_user user_id admin_user now d = (d, inl e)
        ∧ (get_user_row user_id d = None
           ∨ ∃ old, get_user_row user_id d = Some old
                    ∧ User.id old = User.id admin_user))
  ∨ ∃ old u,
      get_user_row user_id d = Some old
      ∧ User.id old ≠ User.id admin_user
      ∧ User.id u = User.id old
      ∧ User.mobile_number u = User.mobile_number old
      ∧ User.name u = User.name old
      ∧ User.role u = User.role old
      ∧ User.locality_id u = User.locality_id old
      ∧ User.is_active u = false
      ∧ (User.is_active old = false → u = old)
      ∧ deactivate_user user_id admin_user now d
        = (set_users (replace_user u (users d)) d, inr tt).
Proof.
  unfold deactivate_user.
  destruct (get_user_row user_id d) as [old|]; [|left; eauto].
  case_bool_decide as Hself; [left; eauto 6|]. right.
  match goal with
  | |- context [touch_user now old ?n] =>
      destruct (touch_user_fields now old n eq_refl eq_refl eq_refl)
        as (Hid & Hm & _ & Hn & Hr & Ha & _ & Hl & _ & Hsame)
  end.
  cbv zeta in *. simpl in Hn, Hr, Ha, Hl, Hsame.
  eexists old, _. split; [reflexivity|]. split; [exact Hself|].
  split; [exact Hid|]. split; [exact Hm|]. split; [exact Hn|].
  split; [exact Hr|]. split; [exact Hl|]. split; [exact Ha|].
  split; [|reflexivity]. intros Hina. apply Hsame; auto.
Qed.

Lemma filter_nil_of_Forall {A} (f : A → bool) (l : list A) :
  Forall (λ x, f x = false) l → List.filter f l = [].
Proof.
  induction 1 as [|x l Hx _ IH]; simpl; [reflexivity|]. by rewrite Hx.
Qed.

(** X9: a locality that [create_locality] has just created (under a free
    id, in a database whose users and issues name only existing localities)
    is what [get_locality] returns for that id, active and with the zero
    counts of the creation response; the public detail page shows it with
    no representative; users, issues and every other locality are as
    before. *)
Theorem create_locality_then_get (locality_data : CreateLocalityRequest.t)
    (admin_user viewer : User.t) (new_id now : Z) (d d' : DB)
    (resp : LocalityResponse.t) :
  localities d !! new_id = None →
  refs_ok d →
  create_locality locality_data admin_user new_id now d = (d', inr resp) →
  get_locality new_id viewer d' = inr resp
  ∧ resp = LocalityResponse.mk new_id
             (CreateLocalityRequest.name locality_data)
             (CreateLocalityRequest.type locality_data) true now now 0 0
  ∧ get_locality_details new_id d'
    = inr (LocalityPublicResponse.mk new_id
             (CreateLocalityRequest.name locality_data)
             (CreateLocalityRequest.type locality_data) [])
  ∧ users d' = users d
  ∧ issues d' = issues d
  ∧ (∀ id, id ≠ new_id → localities d' !! id = localities d !! id).
Proof.
  intros Hfree [Husers Hissues]. unfold create_locality.
  destruct (first _); [discriminate|]. intros [= <- <-].
  assert (Hnou : Forall (λ u, User.locality_id u ≠ Some new_id) (users d)).
  { apply Forall_forall. intros u Hu Hl.
    destruct (Husers u new_id Hu Hl) as [x Hx]. congruence. }
  assert (Hnoi : Forall (λ i, Issue.locality_id i ≠ Some new_id)
                   (issue_rows d)).
  { apply Forall_forall. intros i Hi Hl. apply issue_rows_spec in Hi as [k Hk].
    destruct (Hissues k i new_id Hk Hl) as [x Hx]. congruence. }
  split; [|split; [reflexivity|split; [|split; [reflexivity|split;
    [reflexivity|]]]]].
  - unfold get_locality. simpl. rewrite lookup_insert_eq. simpl.
    unfold locality_response, representative_count, issue_count, issue_rows.
    simpl. rewrite !filter_nil_of_Forall; [reflexivity| |].
    + eapply Forall_impl; [exact Hnoi|]. simpl. intros i Hi.
      by apply bool_decide_eq_false.
    + eapply Forall_impl; [exact Hnou|]. simpl. intros u Hu.
      apply andb_false_iff. left. by apply bool_decide_eq_false.
  - unfold get_locality_details. simpl. rewrite lookup_insert_eq. simpl.
    unfold select_representatives. simpl.
    rewrite filter_nil_of_Forall; [reflexivity|].
    eapply Forall_impl; [exact Hnou|]. simpl. intros u Hu.
    unfold is_active_representative_of.
    rewrite (bool_decide_eq_false_2 _ Hu). by rewrite andb_false_r.
  - intros id Hne. simpl. by rewrite lookup_insert_ne.
Qed.

(** X10: [update_locality] either fails and changes nothing, or rewrites
    the one locality row: its id, type and creation time stay, name and
    active flag take the given values (absent ones stay), [updated_at]
    moves to the current time unless nothing changed, users, issues and
    the other localities stay; afterwards the public detail page answers
    404 when the locality is inactive and shows it when it is active. *)
Theorem update_locality_effect (locality_id : Z)
    (update_data : UpdateLocalityRequest.t) (admin_user : User.t) (now : Z)
    (d d' : DB) (r : ApiError + LocalityResponse.t) :
  update_locality locality_id update_data admin_user now d = (d', r) →
  match r with
  | inl e => d' = d
  | inr resp =>
      ∃ old new,
        localities d !! locality_id = Some old
        ∧ localities d' !! locality_id = Some new
        ∧ (∀ id, id ≠ locality_id → localities d' !! id = localities d !! id)
        ∧ users d' = users d
        ∧ issues d' = issues d
        ∧ Locality.id new = Locality.id old
        ∧ Locality.type new = Locality.type old
        ∧ Locality.created_at new = Locality.created_at old
        ∧ Locality.name new
          = default (Locality.name old) (UpdateLocalityRequest.name update_data)
        ∧ Locality.is_active new
          = default (Locality.is_active old)
              (UpdateLocalityRequest.is_active update_data)
        ∧ (new = old ∨ Locality.updated_at new = now)
        ∧ (Locality.name new = Locality.name old →
           Locality.is_active new = Locality.is_active old → new = old)
        ∧ LocalityResponse.name resp = Locality.name new
        ∧ LocalityResponse.is_active resp = Locality.is_active new
        ∧ get_locality_details locality_id d'
          = if Locality.is_active new then inr (public_locality d' new)
            else inl (mkHTTPException HTTP_404_NOT_FOUND LocalityNotFound)
  end.
Proof.
  intros Hup. destruct r as [e|resp].
  - by apply update_locality_failure in Hup.
  - apply update_locality_success in Hup
      as (old & new & Hold & -> & Hid & Hty & Hc & Hn & Ha & Hu & Hsame
          & _ & ->).
    exists old, new. simpl. rewrite lookup_insert_eq.
    split; [exact Hold|]. split; [reflexivity|].
    split; [intros id Hne; by rewrite lookup_insert_ne|].
    split; [reflexivity|]. split; [reflexivity|].
    split; [exact Hid|]. split; [exact Hty|]. split; [exact Hc|].
    split; [exact Hn|]. split; [exact Ha|]. split; [exact Hu|].
    split; [exact Hsame|]. split; [reflexivity|]. split; [reflexivity|].
    unfold get_locality_details. simpl. rewrite lookup_insert_eq.
    by destruct (Locality.is_active new).
Qed.

(** X11: [delete_locality] succeeds exactly when the locality exists and no
    issue and no user names it; a failure changes nothing; after a success
    the locality is gone from the table, users and issues are untouched,
    and both the administrator's and the public detail route answer 404
    for its id. *)
Theorem delete_locality_effect (locality_id : Z) (admin_user viewer : User.t)
    (d : DB) :
  ((delete_locality locality_id admin_user d).2 = inr tt
   ↔ is_Some (localities d !! locality_id)
     ∧ (∀ issue_id issue,
          issues d !! issue_id = Some issue →
          Issue.locality_id issue ≠ Some locality_id)
     ∧ (∀ u, u ∈ users d → User.locality_id u ≠ Some locality_id))
  ∧ (∀ e, (delete_locality locality_id admin_user d).2 = inl e →
          (delete_locality locality_id admin_user d).1 = d)
  ∧ ((delete_locality locality_id admin_user d).2 = inr tt →
     localities (delete_locality locality_id admin_user d).1
     = delete locality_id (localities d)
     ∧ users (delete_locality locality_id admin_user d).1 = users d
     ∧ issues (delete_locality locality_id admin_user d).1 = issues d
     ∧ get_locality locality_id viewer
         (delete_locality locality_id admin_user d).1
       = inl (mkApiError HTTP_404_NOT_FOUND "Locality not found")
     ∧ get_locality_details locality_id
         (delete_locality locality_id admin_user d).1
       = inl (mkHTTPException HTTP_404_NOT_FOUND LocalityNotFound)).
Proof.
  split; [|split].
  - split.
    + intros Hok.
      destruct (delete_locality_cases locality_id admin_user d)
        as [(e & He) | (Hsome & Hi & Hu & _)];
        [rewrite He in Hok; discriminate|].
      split; [exact Hsome|]. split.
      * intros k i Hk. rewrite Forall_forall in Hi. apply Hi.
        apply issue_rows_spec. eauto.
      * by apply Forall_forall.
    + intros ([loc Hloc] & Hi & Hu). unfold delete_locality. rewrite Hloc.
      unfold issue_count, user_count.
      assert (Hi' : (Py.len (List.filter
                               (λ i, bool_decide (Issue.locality_id i
                                                  = Some locality_id))
                               (issue_rows d)) >? 0) = false).
      { apply filter_len_zero, Forall_forall. intros i Hin.
        apply issue_rows_spec in Hin as [k Hk].
        apply bool_decide_eq_false. eauto. }
      assert (Hu' : (Py.len (List.filter
                               (λ u, bool_decide (User.locality_id u
                                                  = Some locality_id))
                               (users d)) >? 0) = false).
      { apply filter_len_zero, Forall_forall. intros u Hin.
        apply bool_decide_eq_false. eauto. }
      by rewrite Hi', Hu'.
  - intros e He.
    destruct (delete_locality_cases locality_id admin_user d)
      as [(e' & ->) | (_ & _ & _ & Hok)]; [reflexivity|].
    rewrite Hok in He. discriminate.
  - intros Hok.
    destruct (delete_locality_cases locality_id admin_user d)
      as [(e' & He) | (_ & _ & _ & ->)]; [rewrite He in Hok; discriminate|].
    simpl. split; [reflexivity|]. split; [reflexivity|].
    split; [reflexivity|]. unfold get_locality, get_locality_details. simpl.
    by rewrite lookup_delete_eq.
Qed.

(** X12: every administrator write keeps the references to localities
    intact: if each user and each issue names only localities that exist,
    that still holds after [create_locality], [update_locality],
    [delete_locality], [create_user], [update_user] and
    [deactivate_user], whatever their arguments and outcome. *)
Theorem admin_writes_keep_refs_ok (d : DB) :
  refs_ok d →
  (∀ locality_data admin_user new_id now,
     refs_ok (create_locality locality_data admin_user new_id now d).1)
  ∧ (∀ locality_id update_data admin_user now,
       refs_ok (update_locality locality_id update_data admin_user now d).1)
  ∧ (∀ locality_id admin_user,
       refs_ok (delete_locality locality_id admin_user d).1)
  ∧ (∀ user_data admin_user new_id now,
       refs_ok (create_user user_data admin_user new_id now d).1)
  ∧ (∀ user_id update_data admin_user now,
       refs_ok (update_user user_id update_data admin_user now d).1)
  ∧ (∀ user_id admin_user now,
       refs_ok (deactivate_user user_id admin_user now d).1).
Proof.
  intros [Husers Hissues].
  assert (Hins : ∀ k (l : Locality.t),
            refs_ok (set_localities (<[k := l]> (localities d)) d)).
  { intros k l. split; simpl.
    - intros u lid Hu Hl. apply lookup_insert_keeps_is_Some. eauto.
    - intros id i lid Hi Hl. apply lookup_insert_keeps_is_Some. eauto. }
  assert (Hrepl : ∀ u old,
            old ∈ users d →
            (∀ lid, User.locality_id u = Some lid →
                    is_Some (localities d !! lid)) →
            refs_ok (set_users (replace_user u (users d)) d)).
  { intros u old Hold Hu. split; simpl; [|exact Hissues].
    intros x lid Hx Hl.
    apply elem_of_replace_user in Hx as [[-> _] | [Hx _]]; eauto. }
  split; [|split; [|split; [|split; [|split]]]].
  - intros data admin_user new_id now. unfold create_locality.
    destruct (first _); [by split | apply Hins].
  - intros locality_id update_data admin_user now.
    destruct (update_locality locality_id update_data admin_user now d)
      as [d' [e|resp]] eqn:Hup.
    + apply update_locality_failure in Hup as ->. by split.
    + apply update_locality_success in Hup as (old & new & _ & -> & _).
      apply Hins.
  - intros locality_id admin_user.
    destruct (delete_locality_cases locality_id admin_user d)
      as [(e & ->) | (_ & Hi & Hu & ->)]; [by split|].
    rewrite Forall_forall in Hi. rewrite Forall_forall in Hu. split; simpl.
    + intros u lid Hin Hl. rewrite lookup_delete_ne; [eauto|].
      intros <-. by apply (Hu u Hin).
    + intros id i lid Hk Hl. rewrite lookup_delete_ne; [eauto|].
      intros <-. apply (Hi i); [apply issue_rows_spec; eauto | exact Hl].
  - intros user_data admin_user new_id now.
    destruct (create_user_cases user_data admin_user new_id now d)
      as [(e & -> & _) | (_ & _ & Hloc & u & _ & _ & _ & Hcase)];
      [by split|].
    destruct Hcase as [(_ & _ & _ & Hl & _ & ->)
                      | (old & Hold & _ & _ & _ & _ & _ & Hl & ->)].
    + split; simpl; [|exact Hissues]. intros x lid Hx Hxl.
      apply elem_of_app in Hx as [Hx | Hx]; [eauto|].
      apply list_elem_of_singleton in Hx as ->.
      rewrite Hl in Hxl. destruct (Hloc lid Hxl) as (loc & -> & _). eauto.
    + apply (Hrepl u old Hold). intros lid Hxl. rewrite Hl in Hxl.
      destruct (CreateUserRequest.locality_id user_data) as [lid'|];
        simpl in Hxl.
      * injection Hxl as ->. destruct (Hloc lid eq_refl) as (loc & -> & _).
        eauto.
      * eauto.
  - intros user_id update_data admin_user now.
    destruct (update_user_cases user_id update_data admin_user now d)
      as [(e & ->) | (old & u & Hold & _ & Hloc & _ & _ & _ & _ & _ & _ & _
                      & Hl & ->)]; [by split|].
    apply get_user_row_Some in Hold as [Hold _].
    apply (Hrepl u old Hold). intros lid Hxl. rewrite Hl in Hxl.
    destruct (UpdateUserRequest.locality_id update_data) as [lid'|];
      simpl in Hxl; [injection Hxl as ->|]; eauto.
  - intros user_id admin_user now.
    destruct (deactivate_user_cases user_id admin_user now d)
      as [(e & -> & _) | (old & u & Hold & _ & _ & _ & _ & _ & Hl & _ & _ & ->)];
      [by split|].
    apply get_user_row_Some in Hold as [Hold _].
    apply (Hrepl u old Hold). intros lid Hxl. rewrite Hl in Hxl. eauto.
Qed.

Lemma get_user_row_replaced (u : User.t) (us : list User.t) (d : DB) :
  (∃ old, old ∈ us ∧ User.id old = User.id u) →
  get_user_row (User.id u) (set_users (replace_user u us) d) = Some u.
Proof.
  unfold get_user_row, replace_user. simpl.
  intros (old & Hold & Hid). induction us as [|x us IH];
    [by apply elem_of_nil in Hold|].
  cbn [map find]. destruct (decide (User.id x = User.id u)) as [Hx|Hx].
  - rewrite (bool_decide_eq_true_2 _ Hx). by rewrite bool_decide_eq_true_2.
  - rewrite !(bool_decide_eq_false_2 _ Hx).
    apply elem_of_cons in Hold as [-> | Hold]; [congruence | auto].
Qed.

Lemma get_user_row_appended (u : User.t) (us : list User.t) (d : DB) :
  Forall (λ v, User.id v ≠ User.id u) us →
  get_user_row (User.id u) (set_users (us ++ [u]) d) = Some u.
Proof.
  unfold get_user_row. simpl. induction 1 as [|x us Hx _ IH]; simpl.
  - by rewrite bool_decide_eq_true_2.
  - by rewrite bool_decide_eq_false_2.
Qed.

Lemma replace_user_idem (u : User.t) (us : list User.t) :
  replace_user u (replace_user u us) = replace_user u us.
Proof.
  unfold replace_user. rewrite map_map. apply map_ext. intros x.
  destruct (decide (User.id x = User.id u)) as [Hx|Hx].
  - rewrite (bool_decide_eq_true_2 _ Hx). by rewrite bool_decide_eq_true_2.
  - by rewrite !(bool_decide_eq_false_2 _ Hx).
Qed.

Lemma first_filter_unique {A B} `{EqDecision B} (f : A → B) (u : A)
    (l : list A) :
  NoDup (f <$> l) →
  u ∈ l →
  first (List.filter (λ v, bool_decide (f v = f u)) l) = Some u.
Proof.
  unfold first. induction l as [|x l IH]; intros Hnd Hu;
    [by apply elem_of_nil in Hu|].
  rewrite fmap_cons in Hnd. apply NoDup_cons in Hnd as [Hx Hnd].
  cbn [List.filter]. apply elem_of_cons in Hu as [<- | Hu].
  - by rewrite bool_decide_eq_true_2.
  - rewrite bool_decide_eq_false_2; [auto|].
    intros Heq. apply Hx. rewrite Heq. apply list_elem_of_fmap. eauto.
Qed.

(** The three user writes keep ids and mobile numbers distinct. *)
Lemma create_user_keeps_users_ok (user_data : CreateUserRequest.t)
    (admin_user : User.t) (new_id now : Z) (d : DB) :
  users_ok d →
  Forall (λ v, User.id v ≠ new_id) (users d) →
  users_ok (create_user user_data admin_user new_id now d).1.
Proof.
  intros [Hids Hmob] Hfresh.
  destruct (create_user_cases user_data admin_user new_id now d)
    as [(e & -> & _) | (_ & _ & _ & u & _ & _ & _ & Hcase)]; [by split|].
  destruct Hcase as [(Hid & _ & _ & _ & Hnew & ->)
                    | (old & Hold & _ & Hid & Hm & _ & _ & _ & ->)];
    unfold users_ok; simpl.
  - rewrite !fmap_app. simpl. split; apply NoDup_app.
    + split; [exact Hids|]. split; [|apply NoDup_singleton].
      intros x Hx Hx'. apply list_elem_of_singleton in Hx' as ->.
      apply list_elem_of_fmap in Hx as (v & Hv & Hin).
      rewrite Forall_forall in Hfresh. apply (Hfresh v Hin). congruence.
    + split; [exact Hmob|]. split; [|apply NoDup_singleton].
      intros x Hx Hx'. apply list_elem_of_singleton in Hx' as ->.
      apply list_elem_of_fmap in Hx as (v & Hv & Hin).
      rewrite Forall_forall in Hnew. apply (Hnew v Hin). congruence.
  - rewrite replace_user_ids.
    rewrite (replace_user_mobiles u old) by assumption. by split.
Qed.

Lemma update_user_keeps_users_ok (user_id : Z)
    (update_data : UpdateUserRequest.t) (admin_user : User.t) (now : Z)
    (d : DB) :
  users_ok d → users_ok (update_user user_id update_data admin_user now d).1.
Proof.
  intros [Hids Hmob].
  destruct (update_user_cases user_id update_data admin_user now d)
    as [(e & ->) | (old & u & Hold & _ & _ & Hid & Hm & _ & _ & _ & _ & _ & _
                    & ->)]; [by split|].
  apply get_user_row_Some in Hold as [Hold _]. unfold users_ok. simpl.
  rewrite replace_user_ids.
  rewrite (replace_user_mobiles u old) by assumption. by split.
Qed.

Lemma deactivate_user_keeps_users_ok (user_id : Z) (admin_user : User.t)
    (now : Z) (d : DB) :
  users_ok d → users_ok (deactivate_user user_id admin_user now d).1.
Proof.
  intros [Hids Hmob].
  destruct (deactivate_user_cases user_id admin_user now d)
    as [(e & -> & _) | (old & u & Hold & _ & Hid & Hm & _ & _ & _ & _ & _
                        & ->)]; [by split|].
  apply get_user_row_Some in Hold as [Hold _]. unfold users_ok. simpl.
  rewrite replace_user_ids.
  rewrite (replace_user_mobiles u old) by assumption. by split.
Qed.

(** X13: [create_user] either fails with a 400 or 404 and changes nothing,
    or answers with a user of the requested role, which is never the
    regular one, verified, with the normalised mobile number; a
    representative always has a locality, and a locality given in the
    request exists, is active and is the user's locality; localities and
    issues are untouched. *)
Theorem create_user_outcome (user_data : CreateUserRequest.t)
    (admin_user : User.t) (new_id now : Z) (d d' : DB)
    (r : ApiError + AdminUserResponse.t) :
  create_user user_data admin_user new_id now d = (d', r) →
  match r with
  | inl e =>
      d' = d
      ∧ (api_status e = HTTP_400_BAD_REQUEST
         ∨ api_status e = HTTP_404_NOT_FOUND)
  | inr resp =>
      CreateUserRequest.role user_data ≠ USER
      ∧ AdminUserResponse.role resp = CreateUserRequest.role user_data
      ∧ AdminUserResponse.is_verified resp = true
      ∧ AdminUserResponse.mobile_number resp
        = PyText.normalize_phone_number
            (CreateUserRequest.mobile_number user_data)
      ∧ (CreateUserRequest.role user_data = REPRESENTATIVE →
         is_Some (AdminUserResponse.locality_id resp))
      ∧ (∀ lid,
           CreateUserRequest.locality_id user_data = Some lid →
           AdminUserResponse.locality_id resp = Some lid
           ∧ ∃ loc, localities d !! lid = Some loc
                    ∧ Locality.is_active loc = true)
      ∧ localities d' = localities d
      ∧ issues d' = issues d
  end.
Proof.
  intros Hcreate.
  destruct (create_user_cases user_data admin_user new_id now d)
    as [(e & He & Hcode)
       | (Hrole & Hrep & Hloc & u & Hr & Hv & Hm & Hcase)].
  - rewrite He in Hcreate. injection Hcreate as <- <-. by split.
  - assert (Hresp : ∀ d0, AdminUserResponse.role (_build_user_response u d0)
                          = User.role u
                          ∧ AdminUserResponse.is_verified
                              (_build_user_response u d0)
                            = User.is_verified u
                          ∧ AdminUserResponse.mobile_number
                              (_build_user_response u d0)
                            = User.mobile_number u
                          ∧ AdminUserResponse.locality_id
                              (_build_user_response u d0)
                            = User.locality_id u).
    { intros d0. unfold _build_user_response.
      destruct (match User.locality_id u with Some _ => _ | None => _ end).
      by repeat split. }
    assert (Hlid : ∀ lid, CreateUserRequest.locality_id user_data = Some lid →
                     User.locality_id u = Some lid).
    { intros lid Hl.
      destruct Hcase as [(_ & _ & _ & -> & _) | (old & _ & _ & _ & _ & _ & _
                                                 & -> & _)];
        [exact Hl | by rewrite Hl]. }
    assert (Hd : ∃ d0, d' = d0 ∧ r = inr (_build_user_response u d0)
                       ∧ localities d0 = localities d
                       ∧ issues d0 = issues d).
    { destruct Hcase as [(_ & _ & _ & _ & _ & He)
                        | (old & _ & _ & _ & _ & _ & _ & _ & He)];
        rewrite He in Hcreate; injection Hcreate as <- <-; eauto. }
    destruct Hd as (d0 & -> & -> & Hls & His).
    destruct (Hresp d0) as (-> & -> & -> & ->).
    split; [exact Hrole|]. split; [exact Hr|]. split; [exact Hv|].
    split; [exact Hm|]. split.
    { intros Hrep'. destruct (Hrep Hrep') as [lid Hl].
      rewrite (Hlid lid Hl). eauto. }
    split; [|by split].
    intros lid Hl. split; [by apply Hlid | by apply Hloc].
Qed.

(** X14: the user writes keep user ids and mobile numbers distinct:
    [create_user] when the id the database hands out is not in use,
    [update_user] and [deactivate_user] always. *)
Theorem user_writes_keep_users_ok (d : DB) :
  users_ok d →
  (∀ user_data admin_user new_id now,
     Forall (λ v, User.id v ≠ new_id) (users d) →
     users_ok (create_user user_data admin_user new_id now d).1)
  ∧ (∀ user_id update_data admin_user now,
       users_ok (update_user user_id update_data admin_user now d).1)
  ∧ (∀ user_id admin_user now,
       users_ok (deactivate_user user_id admin_user now d).1).
Proof.
  intros Hok. split; [|split].
  - intros. by apply create_user_keeps_users_ok.
  - intros. by apply update_user_keeps_users_ok.
  - intros. by apply deactivate_user_keeps_users_ok.
Qed.

(** X15: a user that [create_user] has answered with is what [get_user]
    returns for the id in the answer, when the id the database handed out
    was not in use. *)
Theorem create_user_then_get (user_data : CreateUserRequest.t)
    (admin_user viewer : User.t) (new_id now : Z) (d d' : DB)
    (resp : AdminUserResponse.t) :
  Forall (λ v, User.id v ≠ new_id) (users d) →
  create_user user_data admin_user new_id now d = (d', inr resp) →
  get_user (AdminUserResponse.id resp) viewer d' = inr resp.
Proof.
  intros Hfresh Hcreate.
  destruct (create_user_cases user_data admin_user new_id now d)
    as [(e & He & _) | (_ & _ & _ & u & _ & _ & _ & Hcase)];
    [rewrite He in Hcreate; discriminate|].
  assert (Hid : ∀ d0, AdminUserResponse.id (_build_user_response u d0)
                      = User.id u).
  { intros d0. unfold _build_user_response.
    by destruct (match User.locality_id u with Some _ => _ | None => _ end). }
  destruct Hcase as [(Hnew & _ & _ & _ & _ & He)
                    | (old & Hold & _ & Hold_id & _ & _ & _ & _ & He)];
    rewrite He in Hcreate; injection Hcreate as <- <-;
    rewrite Hid; unfold get_user.
  - rewrite get_user_row_appended; [reflexivity|]. by rewrite Hnew.
  - rewrite get_user_row_replaced; [reflexivity|]. eauto.
Qed.

Lemma build_user_response_fields (u : User.t) (d : DB) :
  AdminUserResponse.id (_build_user_response u d) = User.id u
  ∧ AdminUserResponse.name (_build_user_response u d) = User.name u
  ∧ AdminUserResponse.mobile_number (_build_user_response u d)
    = User.mobile_number u
  ∧ AdminUserResponse.role (_build_user_response u d) = User.role u
  ∧ AdminUserResponse.is_active (_build_user_response u d) = User.is_active u
  ∧ AdminUserResponse.is_verified (_build_user_response u d)
    = User.is_verified u
  ∧ AdminUserResponse.locality_id (_build_user_response u d)
    = User.locality_id u.
Proof.
  unfold _build_user_response.
  destruct (match User.locality_id u with Some _ => _ | None => _ end).
  by repeat split.
Qed.

(** After [deactivate_user], the representatives selected for a locality
    are the ones selected before, without the rows of the deactivated id. *)
Lemma select_representatives_replace_inactive (u : User.t) (lid : Z)
    (us : list User.t) (d : DB) :
  User.is_active u = false →
  select_representatives lid (set_users (replace_user u us) d)
  = List.filter (λ v, negb (bool_decide (User.id v = User.id u)))
      (select_representatives lid (set_users us d)).
Proof.
  intros Hina. unfold select_representatives, replace_user. simpl.
  induction us as [|x us IH]; [reflexivity|].
  cbn [map List.filter]. destruct (decide (User.id x = User.id u)) as [Hx|Hx].
  - rewrite (bool_decide_eq_true_2 _ Hx).
    assert (Hu : is_active_representative_of lid u = false)
      by (unfold is_active_representative_of; rewrite Hina;
          apply andb_false_r).
    rewrite Hu, IH.
    destruct (is_active_representative_of lid x); [|reflexivity].
    cbn [List.filter]. by rewrite (bool_decide_eq_true_2 _ Hx).
  - rewrite (bool_decide_eq_false_2 _ Hx), IH.
    destruct (is_active_representative_of lid x); [|reflexivity].
    cbn [List.filter]. by rewrite (bool_decide_eq_false_2 _ Hx).
Qed.

Section AdminThenReport.

Context {Blob : Type}.
Variable settings : Settings.
Variable storage_service : StorageService Blob.
Variable session : Session.

(** The stored issue of an accepted report, by the directory. *)
Lemma accepted_report_assignment issue_type description latitude longitude
    locality_id photos current_user now (w : World Blob) :
  ¬ violates_prechecks settings photos →
  ∃ issue,
    issues (db (create_issue settings storage_service session issue_type
                  description
                  latitude longitude locality_id photos current_user now w).1)
      !! issues_id_seq (db w) = Some issue
    ∧ (Issue.assigned_parshad_id issue, Issue.assignment_notes issue,
       Issue.status issue) = auto_assign locality_id (db w).
Proof.
  intros Hv. apply prechecks_pass in Hv as [Hn Hval].
  destruct (create_issue_accepted settings storage_service session issue_type
              description latitude longitude locality_id photos current_user
              now w Hn Hval)
    as (issue & Hiss & _ & _ & _ & _ & _ & Hauto & _).
  cbv zeta in Hiss. exists issue. rewrite Hiss, lookup_insert_eq. by split.
Qed.

(** X16: once [create_user] has answered with an active representative for
    a locality, a report for that locality that passes the pre-checks is
    stored ASSIGNED and bound to a user of the directory who is an active
    representative of that locality, with the assignment note naming that
    user; when the locality had no active representative before, the user
    bound is the one [create_user] answered with. *)
Theorem created_representative_gets_reports
    (user_data : CreateUserRequest.t) (admin_user : User.t) (new_id now : Z)
    (d : DB) (resp : AdminUserResponse.t) (lid : Z)
    issue_type description latitude longitude photos current_user now'
    (w : World Blob) :
  create_user user_data admin_user new_id now d = (db w, inr resp) →
  CreateUserRequest.role user_data = REPRESENTATIVE →
  CreateUserRequest.locality_id user_data = Some lid →
  AdminUserResponse.is_active resp = true →
  ¬ violates_prechecks settings photos →
  ∃ issue u,
    issues (db (create_issue settings storage_service session issue_type
                  description latitude longitude (Some lid) photos
                  current_user now' w).1)
      !! issues_id_seq (db w) = Some issue
    ∧ Issue.status issue = ASSIGNED
    ∧ Issue.assigned_parshad_id issue = Some (User.id u)
    ∧ Issue.assignment_notes issue
      = Some ("Auto-assigned to Parshad " +:+ User.name u
              +:+ " of ward " +:+ Py.str_int lid)
    ∧ u ∈ users (db w)
    ∧ User.role u = REPRESENTATIVE
    ∧ User.locality_id u = Some lid
    ∧ User.is_active u = true
    ∧ (¬ has_active_representative d (Some lid) →
       User.id u = AdminUserResponse.id resp).
Proof.
  intros Hcreate Hrole Hlid Hactive Hv.
  destruct (create_user_cases user_data admin_user new_id now d)
    as [(e & He & _) | (_ & _ & _ & new & Hr & _ & _ & Hcase)];
    [rewrite He in Hcreate; discriminate|].
  destruct (build_user_response_fields new (db w))
    as (Hrid & _ & _ & _ & Hact & _ & _).
  assert (Hnew : users (db w) = users d ++ [new]
                 ∨ users (db w) = replace_user new (users d)).
  { destruct Hcase as [(_ & _ & _ & _ & _ & He)
                      | (old & _ & _ & _ & _ & _ & _ & _ & He)];
      rewrite He in Hcreate; injection Hcreate as Hdb _; rewrite <- Hdb;
      [by left | by right]. }
  assert (Hresp : resp = _build_user_response new (db w)).
  { destruct Hcase as [(_ & _ & _ & _ & _ & He)
                      | (old & _ & _ & _ & _ & _ & _ & _ & He)];
      rewrite He in Hcreate; injection Hcreate as Hdb Hresp;
      by rewrite <- Hresp, Hdb. }
  assert (Hrep : has_active_representative (db w) (Some lid)).
  { exists lid, new. split; [reflexivity|].
    destruct Hcase as [(_ & _ & _ & Hl & _ & He)
                      | (old & Hold & _ & Hid & _ & _ & _ & Hl & He)];
      rewrite He in Hcreate; injection Hcreate as Hdb _;
      rewrite <- Hdb; simpl.
    - split; [apply elem_of_app; right; apply list_elem_of_here|].
      split; [congruence|]. split; [congruence|].
      rewrite <- Hact, <- Hresp. exact Hactive.
    - split; [apply elem_of_replace_user; left; eauto|].
      split; [congruence|]. split; [by rewrite Hl, Hlid|].
      rewrite <- Hact, <- Hresp. exact Hactive. }
  destruct (accepted_report_assignment issue_type description latitude
              longitude (Some lid) photos current_user now' w Hv)
    as (issue & Hl & Hauto).
  apply auto_assign_selected in Hrep
    as (u & _ & Hu & Hurole & Hulid & Huact & Hbound).
  rewrite Hbound in Hauto. injection Hauto as Hp Hnote Hs.
  exists issue, u. repeat (split; [assumption|]).
  intros Hnone. rewrite Hresp, Hrid.
  destruct (decide (User.id u = User.id new)) as [Heq|Hne]; [exact Heq|].
  exfalso. apply Hnone. exists lid, u. split; [reflexivity|].
  split; [|by repeat split].
  destruct Hnew as [Hus | Hus]; rewrite Hus in Hu.
  - apply elem_of_app in Hu as [Hu | Hu]; [exact Hu|].
    apply list_elem_of_singleton in Hu. by subst u.
  - apply elem_of_replace_user in Hu as [[Hu _] | [Hu _]];
      [by subst u | exact Hu].
Qed.

(** X17: after a successful [deactivate_user], the representatives selected
    for any locality are those selected before without the deactivated
    user; so when that user was the only active representative of a
    locality, none is selected for it any more and a report for it that
    passes the pre-checks is stored REPORTED with no representative. *)
Theorem deactivated_representative_gets_no_reports (user_id : Z)
    (admin_user : User.t) (now : Z) (d : DB) (lid : Z)
    issue_type description latitude longitude photos current_user now'
    (w : World Blob) :
  deactivate_user user_id admin_user now d = (db w, inr tt) →
  (∀ lid',
     select_representatives lid' (db w)
     = List.filter (λ v, negb (bool_decide (User.id v = user_id)))
         (select_representatives lid' d))
  ∧ (Forall (λ v, User.id v = user_id) (select_representatives lid d) →
     ¬ violates_prechecks settings photos →
     select_representatives lid (db w) = []
     ∧ ∃ issue,
         issues (db (create_issue settings storage_service session issue_type
                       description latitude longitude (Some lid) photos
                       current_user now' w).1)
           !! issues_id_seq (db w) = Some issue
         ∧ Issue.status issue = REPORTED
         ∧ Issue.assigned_parshad_id issue = None).
Proof.
  intros Hde.
  destruct (deactivate_user_cases user_id admin_user now d)
    as [(e & He & _) | (old & u & Hold & _ & Hid & _ & _ & _ & _ & Hina & _
                        & Hok)]; [rewrite He in Hde; discriminate|].
  rewrite Hok in Hde. injection Hde as Hdb.
  apply get_user_row_Some in Hold as [_ Hold_id].
  assert (Hsel : ∀ lid',
            select_representatives lid' (db w)
            = List.filter (λ v, negb (bool_decide (User.id v = user_id)))
                (select_representatives lid' d)).
  { intros lid'. rewrite <- Hdb.
    rewrite (select_representatives_replace_inactive u lid' (users d) d Hina).
    rewrite Hid, Hold_id. by destruct d. }
  split; [exact Hsel|]. intros Honly Hv.
  assert (Hnone : select_representatives lid (db w) = []).
  { rewrite Hsel. apply filter_nil_of_Forall.
    eapply Forall_impl; [exact Honly|]. simpl. intros v Hvid.
    by rewrite bool_decide_eq_true_2. }
  split; [exact Hnone|].
  destruct (accepted_report_assignment issue_type description latitude
              longitude (Some lid) photos current_user now' w Hv)
    as (issue & Hl & Hauto).
  exists issue. split; [exact Hl|].
  unfold auto_assign in Hauto. rewrite Hnone in Hauto. simpl in Hauto.
  injection Hauto as Hp _ Hs. by split.
Qed.

End AdminThenReport.

(** X18: [deactivate_user] answers 404 for an unknown id and 400 for the
    administrator's own id, changing nothing in both cases; and it is
    idempotent: calling it again, at any later time, returns the same
    answer and leaves the database as the first call left it. *)
Theorem deactivate_user_idempotent (user_id : Z) (admin_user : User.t)
    (now now' : Z) (d : DB) :
  (get_user_row user_id d = None →
   deactivate_user user_id admin_user now d
   = (d, inl (mkApiError HTTP_404_NOT_FOUND "User not found")))
  ∧ (is_Some (get_user_row user_id d) → user_id = User.id admin_user →
     deactivate_user user_id admin_user now d
     = (d, inl (mkApiError HTTP_400_BAD_REQUEST "Cannot deactivate yourself")))
  ∧ deactivate_user user_id admin_user now'
      (deactivate_user user_id admin_user now d).1
    = deactivate_user user_id admin_user now d.
Proof.
  split; [|split].
  - intros Hnone. unfold deactivate_user. by rewrite Hnone.
  - intros [u Hu] ->. unfold deactivate_user. rewrite Hu.
    apply get_user_row_Some in Hu as [_ Hid].
    by rewrite bool_decide_eq_true_2.
  - destruct (deactivate_user_cases user_id admin_user now d)
      as [(e & He & Hwhy) | (old & u & Hold & Hself & Hid & _ & _ & _ & _
                            & Hina & _ & Hok)].
    + rewrite He. simpl. revert He. unfold deactivate_user.
      destruct Hwhy as [-> | (old & -> & Hself)]; [done|].
      by rewrite bool_decide_eq_true_2.
    + rewrite Hok. simpl.
      pose proof (get_user_row_Some _ _ _ Hold) as [Hin Hold_id].
      assert (Hrow : get_user_row user_id
                       (set_users (replace_user u (users d)) d) = Some u).
      { rewrite <- Hold_id, <- Hid. apply get_user_row_replaced. eauto. }
      destruct (deactivate_user_cases user_id admin_user now'
                  (set_users (replace_user u (users d)) d))
        as [(e & _ & [Hnone | (old' & Hold' & Hself')])
           | (old' & u' & Hold' & _ & _ & _ & _ & _ & _ & _ & Hsame & ->)].
      * congruence.
      * rewrite Hrow in Hold'. injection Hold' as <-. congruence.
      * rewrite Hrow in Hold'. injection Hold' as <-.
        rewrite (Hsame Hina). simpl. rewrite replace_user_idem. reflexivity.
Qed.


Lemma filter_length_perm {A} (f : A → bool) (l l' : list A) :
  l ≡ₚ l' → length (List.filter f l) = length (List.filter f l').
Proof.
  induction 1 as [|x l l' _ IH|x y l|l l' l'' _ IH1 _ IH2]; simpl.
  - reflexivity.
  - destruct (f x); simpl; congruence.
  - destruct (f x), (f y); reflexivity.
  - congruence.
Qed.

(** Counting over the issue table after one insertion under a free id. *)
Lemma count_issue_rows_insert (f : Issue.t → bool) (k : Z) (issue : Issue.t)
    (d d' : DB) :
  issues d !! k = None →
  issues d' = <[k := issue]> (issues d) →
  Py.len (List.filter f (issue_rows d'))
  = Py.len (List.filter f (issue_rows d)) + (if f issue then 1 else 0).
Proof.
  intros Hfree Hins. unfold Py.len, issue_rows. rewrite Hins.
  rewrite (filter_length_perm f _ (issue :: map snd (map_to_list (issues d)))).
  - simpl. destruct (f issue); simpl length; lia.
  - rewrite (map_to_list_insert _ _ _ Hfree). reflexivity.
Qed.

Section ReportCounts.

Context {Blob : Type}.
Variable settings : Settings.
Variable storage_service : StorageService Blob.
Variable session : Session.

(** The reporter on the stored row of an accepted report. *)
Lemma accepted_report_reporter issue_type description latitude longitude
    locality_id photos current_user now (w : World Blob) (issue : Issue.t) :
  (Py.len photos >? max_photos_per_issue settings) = false →
  validate_photos settings photos = None →
  issues (db (create_issue settings storage_service session issue_type
                description
                latitude longitude locality_id photos current_user now w).1)
    !! issues_id_seq (db w) = Some issue →
  Issue.user_id issue = Some (User.id current_user).
Proof.
  intros Hn Hval. unfold create_issue. rewrite Hn, Hval.
  destruct (auto_assign locality_id (db w)) as [[pid msg] st].
  destruct (upload_photos _ _ _ _ _ _) as [b' [pending|]];
    [destruct (session_commit session pending)|]; simpl.
  - match goal with
    | |- context [commit_photos ?n ?p ?d0] =>
        destruct (commit_photos_tables n p d0) as (_ & _ & -> & _)
    end.
    simpl. rewrite lookup_insert_eq. by intros [= <-].
  - rewrite lookup_insert_eq. by intros [= <-].
  - rewrite lookup_insert_eq. by intros [= <-].
Qed.

(** X20: when the next issue id is free, a report that passes the
    pre-checks raises the reporter's [total_reports] by one, and raises
    [assigned_issues] by one for a representative whose id the stored issue
    is assigned to, leaving it unchanged for every other user. *)
Theorem report_moves_user_counts issue_type description latitude longitude
    locality_id photos current_user now (w : World Blob) :
  issues (db w) !! issues_id_seq (db w) = None →
  ¬ violates_prechecks settings photos →
  ∃ issue,
    issues (db (create_issue settings storage_service session issue_type
                  description
                  latitude longitude locality_id photos current_user now w).1)
      !! issues_id_seq (db w) = Some issue
    ∧ AdminUserResponse.total_reports
        (_build_user_response current_user
           (db (create_issue settings storage_service session issue_type
                  description
                  latitude longitude locality_id photos current_user now
                  w).1))
      = AdminUserResponse.total_reports
          (_build_user_response current_user (db w)) + 1
    ∧ ∀ v,
        AdminUserResponse.assigned_issues
          (_build_user_response v
             (db (create_issue settings storage_service session issue_type
                    description latitude longitude locality_id photos
                    current_user now w).1))
        = AdminUserResponse.assigned_issues (_build_user_response v (db w))
          + (if bool_decide (User.role v = REPRESENTATIVE
                             ∧ Issue.assigned_parshad_id issue
                               = Some (User.id v))
             then 1 else 0).
Proof.
  intros Hfree Hv. apply prechecks_pass in Hv as [Hn Hval].
  destruct (create_issue_accepted settings storage_service session issue_type
              description latitude longitude locality_id photos current_user
              now w Hn Hval)
    as (issue & Hiss & Hls & _ & _ & _ & _ & _ & _ & Hout).
  cbv zeta in *. exists issue.
  split; [by rewrite Hiss, lookup_insert_eq|].
  assert (Huser : Issue.user_id issue = Some (User.id current_user)).
  { apply (accepted_report_reporter issue_type description latitude longitude
             locality_id photos current_user now w issue Hn Hval).
    by rewrite Hiss, lookup_insert_eq. }
  split.
  - unfold _build_user_response.
    destruct (match User.locality_id current_user with
              | Some _ => _ | None => _ end),
             (match User.locality_id current_user with
              | Some _ => _ | None => _ end).
    simpl. rewrite (count_issue_rows_insert _ _ issue (db w) _ Hfree Hiss).
    by rewrite bool_decide_eq_true_2.
  - intros v. unfold _build_user_response.
    destruct (match User.locality_id v with Some _ => _ | None => _ end),
             (match User.locality_id v with Some _ => _ | None => _ end).
    simpl. destruct (decide (User.role v = REPRESENTATIVE)) as [Hr|Hr].
    + rewrite (bool_decide_eq_true_2 _ Hr).
      rewrite (count_issue_rows_insert _ _ issue (db w) _ Hfree Hiss).
      f_equal. destruct (decide (Issue.assigned_parshad_id issue
                                 = Some (User.id v))) as [Ha|Ha].
      * rewrite (bool_decide_eq_true_2 _ Ha).
        by rewrite bool_decide_eq_true_2.
      * rewrite (bool_decide_eq_false_2 _ Ha).
        rewrite bool_decide_eq_false_2; [reflexivity | tauto].
    + rewrite (bool_decide_eq_false_2 _ Hr).
      rewrite bool_decide_eq_false_2; [reflexivity | tauto].
Qed.

End ReportCounts.

(** X21: with distinct user ids and mobile numbers, once [create_user] has
    answered with a user, a second [create_user] for the same role and
    locality with a mobile number that normalises to the same text (under a
    free id the first time) is refused with 400 "already exists" and
    changes nothing. *)
Theorem create_user_twice_refused (user_data user_data' : CreateUserRequest.t)
    (admin_user admin_user' : User.t) (new_id new_id' now now' : Z)
    (d d1 : DB) (resp : AdminUserResponse.t) :
  users_ok d →
  Forall (λ v, User.id v ≠ new_id) (users d) →
  create_user user_data admin_user new_id now d = (d1, inr resp) →
  CreateUserRequest.role user_data' = CreateUserRequest.role user_data →
  CreateUserRequest.locality_id user_data'
  = CreateUserRequest.locality_id user_data →
  PyText.normalize_phone_number (CreateUserRequest.mobile_number user_data')
  = PyText.normalize_phone_number (CreateUserRequest.mobile_number user_data) →
  create_user user_data' admin_user' new_id' now' d1
  = (d1, inl (mkApiError HTTP_400_BAD_REQUEST
                ("A " +:+ UserRole_value (CreateUserRequest.role user_data)
                 +:+ " with this mobile number already exists"))).
Proof.
  intros Hok Hfresh Hc1 Hrole Hloc2 Hmob.
  pose proof (create_user_keeps_users_ok user_data admin_user new_id now d
                Hok Hfresh) as [_ Hmob1].
  rewrite Hc1 in Hmob1. simpl in Hmob1.
  destruct (create_user_cases user_data admin_user new_id now d)
    as [(e & He & _) | (Hr & Hrep & Hloc & u & Hur & _ & Hum & Hcase)];
    [rewrite He in Hc1; discriminate|].
  assert (Hu1 : u ∈ users d1 ∧ localities d1 = localities d).
  { destruct Hcase as [(_ & _ & _ & _ & _ & He)
                      | (old & Hold & _ & Hid & _ & _ & _ & _ & He)];
      rewrite He in Hc1; injection Hc1 as <- _; simpl; (split; [|reflexivity]).
    - apply elem_of_app. right. apply list_elem_of_here.
    - apply elem_of_replace_user. left. eauto. }
  destruct Hu1 as [Hu1 Hls].
  unfold create_user. rewrite Hrole, Hloc2, Hmob, Hls.
  rewrite (bool_decide_eq_false_2 _ Hr).
  assert (Hrepb : bool_decide (CreateUserRequest.role user_data
                               = REPRESENTATIVE)
                  && bool_decide (CreateUserRequest.locality_id user_data
                                  = None) = false).
  { apply andb_false_iff. rewrite !bool_decide_eq_false.
    destruct (decide (CreateUserRequest.role user_data = REPRESENTATIVE))
      as [Hrp|Hrp]; [right | by left].
    destruct (Hrep Hrp) as [lid ->]. discriminate. }
  rewrite Hrepb.
  assert (Hlocb :
    match CreateUserRequest.locality_id user_data with
    | Some lid =>
        match localities d !! lid with
        | None => Some (mkApiError HTTP_404_NOT_FOUND "Locality not found")
        | Some locality =>
            if negb (Locality.is_active locality) then
              Some (mkApiError HTTP_400_BAD_REQUEST
                      "Cannot assign user to inactive locality")
            else None
        end
    | None => None
    end = None).
  { destruct (CreateUserRequest.locality_id user_data) as [lid|];
      [|reflexivity].
    destruct (Hloc lid eq_refl) as (loc & -> & ->). reflexivity. }
  rewrite Hlocb, <- Hum.
  rewrite (first_filter_unique User.mobile_number u (users d1) Hmob1 Hu1).
  by rewrite (bool_decide_eq_true_2 _ Hur).
Qed.

(** ** Further properties of the phone normaliser *)

Section NormalizeDigits.

Variable unicode_Nd : N -> bool.

(** X22: [normalize_phone_number] keeps every digit of its input, in
    order: the output is '+', then nothing or the country code 91, then
    the digits of the input. Nothing is put in front for an input that
    starts with '+'; otherwise 91 is put in front when the input has
    exactly ten digits or its digits do not start with 91, and nothing
    when they start with 91 and are not ten. *)
Theorem normalize_phone_number_keeps_digits (phone : Twilio.str) :
  ∃ prefix,
    Twilio.normalize_phone_number unicode_Nd phone
    = Twilio.plus :: prefix ++ Twilio.remove_non_digits unicode_Nd phone
    ∧ (prefix = [] ∨ prefix = [Twilio.d9; Twilio.d1])
    ∧ (Twilio.startswith [Twilio.plus] phone = true → prefix = [])
    ∧ (Twilio.startswith [Twilio.plus] phone = false →
       (Py.len (Twilio.remove_non_digits unicode_Nd phone) = 10
        ∨ Twilio.startswith [Twilio.d9; Twilio.d1]
            (Twilio.remove_non_digits unicode_Nd phone) = false →
        prefix = [Twilio.d9; Twilio.d1])
       ∧ (Py.len (Twilio.remove_non_digits unicode_Nd phone) ≠ 10 →
          Twilio.startswith [Twilio.d9; Twilio.d1]
            (Twilio.remove_non_digits unicode_Nd phone) = true →
          prefix = [])).
Proof.
  unfold Twilio.normalize_phone_number.
  destruct (Twilio.startswith [Twilio.plus] phone) eqn:Hplus.
  - exists []. split.
    + destruct phone as [|c rest]; [discriminate|].
      cbn [Twilio.startswith] in Hplus.
      rewrite andb_true_r in Hplus. apply N.eqb_eq in Hplus as <-.
      reflexivity.
    + split; [by left|]. split; [done | discriminate].
  - destruct (Twilio.startswith [Twilio.d9; Twilio.d1] _) eqn:H91;
      destruct (Py.len _ =? 10) eqn:Hlen; simpl.
    + exists [Twilio.d9; Twilio.d1]. split; [reflexivity|].
      split; [by right|]. split; [discriminate|]. intros _.
      split; [done|]. intros Hne _. apply Z.eqb_eq in Hlen. contradiction.
    + exists []. split; [reflexivity|]. split; [by left|].
      split; [done|]. intros _. split; [|done].
      intros [Hten | Hno]; [|discriminate].
      apply Z.eqb_neq in Hlen. contradiction.
    + exists [Twilio.d9; Twilio.d1]. split; [reflexivity|].
      split; [by right|]. split; [discriminate|]. intros _.
      split; [done | discriminate].
    + exists [Twilio.d9; Twilio.d1]. split; [reflexivity|].
      split; [by right|]. split; [discriminate|]. intros _.
      split; [done | discriminate].
Qed.

End NormalizeDigits.

Lemma codepoints_text (cs : Twilio.str) :
  Forall (λ c, (c < 256)%N) cs → PyText.codepoints (PyText.text cs) = cs.
Proof.
  unfold PyText.codepoints, PyText.text.
  rewrite String.list_ascii_of_string_of_list_ascii.
  induction 1 as [|c cs Hc _ IH]; simpl; [reflexivity|].
  rewrite IH. f_equal. by apply Ascii.N_ascii_embedding.
Qed.

(** X23: on a text, [normalize_phone_number] returns "+" followed by ASCII
    digits only, and it is idempotent: a number that went through it (such
    as the one [create_user] stores and searches by) is returned
    unchanged. *)
Theorem normalize_phone_number_text (phone : string) :
  (∃ digits,
     PyText.normalize_phone_number phone = "+" +:+ digits
     ∧ Forall (λ a, (48 ≤ Ascii.N_of_ascii a ≤ 57)%N)
         (String.list_ascii_of_string digits))
  ∧ PyText.normalize_phone_number (PyText.normalize_phone_number phone)
    = PyText.normalize_phone_number phone.
Proof.
  unfold PyText.normalize_phone_number.
  destruct (normalize_phone_number_shape (λ _, false)
              (PyText.codepoints phone)) as (ds & Hds & Hdigits).
  assert (Hrange : Forall (λ c, (48 ≤ c ≤ 57)%N) ds).
  { eapply Forall_impl; [exact Hdigits|]. simpl. intros c.
    unfold Twilio.is_digit. destruct (c <? 128)%N; [|discriminate].
    rewrite andb_true_iff, !N.leb_le. tauto. }
  rewrite Hds. split.
  - exists (PyText.text ds). split; [reflexivity|].
    unfold PyText.text. rewrite String.list_ascii_of_string_of_list_ascii.
    apply Forall_fmap. eapply Forall_impl; [exact Hrange|]. simpl.
    intros c Hc. rewrite Ascii.N_ascii_embedding; lia.
  - rewrite codepoints_text.
    + f_equal. unfold Twilio.normalize_phone_number at 1. simpl.
      by rewrite remove_non_digits_fixed.
    + constructor; [reflexivity|].
      eapply Forall_impl; [exact Hrange|]. simpl. intros c Hc. lia.
Qed.

(** ** The further concrete cases *)

Lemma demo_store_ok : store_ok (db Demo.w0).
Proof.
  split; [|split].
  - intros id issue Hl. simpl in Hl. by rewrite lookup_empty in Hl.
  - constructor.
  - constructor.
Qed.

(** X2 at the deployment: Ravi's report with two photos. *)
Lemma create_issue_stores_one_row_per_photo_witness :
  ∃ rows,
    issue_photos
      (db (Demo.report (Some 5) [Demo.jpeg "a.jpg"; Demo.jpeg "b.jpg"]
             Demo.w0).1) = rows
    ∧ IssuePhoto.id <$> rows = [1; 2]
    ∧ IssuePhoto.filename <$> rows = ["a.jpg"; "b.jpg"].
Proof.
  destruct (Demo.report (Some 5) [Demo.jpeg "a.jpg"; Demo.jpeg "b.jpg"]
              Demo.w0).2 as [e|resp] eqn:Hres;
    [vm_compute in Hres; discriminate|].
  destruct (create_issue_stores_one_row_per_photo Demo.cfg Demo.store
              Demo.session ROAD
              "Pothole near the school gate" 0%float 0%float (Some 5)
              [Demo.jpeg "a.jpg"; Demo.jpeg "b.jpg"] Demo.ravi 100 Demo.w0
              resp Hres) as (rows & Hrows & _ & Hids & _).
  exists rows. split; [exact Hrows|]. split; [exact Hids|].
  apply (f_equal (fmap IssuePhoto.filename)) in Hrows.
  vm_compute in Hrows. simpl in Hrows. symmetry. exact Hrows.
Defined.

(** X3 at the deployment. *)
Lemma create_issue_keeps_store_ok_witness :
  store_ok (db (Demo.report (Some 5) [Demo.jpeg "a.jpg"] Demo.w0).1).
Proof.
  apply (create_issue_keeps_store_ok Demo.cfg Demo.store Demo.session ROAD
           "Pothole near the school gate" 0%float 0%float (Some 5)
           [Demo.jpeg "a.jpg"] Demo.ravi 100 Demo.w0 demo_store_ok).
Defined.

(** X4 at the deployment: issue 1 read back through a storage service
    that signs its URLs differently. *)
Lemma get_issue_after_create_witness :
  ∃ r, get_issue Demo.store_later 1 (db Demo.w1) = inr r
       ∧ IssueResponse.status r = ASSIGNED
       ∧ map photo_entry (IssueResponse.photos r) = [(1, "a.jpg", 3,
                                                        "image/jpeg", 100)].
Proof.
  destruct (Demo.report (Some 5) [Demo.jpeg "a.jpg"] Demo.w0).2
    as [e|resp] eqn:Hres; [vm_compute in Hres; discriminate|].
  destruct (get_issue_after_create Demo.cfg Demo.store Demo.session ROAD
              "Pothole near the school gate" 0%float 0%float (Some 5)
              [Demo.jpeg "a.jpg"] Demo.ravi 100 Demo.w0 resp
              Demo.store_later Hres)
    as (r & Hget & _ & _ & _ & _ & Hstatus & _ & _ & _ & _ & Hphotos & _).
  vm_compute in Hres. injection Hres as <-.
  exists r. split; [exact Hget|]. split; [exact Hstatus|]. by rewrite Hphotos.
Defined.

(** X5 at the deployment: the second page of two of Ravi's three reports
    holds one item. *)
Lemma get_issues_page_witness :
  ∃ r,
    get_issues Demo.store AdminDemo.ceil_div order_by_created_at_desc 2 2
      None None Demo.ravi (db Demo.w1_three_reports) = inr r
    ∧ IssueListResponse.total r = 3
    ∧ Py.len (IssueListResponse.items r) = 1.
Proof.
  destruct (get_issues_page Demo.store AdminDemo.ceil_div
              order_by_created_at_desc 2 2 None None Demo.ravi
              (db Demo.w1_three_reports) order_by_created_at_desc_orders)
    as [_ Hin].
  destruct (Hin ltac:(lia) ltac:(lia)) as (r & Hr & Htotal & _ & _ & Hlen & _).
  exists r. split; [exact Hr|].
  assert (Hthree : IssueListResponse.total r = 3)
    by (rewrite Htotal; vm_compute; reflexivity).
  split; [exact Hthree|]. rewrite Hlen, Hthree. reflexivity.
Defined.

(** The stable ordering applied to the rows in reverse: another answer to
    [ORDER BY created_at DESC]. *)
Lemma order_by_created_at_desc_reverse_orders :
  orders_newest_first (λ rows, order_by_created_at_desc (reverse rows)).
Proof.
  intros rows. split.
  - rewrite order_by_created_at_desc_perm. apply reverse_Permutation.
  - apply order_by_created_at_desc_sorted.
Qed.

(** X6 at the deployment: Ravi's three reports on two pages of two, the
    database ordering the rows of the second query in its own way. *)
Lemma get_issues_pages_cover_witness :
  ∃ pages all_issues,
    Forall2
      (λ k r,
         get_issues Demo.store AdminDemo.ceil_div
           (λ rows,
              if Nat.even k then order_by_created_at_desc rows
              else order_by_created_at_desc (reverse rows))
           (Z.of_nat k + 1) 2 None None Demo.ravi
           (db Demo.w1_three_reports) = inr r)
      [0; 1]%nat pages
    ∧ concat (IssueListResponse.items <$> pages)
      = map (λ issue,
               build_issue_response Demo.store issue
                 (db Demo.w1_three_reports))
          all_issues
    ∧ newest_first all_issues
    ∧ all_issues
      ≡ₚ List.filter (owned_and_matching 7 None None)
           (issue_rows (db Demo.w1_three_reports)).
Proof.
  apply (get_issues_pages_cover Demo.store AdminDemo.ceil_div 2
           (λ k rows,
              if Nat.even k then order_by_created_at_desc rows
              else order_by_created_at_desc (reverse rows))
           2 None None Demo.ravi (db Demo.w1_three_reports)).
  - intros k. destruct (Nat.even k);
      [apply order_by_created_at_desc_orders
      | apply order_by_created_at_desc_reverse_orders].
  - lia.
  - apply (bool_decide_unpack _). vm_compute. exact I.
  - vm_compute. discriminate.
Defined.

Lemma admin_demo_keys (id : Z) (loc : Locality.t) :
  localities AdminDemo.db0 !! id = Some loc → Locality.id loc = id.
Proof.
  simpl. intros Hl. apply lookup_singleton_Some in Hl as [<- <-]. reflexivity.
Qed.

Lemma admin_demo_table_ok : locality_table_ok AdminDemo.db0.
Proof.
  split; [exact admin_demo_keys|].
  simpl. intros id1 id2 l1 l2 H1 H2 _ _.
  apply lookup_singleton_Some in H1 as [<- _].
  by apply lookup_singleton_Some in H2 as [<- _].
Qed.

Lemma admin_demo_refs_ok : refs_ok AdminDemo.db0.
Proof.
  split.
  - intros u lid Hu Hl. simpl in Hu.
    repeat (apply elem_of_cons in Hu as [-> | Hu]; [discriminate|]).
    by apply elem_of_nil in Hu.
  - intros id issue lid Hi. simpl in Hi. by rewrite lookup_empty in Hi.
Qed.

Lemma admin_demo_users_ok : users_ok AdminDemo.db0.
Proof.
  split; simpl; apply (bool_decide_unpack _); vm_compute; exact I.
Qed.

Lemma admin_demo_id_2_free :
  Forall (λ v, User.id v ≠ 2) (users AdminDemo.db0).
Proof. simpl. repeat constructor; discriminate. Qed.

Lemma admin_demo_create_kiran :
  create_user AdminDemo.new_rep AdminDemo.meera 2 50 AdminDemo.db0
  = (AdminDemo.db1, inr (_build_user_response AdminDemo.kiran AdminDemo.db1)).
Proof. vm_compute. reflexivity. Qed.

(** X7 at the administration: Rajpur has its detail page, so it is
    listed. *)
Lemma public_list_agrees_with_details_witness :
  LocalityPublicResponse.mk 6 "Rajpur" VILLAGE []
  ∈ LocalityListPublicResponse.items
      (get_all_localities (λ _ _, true) (λ rows, rows) None None
         AdminDemo.db0).
Proof.
  destruct (public_list_agrees_with_details (λ _ _, true) (λ rows, rows)
              AdminDemo.db0 ltac:(reflexivity) admin_demo_keys)
    as (Hlist & _).
  apply Hlist. exists 6. vm_compute. reflexivity.
Defined.

(** X8 at the administration: a second locality under the free id 7. *)
Lemma locality_writes_keep_table_ok_witness :
  locality_table_ok
    (create_locality AdminDemo.ward9 AdminDemo.meera 7 70 AdminDemo.db0).1.
Proof.
  destruct (locality_writes_keep_table_ok AdminDemo.db0 admin_demo_table_ok)
    as (Hcreate & _).
  apply Hcreate. vm_compute. reflexivity.
Defined.

(** X9 at the administration: Ward 9 is created and read back. *)
Lemma create_locality_then_get_witness :
  get_locality 7 AdminDemo.meera
    (create_locality AdminDemo.ward9 AdminDemo.meera 7 70 AdminDemo.db0).1
  = inr (LocalityResponse.mk 7 "Ward 9" WARD true 70 70 0 0).
Proof.
  destruct (create_locality_then_get AdminDemo.ward9 AdminDemo.meera
              AdminDemo.meera 7 70 AdminDemo.db0
              (create_locality AdminDemo.ward9 AdminDemo.meera 7 70
                 AdminDemo.db0).1
              (LocalityResponse.mk 7 "Ward 9" WARD true 70 70 0 0)
              ltac:(vm_compute; reflexivity) admin_demo_refs_ok
              ltac:(vm_compute; reflexivity)) as (Hget & _).
  exact Hget.
Defined.

(** X10 at the administration: Rajpur is switched off and its public
    detail page goes. *)
Lemma update_locality_effect_witness :
  get_locality_details 6
    (update_locality 6 AdminDemo.close_rajpur AdminDemo.meera 80
       AdminDemo.db0).1
  = inl (mkHTTPException HTTP_404_NOT_FOUND LocalityNotFound).
Proof.
  destruct (update_locality 6 AdminDemo.close_rajpur AdminDemo.meera 80
              AdminDemo.db0) as [d' [e|resp]] eqn:Hup;
    [vm_compute in Hup; discriminate|].
  destruct (update_locality_effect 6 AdminDemo.close_rajpur AdminDemo.meera
              80 AdminDemo.db0 d' (inr resp) Hup)
    as (old & new & Hold & _ & _ & _ & _ & _ & _ & _ & _ & Hactive & _ & _
        & _ & _ & Hpublic).
  simpl. rewrite Hpublic, Hactive. reflexivity.
Defined.

(** X12 at the administration: after Kiran's creation the references still
    hold. *)
Lemma admin_writes_keep_refs_ok_witness : refs_ok AdminDemo.db1.
Proof.
  destruct (admin_writes_keep_refs_ok AdminDemo.db0 admin_demo_refs_ok)
    as (_ & _ & _ & Hcreate & _).
  apply (Hcreate AdminDemo.new_rep AdminDemo.meera 2 50).
Defined.

(** X13 at the administration: Kiran's number is stored normalised. *)
Lemma create_user_outcome_witness :
  AdminUserResponse.mobile_number
    (_build_user_response AdminDemo.kiran AdminDemo.db1)
  = PyText.normalize_phone_number "98765 43210"
  ∧ AdminUserResponse.locality_id
      (_build_user_response AdminDemo.kiran AdminDemo.db1) = Some 6.
Proof.
  destruct (create_user_outcome AdminDemo.new_rep AdminDemo.meera 2 50
              AdminDemo.db0 AdminDemo.db1 _ admin_demo_create_kiran)
    as (_ & _ & _ & Hmobile & _ & Hloc & _).
  split; [exact Hmobile|]. by destruct (Hloc 6 eq_refl) as [-> _].
Defined.

(** X14 at the administration: ids and numbers are still distinct after
    Kiran's creation. *)
Lemma user_writes_keep_users_ok_witness : users_ok AdminDemo.db1.
Proof.
  destruct (user_writes_keep_users_ok AdminDemo.db0 admin_demo_users_ok)
    as (Hcreate & _).
  apply (Hcreate AdminDemo.new_rep AdminDemo.meera 2 50 admin_demo_id_2_free).
Defined.

(** X15 at the administration: Kiran is read back under id 2. *)
Lemma create_user_then_get_witness :
  get_user 2 AdminDemo.meera AdminDemo.db1
  = inr (_build_user_response AdminDemo.kiran AdminDemo.db1).
Proof.
  apply (create_user_then_get AdminDemo.new_rep AdminDemo.meera
           AdminDemo.meera 2 50 AdminDemo.db0 AdminDemo.db1
           (_build_user_response AdminDemo.kiran AdminDemo.db1)
           admin_demo_id_2_free admin_demo_create_kiran).
Defined.

(** X16 at the administration: a report for Rajpur, which had no
    representative, goes to Kiran, the user just created. *)
Lemma created_representative_gets_reports_witness :
  ∃ issue,
    issues (db (Demo.report (Some 6) [Demo.jpeg "a.jpg"] AdminDemo.w1).1) !! 1
    = Some issue
    ∧ Issue.status issue = ASSIGNED
    ∧ Issue.assigned_parshad_id issue = Some 2.
Proof.
  destruct (created_representative_gets_reports Demo.cfg Demo.store
              Demo.session AdminDemo.new_rep AdminDemo.meera 2 50
              AdminDemo.db0
              (_build_user_response AdminDemo.kiran AdminDemo.db1) 6 ROAD
              "Pothole near the school gate" 0%float 0%float
              [Demo.jpeg "a.jpg"] Demo.ravi 100 AdminDemo.w1
              admin_demo_create_kiran eq_refl eq_refl eq_refl
              (demo_batch_ok ["a.jpg"] ltac:(simpl; lia)))
    as (issue & u & Hl & Hstatus & Hbound & _ & _ & _ & _ & _ & Hnew).
  exists issue. split; [exact Hl|]. split; [exact Hstatus|].
  rewrite Hbound. f_equal. apply Hnew.
  intros (lid & v & _ & Hv & Hrole & _).
  repeat (apply elem_of_cons in Hv as [-> | Hv]; [discriminate|]).
  by apply elem_of_nil in Hv.
Defined.

(** X17 at the administration: with Kiran deactivated, a report for Rajpur
    stays unassigned. *)
Lemma deactivated_representative_gets_no_reports_witness :
  ∃ issue,
    issues (db (Demo.report (Some 6) [Demo.jpeg "a.jpg"] AdminDemo.w2).1) !! 1
    = Some issue
    ∧ Issue.status issue = REPORTED
    ∧ Issue.assigned_parshad_id issue = None.
Proof.
  destruct (deactivated_representative_gets_no_reports Demo.cfg Demo.store
              Demo.session 2
              AdminDemo.meera 60 AdminDemo.db1 6 ROAD
              "Pothole near the school gate" 0%float 0%float
              [Demo.jpeg "a.jpg"] Demo.ravi 100 AdminDemo.w2
              ltac:(vm_compute; reflexivity)) as (_ & Hreport).
  apply Hreport; [|exact (demo_batch_ok ["a.jpg"] ltac:(simpl; lia))].
  vm_compute. repeat constructor.
Defined.


(** X20 at the deployment: Ravi's report counts for him and for Asha. *)
Lemma report_moves_user_counts_witness :
  AdminUserResponse.total_reports
    (_build_user_response Demo.ravi (db Demo.w1)) = 1
  ∧ AdminUserResponse.assigned_issues
      (_build_user_response Demo.asha (db Demo.w1)) = 1.
Proof.
  destruct (report_moves_user_counts Demo.cfg Demo.store Demo.session ROAD
              "Pothole near the school gate" 0%float 0%float (Some 5)
              [Demo.jpeg "a.jpg"] Demo.ravi 100 Demo.w0
              ltac:(vm_compute; reflexivity)
              (demo_batch_ok ["a.jpg"] ltac:(simpl; lia)))
    as (issue & Hl & Hreports & Hassigned).
  split; [exact Hreports|].
  unfold Demo.w1, Demo.report. rewrite (Hassigned Demo.asha).
  vm_compute in Hl. injection Hl as <-. reflexivity.
Defined.

(** X21 at the administration: Kiran cannot be created twice. *)
Lemma create_user_twice_refused_witness :
  create_user AdminDemo.new_rep_again AdminDemo.meera 3 55 AdminDemo.db1
  = (AdminDemo.db1,
     inl (mkApiError HTTP_400_BAD_REQUEST
            "A representative with this mobile number already exists")).
Proof.
  apply (create_user_twice_refused AdminDemo.new_rep AdminDemo.new_rep_again
           AdminDemo.meera AdminDemo.meera 2 3 50 55 AdminDemo.db0
           AdminDemo.db1 (_build_user_response AdminDemo.kiran AdminDemo.db1)
           admin_demo_users_ok admin_demo_id_2_free admin_demo_create_kiran
           eq_refl eq_refl ltac:(vm_compute; reflexivity)).
Defined.
